(** * RETURNN layer containers and recurrent units: a shallow embedding

    The development follows [NetworkBaseLayer.py] (classes [Container] and
    [Layer]) and [NetworkRecurrentLayer.py] (class [Unit], its variants
    [VANILLA] and [LSTME], and the scan that [RecurrentUnitLayer] runs).

    - Python dictionaries ([params], [attrs], the HDF file) are finite
      maps; an HDF group keeps its datasets in iteration order.
    - Exceptions are values of [exn]; a call that may raise returns a
      [result].  Methods that mutate the layer return the new layer.
    - Numpy arrays stored in shared variables are records of a shape and a
      flat row-major data list.  [Container.save] and [Container.load]
      only store and inspect values, so their element type is abstract
      with the two numpy predicates [isinf] and [isnan] and the
      conversion to single precision of a stored dataset; the sample
      files hold the kernel's binary floats.
    - Tensors of the Theano graph are nested lists and their arithmetic is
      idealised over the real numbers: float32 rounding is not modelled.
    - Collaborators outside the two files ([NetworkLayer.get_layer_class],
      [NetworkHiddenLayer.concat_sources], [T.tensordot], the evaluation of
      initialiser and substitution expressions, the seeded Theano random
      stream) are section variables. *)

From Stdlib Require Import PrimFloat FloatOps SpecFloat.
From Stdlib Require Import Reals Lra Lia ZArith NArith List String Ascii.
From Stdlib Require Import DecimalString.
From stdpp Require Import gmap strings list fin_maps.

#[local] Set Warnings "-register-all".
Open Scope string_scope.

(** ** Exceptions and results *)

Inductive exn : Type :=
| AssertionError (msg : string)
| KeyError (key : string)
| TypeError (msg : string)
| AttributeError (msg : string)
| ValueError (msg : string)
| ZeroDivisionError
| IndexError (msg : string)
| LookupFailure (msg : string).

Inductive result (A : Type) : Type :=
| Ok (a : A)
| Raise (e : exn).
Arguments Ok {A} a.
Arguments Raise {A} e.

(** Sequencing stops at the first exception. *)
#[export] Instance result_ret : MRet result := fun A a => Ok a.

#[export] Instance result_bind : MBind result := fun A B k r =>
  match r with
  | Ok a => k a
  | Raise e => Raise e
  end.

Definition raised {A} (r : result A) : Prop :=
  match r with Ok _ => False | Raise _ => True end.

(** ** Strings as the code uses them *)

Definition is_digit (c : ascii) : bool :=
  let n := nat_of_ascii c in (48 <=? n)%nat && (n <=? 57)%nat.

Definition newline : ascii := ascii_of_nat 10.

Fixpoint string_of_chars (cs : list ascii) : string :=
  match cs with
  | [] => EmptyString
  | c :: cs' => String c (string_of_chars cs')
  end.

Fixpoint chars_of_string (s : string) : list ascii :=
  match s with
  | EmptyString => []
  | String c s' => c :: chars_of_string s'
  end.

(** [int(group)] for a group of decimal digits. *)
Definition digit_value (c : ascii) : N := N.of_nat (nat_of_ascii c - 48).

Definition int_of_digits (ds : list ascii) : N :=
  fold_left (fun acc c => (10 * acc + digit_value c)%N) ds 0%N.

(** ["%i" % n] for a non-negative integer. *)
Definition format_int (n : N) : string :=
  NilZero.string_of_uint (N.to_uint n).

(** [s.split(sep)] for a one-character separator. *)
Fixpoint split_on (sep : ascii) (s : string) : list string :=
  match s with
  | EmptyString => [EmptyString]
  | String c s' =>
      if Ascii.eqb c sep then EmptyString :: split_on sep s'
      else match split_on sep s' with
           | [] => [String c EmptyString]
           | w :: ws => String c w :: ws
           end
  end.

(** ** Values held in shared variables *)

Record ndarray (A : Type) : Type := mk_ndarray {
  shape : list nat;
  data : list A
}.
Arguments mk_ndarray {A} shape data.
Arguments shape {A} _.
Arguments data {A} _.

(** numpy's [isinf] and [isnan] on the element type of an array, and the
    conversion to single precision that a dataset of dtype 'f' applies to
    what is written into it. *)
Class FloatX (A : Type) : Type := {
  isinf : A -> bool;
  isnan : A -> bool;
  as_float32 : A -> A
}.

(** Rounding of a binary64 number to the nearest binary32 number, ties to
    even; numbers beyond the binary32 range become infinities. *)
Definition float32_of (x : float) : float :=
  SF2Prim (match Prim2SF x with
           | S754_finite s m e => binary_round 24 128 s m e
           | sf => sf
           end).

#[export] Instance float_FloatX : FloatX float := {
  isinf := PrimFloat.is_infinity;
  isnan := PrimFloat.is_nan;
  as_float32 := float32_of
}.

(** Real numbers are all finite, and their rounding is not modelled. *)
#[export] Instance R_FloatX : FloatX R := {
  isinf := fun _ => false;
  isnan := fun _ => false;
  as_float32 := fun x => x
}.

(** [a.astype('f')] *)
Definition astype_float32 {A} `{FloatX A} (a : ndarray A) : ndarray A :=
  mk_ndarray (shape a) (as_float32 <$> data a).

Record SharedVariable (A : Type) : Type := mk_shared {
  sv_name : option string;
  sv_value : ndarray A
}.
Arguments mk_shared {A} sv_name sv_value.
Arguments sv_name {A} _.
Arguments sv_value {A} _.

Definition get_value {A} (v : SharedVariable A) : ndarray A := sv_value v.

Definition set_value {A} (v : SharedVariable A) (a : ndarray A) : SharedVariable A :=
  {| sv_name := sv_name v; sv_value := a |}.

(** ** Attribute values *)

Inductive attr_value : Type :=
| VNone
| VBool (b : bool)
| VNumpyBool (b : bool)
| VInt (z : Z)
| VFloat (r : R)
| VStr (s : string)
| VList (l : list attr_value)
| VDict (d : list (string * attr_value)).

(** A line printed to one of the verbosity streams of [Log.log]. *)
Record log_line : Type := mk_log { verbosity : nat; message : string }.

(** ** The container: [NetworkBaseLayer.Container] *)

(** The part of the enclosing network that [Container] consults: the
    optional parameter-substitution hook [get_layer_param]. *)
Record Network (A : Type) : Type := mk_network {
  get_layer_param :
    option (string -> string -> SharedVariable A -> option (SharedVariable A))
}.
Arguments mk_network {A} get_layer_param.
Arguments get_layer_param {A} _.

Record Container (A : Type) : Type := mk_container {
  layer_class : string;
  name : string;
  params : gmap string (SharedVariable A);
  attrs : gmap string attr_value;
  train_flag : bool;
  depth : nat;
  network : option (Network A);
  substitute_param_expr : option string
}.
Arguments mk_container {A} _ _ _ _ _ _ _ _.
Arguments layer_class {A} _.
Arguments name {A} _.
Arguments params {A} _.
Arguments attrs {A} _.
Arguments train_flag {A} _.
Arguments depth {A} _.
Arguments network {A} _.
Arguments substitute_param_expr {A} _.

Definition with_params {A} (c : Container A)
    (ps : gmap string (SharedVariable A)) : Container A :=
  {| layer_class := layer_class c; name := name c; params := ps;
     attrs := attrs c; train_flag := train_flag c; depth := depth c;
     network := network c;
     substitute_param_expr := substitute_param_expr c |}.

(** [Container.set_attr] *)
Definition set_attr {A} (c : Container A) (k : string) (v : attr_value) : Container A :=
  {| layer_class := layer_class c; name := name c; params := params c;
     attrs := <[k := v]> (attrs c); train_flag := train_flag c;
     depth := depth c; network := network c;
     substitute_param_expr := substitute_param_expr c |}.

(** *** [Container.guess_source_layer_name]

    [re.search("^.*?([0-9]+)[^0-9]*$", layer_name)]: the lazy prefix [.*?]
    grows one character at a time (never over a newline, which [.] does
    not match) until the rest of the name is a non-empty run of digits
    followed by digit-free text. *)

Fixpoint span_digits (cs : list ascii) : list ascii * list ascii :=
  match cs with
  | c :: cs' =>
      if is_digit c then let (ds, rest) := span_digits cs' in (c :: ds, rest)
      else ([], cs)
  | [] => ([], [])
  end.

(** Does [([0-9]+)[^0-9]*$] match the whole of [cs]?  The greedy group
    takes the maximal run of digits; a shorter run cannot help, since the
    character after it would be a digit. *)
Definition match_digits_tail (cs : list ascii) : option (list ascii * list ascii) :=
  let (ds, rest) := span_digits cs in
  match ds with
  | [] => None
  | _ :: _ => if forallb (fun c => negb (is_digit c)) rest then Some (ds, rest) else None
  end.

(** The match object: text before group 1, group 1, text after it. *)
Fixpoint re_search_from (before : list ascii) (cs : list ascii)
  : option (list ascii * list ascii * list ascii) :=
  match match_digits_tail cs with
  | Some (ds, rest) => Some (before, ds, rest)
  | None =>
      match cs with
      | [] => None
      | c :: cs' =>
          if Ascii.eqb c newline then None
          else re_search_from (before ++ [c]) cs'
      end
  end.

Definition guess_source_layer_name (layer_name : string) : option string :=
  match re_search_from [] (chars_of_string layer_name) with
  | Some (before, ds, rest) =>
      let nr := int_of_digits ds in
      if (0 <? nr)%N then
        Some (string_of_chars before ++ format_int (nr - 1) ++ string_of_chars rest)
      else None
  | None => None
  end.

(** *** [Container.to_json] *)

(** The loop over [attrs.keys()] turning every [numpy.bool_] into a Python
    [bool]. *)
Definition unbox_numpy_bool (v : attr_value) : attr_value :=
  match v with
  | VNumpyBool b => VBool b
  | _ => v
  end.

Definition to_json {A} (c : Container A) : result (gmap string attr_value) :=
  let attrs0 := unbox_numpy_bool <$> attrs c in
  match attrs0 !! "from" with
  | Some v =>
      match v with
      | VStr s =>
          if String.eqb s "data" then Ok (delete "from" attrs0)
          else if String.eqb s EmptyString then
            match guess_source_layer_name (name c) with
            | Some guessed => Ok (<["from" := VList [VStr guessed]]> attrs0)
            | None => Ok (delete "from" attrs0)
            end
          else Ok (<["from" := VList (VStr <$> split_on "," s)]> attrs0)
      | _ => Raise (AttributeError "object has no attribute 'split'")
      end
  | None => Ok attrs0
  end.

(** [Layer.to_json] adds the class name. *)
Definition Layer_to_json {A} (c : Container A) : result (gmap string attr_value) :=
  attrs0 ← to_json c;
  Ok (<["class" := VStr (layer_class c)]> attrs0).


(** *** Parameters: [add_param], [num_params], [get_params_vars] *)

(** The HDF file handed to [save] and [load]: one group per layer, with
    its attributes and its datasets in the order iteration yields them. *)
Record Group (A : Type) : Type := mk_group {
  g_attrs : gmap string attr_value;
  g_datasets : list (string * ndarray A)
}.
Arguments mk_group {A} g_attrs g_datasets.
Arguments g_attrs {A} _.
Arguments g_datasets {A} _.

Definition dataset_names {A} (g : Group A) : list string := fst <$> g_datasets g.

(** [sorted(d.items())] for a dictionary with string keys. *)
Fixpoint insert_sorted {V} (kv : string * V) (l : list (string * V)) : list (string * V) :=
  match l with
  | [] => [kv]
  | kv' :: l' =>
      if String.leb (fst kv) (fst kv') then kv :: l
      else kv' :: insert_sorted kv l'
  end.

Definition sorted_items {V} (m : gmap string V) : list (string * V) :=
  foldr insert_sorted [] (map_to_list m).

Section ContainerMethods.
Context {A : Type} `{FloatX A}.

(** [NetworkLayer.get_layer_class(name, raise_exception=False)]: the
    class registered under a name, if any.  The module is not part of
    the two files; only identity of the classes matters. *)
Variable get_layer_class : string -> option string.

(** [eval(self.substitute_param_expr, {"self": .., "name": .., "value": ..})],
    read as a pure function of the three bindings. *)
Variable eval_substitute_param_expr :
  string -> Container A -> string -> SharedVariable A -> option (SharedVariable A).

(** [json.dumps(v, sort_keys=True)] *)
Variable json_dumps : attr_value -> string.

Definition num_params (c : Container A) : nat :=
  sum_list ((fun kv => foldr Nat.mul 1%nat (shape (get_value (snd kv))))
              <$> map_to_list (params c)).

Definition get_params_dict (c : Container A) : gmap string (ndarray A) :=
  get_value <$> params c.

Definition get_params_vars (c : Container A) : list (SharedVariable A) :=
  snd <$> sorted_items (params c).

(** The name under which [add_param] files a parameter. *)
Definition param_name (c : Container A) (param : SharedVariable A)
    (name0 : string) : string :=
  if negb (String.eqb name0 EmptyString) then name0
  else match sv_name param with
       | Some n =>
           if negb (String.eqb n EmptyString) then n
           else "param_" ++ format_int (N.of_nat (size (params c)))
       | None => "param_" ++ format_int (N.of_nat (size (params c)))
       end.

(** [self.network.get_layer_param(layer_name=.., param_name=.., param=..)],
    when there is a network and it has the hook. *)
Definition network_substitute (c : Container A) (nm : string)
    (param : SharedVariable A) : option (SharedVariable A) :=
  match network c with
  | Some nw =>
      match get_layer_param nw with
      | Some hook => hook (name c) nm param
      | None => None
      end
  | None => None
  end.

Definition expr_substitute (c : Container A) (nm : string)
    (param : SharedVariable A) : option (SharedVariable A) :=
  match substitute_param_expr c with
  | Some e => eval_substitute_param_expr e c nm param
  | None => None
  end.

Definition add_param (c : Container A) (param : SharedVariable A)
    (name0 : string) : SharedVariable A * Container A :=
  let nm := param_name c param name0 in
  match network_substitute c nm param with
  | Some substitute => (substitute, c)
  | None =>
      match expr_substitute c nm param with
      | Some substitute => (substitute, c)
      | None => (param, with_params c (<[nm := param]> (params c)))
      end
  end.

(** *** [Container.save] *)

Definition is_composite (v : attr_value) : bool :=
  match v with
  | VList _ | VDict _ => true
  | _ => false
  end.

(** Values that an HDF attribute cannot hold raise [TypeError]. *)
Definition is_storable (v : attr_value) : bool :=
  match v with
  | VNone => false
  | _ => true
  end.

(** The class name is written first, so an attribute named 'class'
    replaces it.  Every dataset is created with dtype 'f', so the values
    are stored in single precision. *)
Definition save (c : Container A) (head : gmap string (Group A))
  : result (gmap string (Group A)) * list log_line :=
  match head !! name c with
  | Some _ => (Raise (ValueError "unable to create group (name already exists)"), [])
  | None =>
      let dsets := (fun kv => (fst kv, astype_float32 (get_value (snd kv))))
                     <$> map_to_list (params c) in
      let encoded :=
        (fun v => if is_composite v then VStr (json_dumps v) else v) <$> attrs c in
      let storable := filter (fun kv => Is_true (is_storable (snd kv))) encoded in
      let warnings :=
        (fun kv => mk_log 3 ("warning: invalid type of attribute " ++ fst kv
                               ++ " in layer " ++ name c))
          <$> map_to_list (filter (fun kv => ¬ Is_true (is_storable (snd kv))) encoded) in
      (Ok (<[name c := mk_group (storable ∪ {["class" := VStr (layer_class c)]}) dsets]> head),
       warnings)
  end.

(** *** [Container.load] *)

Definition shape_eqb (s1 s2 : list nat) : bool := bool_decide (s1 = s2).

Definition has_inf_or_nan (a : ndarray A) : bool :=
  existsb isinf (data a) || existsb isnan (data a).

(** The check of the stored class name against the layer's own. *)
Definition check_layer_class (c : Container A) (g : Group A)
  : result (list log_line) :=
  match g_attrs g !! "class" with
  | Some (VStr stored) =>
      let grp_class :=
        if String.eqb stored "<unknown_softmax>" then "softmax" else stored in
      if negb (String.eqb grp_class (layer_class c)) then
        match get_layer_class (layer_class c) with
        | None => Raise (LookupFailure "unknown layer class")
        | Some own =>
            if bool_decide (get_layer_class grp_class = Some own) then Ok []
            else Ok [mk_log 3 ("warning: invalid layer class (expected "
                                 ++ layer_class c ++ " got " ++ stored ++ ")")]
        end
      else Ok []
  | Some _ => Raise (TypeError "class attribute is not a string")
  | None => Raise (KeyError "class")
  end.

(** [for p in self.params: if p not in grp: print ...] *)
Definition missing_warnings (c : Container A) (g : Group A) : list log_line :=
  (fun kv => mk_log 4 ("unable to load parameter " ++ fst kv ++ " in " ++ name c))
    <$> filter (fun kv => fst kv ∉ dataset_names g) (map_to_list (params c)).

(** [for p in grp: ...]: parameters are assigned one by one; a failed
    assertion leaves the assignments already made in place. *)
Fixpoint load_datasets (layer_name : string) (ds : list (string * ndarray A))
    (ps : gmap string (SharedVariable A)) (log : list log_line)
  : result unit * gmap string (SharedVariable A) * list log_line :=
  match ds with
  | [] => (Ok tt, ps, log)
  | (p, array) :: ds' =>
      match ps !! p with
      | Some v =>
          if shape_eqb (shape (get_value v)) (shape array) then
            if has_inf_or_nan array then
              (Raise (AssertionError EmptyString), ps, log)
            else load_datasets layer_name ds' (<[p := set_value v array]> ps) log
          else
            (Raise (AssertionError ("invalid layer parameter shape for parameter "
                                      ++ p ++ " of layer " ++ layer_name)), ps, log)
      | None =>
          load_datasets layer_name ds' ps
            (log ++ [mk_log 4 ("unable to match parameter " ++ p ++ " in " ++ layer_name)])%list
      end
  end.

Definition load (c : Container A) (head : gmap string (Group A))
  : result unit * Container A * list log_line :=
  match head !! name c with
  | None =>
      (Ok tt, c, [mk_log 3 ("warning: unable to load parameters for layer " ++ name c)])
  | Some grp =>
      match check_layer_class c grp with
      | Raise e => (Raise e, c, [])
      | Ok class_log =>
          let log := (class_log ++ missing_warnings c grp)%list in
          let '(r, ps, log') := load_datasets (name c) (g_datasets grp) (params c) log in
          (r, with_params c ps, log')
      end
  end.

End ContainerMethods.

(** ** Random numbers

    [numpy.random.RandomState] and Theano's [MRG_RandomStreams] are read
    as streams of variates of the unit interval with a cursor. *)

Record RandomState : Type := mk_rng {
  rs_samples : nat -> R;
  rs_pos : nat
}.

Definition unit_interval (rng : RandomState) : Prop :=
  forall k : nat, (0 <= rs_samples rng k < 1)%R.

Definition shape_size (size : list nat) : nat := foldr Nat.mul 1%nat size.

(** [rng.random_sample(size)] *)
Definition random_sample (rng : RandomState) (size : list nat)
  : list R * RandomState :=
  let k := shape_size size in
  (rs_samples rng <$> seq (rs_pos rng) k,
   {| rs_samples := rs_samples rng; rs_pos := (rs_pos rng + k)%nat |}).

(** [rng.uniform(low, high, size)] is [low + (high - low) * random_sample()]. *)
Definition rng_uniform (rng : RandomState) (low high : R) (size : list nat)
  : ndarray R * RandomState :=
  let (us, rng') := random_sample rng size in
  (mk_ndarray size ((fun u => low + (high - low) * u)%R <$> us), rng').

(** [rng.randint(high)] *)
Definition rng_randint (rng : RandomState) (high : Z) : Z * RandomState :=
  let (us, rng') := random_sample rng [] in
  (Int_part (IZR high * hd 0%R us), rng').

(** [srng.binomial(n, p, size)] of [theano.sandbox.rng_mrg]: for [n = 1]
    the comparison [uniform(size) < p] cast to a number; other [n] are
    refused there. *)
Definition srng_binomial (srng : RandomState) (n : nat) (p : R) (size : list nat)
  : result (ndarray R * RandomState) :=
  if (n =? 1)%nat then
    let (us, srng') := random_sample srng size in
    Ok (mk_ndarray size ((fun u => if Rlt_dec u p then 1%R else 0%R) <$> us), srng')
  else Raise (ValueError "MRG_RandomStreams.binomial with n > 1").

(** ** Python numbers *)

(** Truth value of an optional number: [None] and zero are false. *)
Definition truthy_num (o : option R) : bool :=
  match o with
  | Some r => if Req_dec_T r 0 then false else true
  | None => false
  end.

(** [math.sqrt] *)
Definition py_sqrt (x : R) : result R :=
  if Rlt_dec x 0 then Raise (ValueError "math domain error") else Ok (sqrt x).

(** Division of Python floats. *)
Definition py_div (x y : R) : result R :=
  if Req_dec_T y 0 then Raise ZeroDivisionError else Ok (x / y)%R.

(** ** Weight initialisation: [Container.create_random_uniform_weights] *)

Definition shared {A} (value : ndarray A) (nm : string) : SharedVariable A :=
  mk_shared (Some nm) value.

Definition create_random_uniform_weights (c : Container R) (rng : RandomState)
    (n m : nat) (p p_add l : option R) (name0 : option string)
    (depth0 : option nat)
  : result (SharedVariable R * RandomState) :=
  let depth1 :=
    match depth0 with
    | Some (S d) => S d
    | _ => depth c
    end in
  let nm := match name0 with
            | Some nm => nm
            | None => "W_" ++ name c
            end in
  if truthy_num p && truthy_num l then Raise (AssertionError EmptyString)
  else
    let p1 := if truthy_num p then default 0%R p else INR (n + m) in
    let p2 := if truthy_num p_add then (p1 + default 0 p_add)%R else p1 in
    l1 ← (if truthy_num l then Ok (default 0%R l)
           else (s6 ← py_sqrt 6; sp ← py_sqrt p2; py_div s6 sp));
    let size := if (1 <? depth1)%nat then [n; depth1; m] else [n; m] in
    let (values, rng') := rng_uniform rng (- l1) l1 size in
    Ok (shared values nm, rng').

(** ** Dropout masks: the end of [Layer.__init__] *)

Section LayerMasks.

(** [MRG_RandomStreams(seed)]: the stream of the given seed. *)
Variable MRG_RandomStreams : Z -> RandomState.

(** One mask per source, each a fresh draw of the same stream. *)
Fixpoint draw_masks (srng : RandomState) (p : R) (sizes : list (list nat))
  : result (list (option (ndarray R)) * RandomState) :=
  match sizes with
  | [] => Ok ([], srng)
  | size :: sizes' =>
      '(mk, srng') ← srng_binomial srng 1 p size;
      '(mks, srng'') ← draw_masks srng' p sizes';
      Ok (Some mk :: mks, srng'')
  end.

(** From [self.mass = T.constant(1., ...)] to the end of [__init__]:
    the rescale factor [mass] and the list [masks], given the layer's
    depth, the [mask] and [dropout] arguments and the sources' widths. *)
Definition Layer_init_masks (layer_depth : nat) (mask0 : option string)
    (dropout : R) (sources_n_out : list nat) (rng : RandomState)
  : result (R * list (option (ndarray R)) * RandomState) :=
  let mask := default "none" mask0 in
  if negb (bool_decide (mask ∈ ["dropout"; "unity"; "none"])) then
    Raise (AssertionError ("invalid mask: " ++ mask))
  else if String.eqb mask "dropout"
          || (String.eqb mask "none" && (if Rlt_dec 0 dropout then true else false)) then
    if (if Rlt_dec 0 dropout then true else false)
       && (if Rlt_dec dropout 1 then true else false) then
      let mass := (1 / (1 - dropout))%R in
      let (seed, rng') := rng_randint rng 1234 in
      let srng := MRG_RandomStreams (seed + 1) in
      let sizes :=
        (fun n_out => if (1 <? layer_depth)%nat then [n_out; layer_depth] else [n_out])
          <$> sources_n_out in
      '(masks, _) ← draw_masks srng (1 - dropout) sizes;
      Ok (mass, masks, rng')
    else Raise (AssertionError EmptyString)
  else Ok (1%R, replicate (length sources_n_out) None, rng).

End LayerMasks.

(** ** Tensors of the Theano graph

    A tensor is a scalar or a list of sub-tensors along its leading axis;
    arithmetic is over the reals.  Shapes are not checked: where Theano
    would refuse operands of different shapes the operations below
    truncate, and a reduction over an empty axis yields the scalar unit. *)

Inductive tensor : Type :=
| Sc (x : R)
| Nd (ts : list tensor).

Fixpoint tmap (f : R -> R) (t : tensor) : tensor :=
  match t with
  | Sc x => Sc (f x)
  | Nd ts => Nd (tmap f <$> ts)
  end.

Fixpoint rank (t : tensor) : nat :=
  match t with
  | Sc _ => 0
  | Nd [] => 1
  | Nd (t' :: _) => S (rank t')
  end.

(** Elementwise combination of tensors of one rank; an axis of length one
    is broadcast, as is a scalar. *)
Fixpoint zip_same (f : R -> R -> R) (a b : tensor) {struct a} : tensor :=
  match a, b with
  | Sc x, Sc y => Sc (f x y)
  | Sc x, Nd _ => tmap (f x) b
  | Nd _, Sc y => tmap (fun x => f x y) a
  | Nd [a1], Nd ((_ :: _ :: _) as bs) => Nd ((fun b' => zip_same f a1 b') <$> bs)
  | Nd ((_ :: _ :: _) as as_), Nd [b1] => Nd ((fun a' => zip_same f a' b1) <$> as_)
  | Nd as_, Nd bs => Nd (zip_with (zip_same f) as_ bs)
  end.

(** The operand of lower rank is repeated along the leading axes of the
    other. *)
Fixpoint bcast_left (f : R -> R -> R) (k : nat) (a b : tensor) : tensor :=
  match k, b with
  | S k', Nd bs => Nd (bcast_left f k' a <$> bs)
  | _, _ => zip_same f a b
  end.

Fixpoint bcast_right (f : R -> R -> R) (k : nat) (a b : tensor) : tensor :=
  match k, a with
  | S k', Nd as_ => Nd ((fun a' => bcast_right f k' a' b) <$> as_)
  | _, _ => zip_same f a b
  end.

Definition tzip (f : R -> R -> R) (a b : tensor) : tensor :=
  if (rank a <=? rank b)%nat then bcast_left f (rank b - rank a) a b
  else bcast_right f (rank a - rank b) a b.

Definition tadd : tensor -> tensor -> tensor := tzip Rplus.
Definition tsub : tensor -> tensor -> tensor := tzip Rminus.
Definition tmul : tensor -> tensor -> tensor := tzip Rmult.
Definition tdiv : tensor -> tensor -> tensor := tzip Rdiv.
Definition tscale (r : R) : tensor -> tensor := tmap (Rmult r).
Definition tsqr : tensor -> tensor := tmap (fun x => x * x)%R.
Definition tsqrt : tensor -> tensor := tmap sqrt.

(** Entries in row-major order. *)
Fixpoint leaves (t : tensor) : list R :=
  match t with
  | Sc x => [x]
  | Nd ts => concat (leaves <$> ts)
  end.

Definition scalars (ts : list tensor) : option (list R) :=
  mapM (fun t => match t with Sc x => Some x | Nd _ => None end) ts.

(** Combination of the slices along one axis. *)
Definition reduce_list (f : R -> R -> R) (unit : R) (ts : list tensor) : tensor :=
  match ts with
  | [] => Sc unit
  | t :: ts' => foldl (tzip f) t ts'
  end.

Definition sum_list_t : list tensor -> tensor := reduce_list Rplus 0.

Definition mean_list_t (ts : list tensor) : tensor :=
  tmap (fun s => s / INR (length ts))%R (sum_list_t ts).

Definition var_list_t (ts : list tensor) : tensor :=
  mean_list_t ((fun t => tsqr (tsub t (mean_list_t ts))) <$> ts).

(** [g] applied to the slices along [axis]. *)
Fixpoint along_axis (g : list tensor -> tensor) (axis : nat) (t : tensor) : tensor :=
  match axis, t with
  | 0%nat, Nd ts => g ts
  | S k, Nd ts => Nd (along_axis g k <$> ts)
  | _, Sc x => Sc x
  end.

Definition T_sum (axis : nat) : tensor -> tensor := along_axis sum_list_t axis.
Definition T_mean (axis : nat) : tensor -> tensor := along_axis mean_list_t axis.
Definition T_var (axis : nat) : tensor -> tensor := along_axis var_list_t axis.
Definition T_max (axis : nat) : tensor -> tensor := along_axis (reduce_list Rmax 0) axis.
Definition T_min (axis : nat) : tensor -> tensor := along_axis (reduce_list Rmin 0) axis.
Definition T_prod (axis : nat) : tensor -> tensor := along_axis (reduce_list Rmult 1) axis.

(** The same with [keepdims=True]. *)
Definition keepdims (g : list tensor -> tensor) (ts : list tensor) : tensor := Nd [g ts].

(** [t.flatten(ndim)]: the first [ndim - 1] axes are kept. *)
Fixpoint flatten (ndim : nat) (t : tensor) : tensor :=
  match ndim with
  | 0%nat => t
  | 1%nat => Nd (Sc <$> leaves t)
  | S k =>
      match t with
      | Nd ts => Nd (flatten k <$> ts)
      | Sc _ => t
      end
  end.

(** [T.dot(a, b)] for a matrix [b]: the last axis of [a] is contracted
    with the rows of [b]. *)
Definition dot_row (xs : list R) (rows : list tensor) : tensor :=
  sum_list_t (zip_with (fun x row => tmap (Rmult x) row) xs rows).

Fixpoint T_dot (a b : tensor) : tensor :=
  match a with
  | Sc x => tmap (Rmult x) b
  | Nd ts =>
      match scalars ts, b with
      | Some xs, Nd rows => dot_row xs rows
      | _, _ => Nd ((fun t => T_dot t b) <$> ts)
      end
  end.

(** Index of the first maximum. *)
Fixpoint argmax_from (best : R) (best_i i : nat) (xs : list R) : nat :=
  match xs with
  | [] => best_i
  | x :: xs' =>
      if Rlt_dec best x then argmax_from x i (S i) xs'
      else argmax_from best best_i (S i) xs'
  end.

Definition argmax (xs : list R) : nat :=
  match xs with
  | [] => 0%nat
  | x :: xs' => argmax_from x 0 1 xs'
  end.

(** [T.argmax(t, axis=-1, keepdims=True)] *)
Fixpoint T_argmax_last (t : tensor) : tensor :=
  match t with
  | Sc _ => Sc 0
  | Nd ts =>
      match scalars ts with
      | Some xs => Nd [Sc (INR (argmax xs))]
      | None => Nd (T_argmax_last <$> ts)
      end
  end.

(** [t[:, .., idx]] with a one-element index array along [axis]. *)
Fixpoint take_axis (axis idx : nat) (t : tensor) : result tensor :=
  match t with
  | Sc _ => Raise (IndexError "too many indices")
  | Nd ts =>
      match axis with
      | 0%nat =>
          match ts !! idx with
          | Some t' => Ok (Nd [t'])
          | None => Raise (IndexError "index out of bounds")
          end
      | S k => ts' ← mapM (take_axis k idx) ts; Ok (Nd ts')
      end
  end.

(** The value of a shared variable as a tensor. *)
Fixpoint chunks {A} (k n : nat) (l : list A) : list (list A) :=
  match n with
  | 0%nat => []
  | S n' => take k l :: chunks k n' (drop k l)
  end.

Fixpoint tensor_of (sh : list nat) (d : list R) : tensor :=
  match sh with
  | [] => Sc (hd 0%R d)
  | n :: sh' => Nd (tensor_of sh' <$> chunks (shape_size sh') n d)
  end.

Definition as_tensor (v : SharedVariable R) : tensor :=
  tensor_of (shape (get_value v)) (data (get_value v)).

(** ** Reading attributes *)

Definition attr {A} (c : Container A) (k : string) : result attr_value :=
  match attrs c !! k with
  | Some v => Ok v
  | None => Raise (KeyError k)
  end.

(** Python's truth value. *)
Definition truthy (v : attr_value) : bool :=
  match v with
  | VNone => false
  | VBool b | VNumpyBool b => b
  | VInt z => negb (z =? 0)%Z
  | VFloat r => if Req_dec_T r 0 then false else true
  | VStr s => negb (String.eqb s EmptyString)
  | VList l => match l with [] => false | _ :: _ => true end
  | VDict d => match d with [] => false | _ :: _ => true end
  end.

(** An attribute read as a number; for other values the comparisons and
    conversions of the code fail sooner or later, here at once. *)
Definition number (v : attr_value) : result R :=
  match v with
  | VInt z => Ok (IZR z)
  | VFloat r => Ok r
  | VBool b | VNumpyBool b => Ok (if b then 1%R else 0%R)
  | _ => Raise (TypeError "not a number")
  end.

(** An attribute used as a dimension. *)
Definition dimension (v : attr_value) : result nat :=
  match v with
  | VInt z => if (z <? 0)%Z then Raise (ValueError "negative dimensions are not allowed")
              else Ok (Z.to_nat z)
  | _ => Raise (TypeError "an integer is required")
  end.

(** [n == v] for an integer [n]: values that are not numbers are unequal
    to it. *)
Definition py_eq_int (n : nat) (v : attr_value) : bool :=
  match v with
  | VInt z => (Z.of_nat n =? z)%Z
  | VFloat r => if Req_dec_T (INR n) r then true else false
  | VBool b | VNumpyBool b => (n =? (if b then 1 else 0))%nat
  | _ => false
  end.

Definition is_str (v : attr_value) (s : string) : bool :=
  match v with
  | VStr s' => String.eqb s' s
  | _ => false
  end.

(** ** The layer: [NetworkBaseLayer.Layer] *)

Section LayerMethods.

(** The type of source layers and [NetworkHiddenLayer.concat_sources],
    which returns the concatenated source outputs and their total width. *)
Variable Source : Type.
Variable concat_sources : list Source -> tensor * nat.

(** [Container.create_forward_weights], whose initialiser is an evaluated
    Python expression. *)
Variable create_forward_weights :
  Container R -> RandomState -> nat -> nat -> string
  -> result (SharedVariable R * RandomState).

(** [T.tensordot(a, b, [[i], [j]])] *)
Variable T_tensordot : tensor -> tensor -> nat -> nat -> result tensor.

Variable eval_substitute_param_expr :
  string -> Container R -> string -> SharedVariable R -> option (SharedVariable R).

Variable MRG_RandomStreams : Z -> RandomState.

(** [rng.random_integers(size=(1,), low=0, high=high)]: both ends included. *)
Definition rng_random_integers (rng : RandomState) (high : nat) : nat * RandomState :=
  let (us, rng') := random_sample rng [1%nat] in
  (Z.to_nat (Int_part (INR (S high) * hd 0%R us)), rng').

(** *** [Layer.make_consensus]

    Parameters are registered through [add_param]; the regularisation
    terms that [Layer.add_param] adds to [constraints] are not tracked. *)
Definition make_consensus (c : Container R) (rng : RandomState)
    (networks : tensor) (axis : nat)
  : result (tensor * Container R * RandomState) :=
  v ← attr c "consensus";
  match v with
  | VStr cns =>
      if String.eqb cns "max" then Ok (T_max axis networks, c, rng)
      else if String.eqb cns "min" then Ok (T_min axis networks, c, rng)
      else if String.eqb cns "mean" then Ok (T_mean axis networks, c, rng)
      else if String.eqb cns "flat" then
        if (depth c =? 1)%nat then Ok (networks, c, rng)
        else if (axis =? 2)%nat then Ok (flatten 3 networks, c, rng)
        else Ok (flatten 2 networks, c, rng)
      else if String.eqb cns "sum" then Ok (T_sum axis networks, c, rng)
      else if String.eqb cns "prod" then Ok (T_prod axis networks, c, rng)
      else if String.eqb cns "var" then Ok (T_var axis networks, c, rng)
      else if String.eqb cns "project" then
        n_out_v ← attr c "n_out";
        n_out ← dimension n_out_v;
        '(w, rng') ← create_random_uniform_weights c rng n_out 1
                       (Some (INR (n_out + depth c + 1))) None None None None;
        let (p, c') := add_param eval_substitute_param_expr c w EmptyString in
        r ← T_tensordot (as_tensor p) networks 1 axis;
        Ok (r, c', rng')
      else if String.eqb cns "random" then
        let (idx, rng') := rng_random_integers rng (depth c) in
        if (axis <=? 3)%nat then
          r ← take_axis axis idx networks; Ok (r, c, rng')
        else Raise (AssertionError "axis too large")
      else Raise (AssertionError ("consensus method unknown: " ++ cns))
  | _ => Raise (AssertionError "consensus method unknown")
  end.

(** *** [Layer.batch_norm] *)

Definition epsilon_bn : R := (1 / 10 ^ 10)%R.

Definition batch_norm (c : Container R) (h : tensor) (h_name : string) (dim : nat)
  : tensor * Container R :=
  let centred := tsub h (along_axis (keepdims mean_list_t) 1 h) in
  let std := tsqrt (along_axis (keepdims var_list_t) 1 h) in
  let bn := tdiv centred (tmap (fun x => x + epsilon_bn)%R std) in
  let (gamma, c1) :=
    add_param eval_substitute_param_expr c
      (shared (mk_ndarray [dim] (replicate dim (0 + 1 / 10)%R)) (h_name ++ "_gamma"))
      EmptyString in
  let bn1 := tmul bn (as_tensor gamma) in
  let (beta, c2) :=
    add_param eval_substitute_param_expr c1
      (shared (mk_ndarray [dim] (replicate dim 0%R)) (h_name ++ "_beta"))
      EmptyString in
  (tadd bn1 (as_tensor beta), c2).

(** *** [Layer.make_output], stage by stage *)

(** [if collapse and self.depth > 1: ...]: the collapsed output, which
    is a new, unnamed variable of the graph. *)
Definition consensus_stage (c : Container R) (rng : RandomState)
    (output : tensor) (output_name : string) (collapse : bool)
  : result (tensor * Container R * RandomState * string) :=
  if collapse && (1 <? depth c)%nat then
    '(o, c', rng') ← make_consensus c rng output 2;
    cns ← attr c' "consensus";
    c'' ← (if is_str cns "flat" then
             n_out_v ← attr c' "n_out";
             match n_out_v with
             | VInt z => Ok (set_attr c' "n_out" (VInt (z * Z.of_nat (depth c'))))
             | VFloat r => Ok (set_attr c' "n_out" (VFloat (r * INR (depth c'))))
             | _ => Raise (TypeError "unsupported operand for *=")
             end
           else Ok c');
    Ok (o, c'', rng', "None")
  else Ok (output, c, rng, output_name).

(** [if self.attrs['batch_norm']: ...] *)
Definition batch_norm_stage (c : Container R) (h : tensor) (h_name : string)
  : result (tensor * Container R) :=
  bn ← attr c "batch_norm";
  if truthy bn then
    n_out_v ← attr c "n_out";
    dim ← dimension n_out_v;
    Ok (batch_norm c h h_name dim)
  else Ok (h, c).

(** [if self.attrs['residual']: ...] *)
Definition residual_stage (c : Container R) (sources : list Source)
    (output : tensor) : result tensor :=
  res ← attr c "residual";
  if truthy res then
    let (z, n_in) := concat_sources sources in
    n_out_v ← attr c "n_out";
    if py_eq_int n_in n_out_v then Ok (tadd output z)
    else Raise (AssertionError EmptyString)
  else Ok output.

(** Consensus over the depth axis, batch normalisation and the residual
    connection: [self.output] as the layer-drop stage finds it. *)
Definition output_before_layer_drop (c : Container R) (rng : RandomState)
    (sources : list Source) (output : tensor) (output_name : string)
    (collapse : bool)
  : result (tensor * Container R * RandomState) :=
  '(out1, c1, rng1, name1) ← consensus_stage c rng output output_name collapse;
  '(out2, c2) ← batch_norm_stage c1 out1 name1;
  out3 ← residual_stage c2 sources out2;
  Ok (out3, c2, rng1).

(** The skip path of layer-drop: the concatenated sources, projected by a
    fresh [W_drop] when their width differs from [n_out], or zero when
    there is nothing to project. *)
Definition layer_drop_source (c : Container R) (rng : RandomState)
    (sources : list Source)
  : result (tensor * Container R * RandomState * list log_line) :=
  let (z, n_in) := concat_sources sources in
  n_out_v ← attr c "n_out";
  if py_eq_int n_in n_out_v then Ok (z, c, rng, [])
  else
    let log := [mk_log 4 "Layer drop with additional projection"] in
    if (0 <? n_in)%nat then
      n_out_dim ← dimension n_out_v;
      '(w, rng') ← create_forward_weights c rng n_in n_out_dim ("W_drop_" ++ name c);
      let (W_drop, c') := add_param eval_substitute_param_expr c w EmptyString in
      Ok (T_dot z (as_tensor W_drop), c', rng', log)
    else Ok (Sc 0, c, rng, log).

(** The blend of the skip path [z] and the computed [output].  In
    training [theano.ifelse.ifelse] chooses between the two and wants
    both of one type, read here as one rank: the number 0 that stands
    for sources of no width is not a tensor of the output's rank. *)
Definition layer_drop_blend (c : Container R) (rng : RandomState)
    (drop : R) (z output : tensor) : result (tensor * RandomState) :=
  if train_flag c then
    let (seed, rng') := rng_randint rng 1234 in
    let srng := MRG_RandomStreams (seed + 1) in
    '(draw, _) ← srng_binomial srng 1 drop [1%nat];
    if (rank z =? rank output)%nat then
      if Req_dec_T (hd 0%R (data draw)) 0 then Ok (output, rng')
      else Ok (z, rng')
    else Raise (TypeError "The two branches should have identical types")
  else Ok (tadd (tscale drop z) (tscale (1 - drop) output), rng).

(** Sparse filtering: rows, then columns, scaled to unit length.  The
    two [dimshuffle]s fit a matrix only. *)
Definition epsilon_sf : R := (1 / 10 ^ 8)%R.

Definition sparse_filtering (output : tensor) : result tensor :=
  if (rank output =? 2)%nat then
    let fs := tsqrt (tmap (fun x => x * x + epsilon_sf)%R output) in
    let l2fs := tsqrt (along_axis (keepdims sum_list_t) 1 (tsqr fs)) in
    let nfs := tdiv fs l2fs in
    let l2fn := tsqrt (along_axis (keepdims sum_list_t) 0 (tsqr nfs)) in
    Ok (tdiv nfs l2fn)
  else Raise (ValueError "dimshuffle: wrong number of dimensions").

(** The two stages after layer-drop. *)
Definition output_after_layer_drop (c : Container R) (output : tensor)
  : result tensor :=
  sp ← attr c "sparse";
  let out5 := if truthy sp then T_argmax_last output else output in
  sf ← attr c "sparse_filtering";
  if truthy sf then sparse_filtering out5 else Ok out5.

Definition make_output (c : Container R) (rng : RandomState)
    (sources : list Source) (output : tensor) (output_name : string)
    (collapse : bool)
  : result (tensor * Container R * RandomState * list log_line) :=
  '(out3, c3, rng3) ← output_before_layer_drop c rng sources output output_name collapse;
  ld ← attr c3 "layer_drop";
  drop ← number ld;
  '(out4, c4, rng4, log) ←
    (if Rlt_dec 0 drop then
       '(z, c', rng', log) ← layer_drop_source c3 rng3 sources;
       '(o, rng'') ← layer_drop_blend c' rng' drop z out3;
       Ok (o, c', rng'', log)
     else Ok (out3, c3, rng3, []));
  out6 ← output_after_layer_drop c4 out4;
  Ok (out6, c4, rng4, log).

End LayerMethods.

Arguments residual_stage {Source}.
Arguments output_before_layer_drop {Source}.
Arguments layer_drop_source {Source}.
Arguments make_output {Source}.

(** ** Recurrent units: [NetworkRecurrentLayer.Unit]

    Inside a step every value is a matrix of shape (batch, feature), kept
    as a list of rows, and the index is a vector over the batch.  Shapes
    are not checked: where Theano refuses operands whose shapes do not
    fit, the operations below cut them to the common part, so what is
    proved of a step bears on arguments of fitting shapes. *)

Abbreviation vector := (list R).
Abbreviation matrix := (list (list R)).

Definition mmap (f : R -> R) (m : matrix) : matrix := fmap (M := list) f <$> m.
Definition mzip (f : R -> R -> R) (a b : matrix) : matrix := zip_with (zip_with f) a b.
Definition madd : matrix -> matrix -> matrix := mzip Rplus.
Definition mmul : matrix -> matrix -> matrix := mzip Rmult.

(** [m.shape[1]]; a matrix without rows is read as having no columns. *)
Definition ncols (m : matrix) : nat := length (hd [] m).

(** [T.dot(a, b)] for matrices. *)
Definition vdot (row : list R) (b : matrix) : list R :=
  foldr (zip_with Rplus) (replicate (ncols b) 0%R)
        (zip_with (fun x r => Rmult x <$> r) row b).

Definition mdot (a b : matrix) : matrix := (fun row => vdot row b) <$> a.

(** [m[:, lo:hi]] *)
Definition slice_cols (lo hi : nat) (m : matrix) : matrix :=
  (fun row => take (hi - lo) (drop lo row)) <$> m.

(** [T.outer(u, v)] *)
Definition outer (u v : vector) : matrix := (fun x => Rmult x <$> v) <$> u.

Definition sigmoid (x : R) : R := (1 / (1 + exp (- x)))%R.

(** The step of a unit as [theano.scan] calls it: the slices of the three
    sequences [i], [xc] and [z], then the previous outputs followed by the
    non-sequences.  A Python call with the wrong number of arguments
    raises [TypeError]. *)
Definition step_fn : Type :=
  vector -> matrix -> matrix -> list matrix -> result (list matrix).

(** *** [VANILLA.step(self, i_t, x_t, z_t, z_p, h_p)] *)
Definition VANILLA_step (i_t : vector) (x_t z_t : matrix) (rest : list matrix)
  : result (list matrix) :=
  match rest with
  | [z_p; h_p] => Ok [mmap tanh (madd z_t z_p)]
  | _ => Raise (TypeError "step() takes exactly 6 arguments")
  end.

(** The attached recurrent transform, as [LSTME.step] uses it: the number
    of its state variables, and its step, from the state variables (in
    sorted order) and [y_p] to the bias [z_r] and the updated state
    variables (in the same order). *)
Record RecurrentTransform : Type := mk_transform {
  n_state_vars : nat;
  transform_step : list matrix -> matrix -> matrix * list matrix
}.

(** *** [LSTME.step(self, i_t, x_t, z_t, y_p, c_p, *other_args)] *)
Definition LSTME_step (recurrent_transform : option RecurrentTransform)
    (n_units : nat) (W_re : matrix)
    (i_t : vector) (x_t z_t : matrix) (rest : list matrix)
  : result (list matrix) :=
  match rest with
  | y_p :: c_p :: other_args =>
      let '(z_t1, other_outputs) :=
        match recurrent_transform with
        | Some rt =>
            let state_vars := take (n_state_vars rt) other_args in
            let (z_r, r_updates) := transform_step rt state_vars y_p in
            (madd z_t z_r, r_updates)
        | None => (z_t, [])
        end in
      let z_t2 := madd z_t1 (mdot y_p W_re) in
      let partition := (ncols z_t2 / 4)%nat in
      let ingate := mmap sigmoid (slice_cols 0 partition z_t2) in
      let forgetgate := mmap sigmoid (slice_cols partition (2 * partition) z_t2) in
      let outgate := mmap sigmoid (slice_cols (2 * partition) (3 * partition) z_t2) in
      let input := mmap tanh (slice_cols (3 * partition) (4 * partition) z_t2) in
      let c_t := madd (mmul forgetgate c_p) (mmul ingate input) in
      let y_t := mmul outgate (mmap tanh c_t) in
      let i_output := outer i_t (replicate n_units 1%R) in
      let i_h := outer i_t (replicate n_units 1%R) in
      Ok (mmul y_t i_output
            :: madd (mmul c_t i_h) (mmul c_p (mmap (fun x => 1 - x)%R i_h))
            :: other_outputs)
  | _ => Raise (TypeError "step() takes at least 6 arguments")
  end.

(** *** [theano.scan] and [Unit.scan] *)

(** One call of the step per time slice; the outputs of a call are the
    state of the next.  The step must return one output per entry of
    [outputs_info].  Theano calls the step once more, on symbolic
    arguments, when it builds the graph, so that a step of the wrong
    arity also raises for sequences without frames; that call is not
    part of the loop. *)
Fixpoint scan_loop (step : step_fn) (slices : list (vector * matrix * matrix))
    (state non_sequences : list matrix) : result (list (list matrix)) :=
  match slices with
  | [] => Ok []
  | (i_t, x_t, z_t) :: slices' =>
      outs ← step i_t x_t z_t (state ++ non_sequences)%list;
      if (length outs =? length state)%nat then
        more ← scan_loop step slices' outs non_sequences;
        Ok (outs :: more)
      else Raise (ValueError "the number of outputs does not match outputs_info")
  end.

(** The [k]-th output of every step, for each [k]. *)
Definition output_sequences (n_outputs : nat) (per_step : list (list matrix))
  : list (list matrix) :=
  (fun k => omap (fun outs => outs !! k) per_step) <$> seq 0 n_outputs.

(** [theano.scan(fn, sequences=[i, xc, z], non_sequences, outputs_info,
    go_backwards)]: for a backward scan each sequence is reversed; the
    sequences are then cut to the shortest; the outputs come in the order
    of the iteration.  [truncate_gradient] bears on the gradient only. *)
Definition theano_scan (step : step_fn) (i : list vector) (xc z : list matrix)
    (non_sequences outputs_info : list matrix) (go_backwards : bool)
  : result (list (list matrix)) :=
  let ordered :=
    if go_backwards then zip (zip (reverse i) (reverse xc)) (reverse z)
    else zip (zip i xc) z in
  per_step ← scan_loop step ordered outputs_info non_sequences;
  Ok (output_sequences (length outputs_info) per_step).

(** [T.concatenate(xs, axis=-1)] of sequences of matrices. *)
Definition concat_last (xs : list (list matrix)) : list matrix :=
  match xs with
  | [] => []
  | x :: xs' => foldl (zip_with (zip_with app)) x xs'
  end.

(** [Unit.scan]: [x] holds the outputs of the source layers. *)
Definition Unit_scan (step : step_fn) (x : list (list matrix)) (z : list matrix)
    (non_sequences : list matrix) (i : list vector) (outputs_info : list matrix)
    (go_backwards : bool) : result (list (list matrix)) :=
  let xc := match x with [] => z | _ :: _ => concat_last x end in
  theano_scan step i xc z non_sequences outputs_info go_backwards.

(** [T.alloc(0, num_batches, n_out)] *)
Definition zeros (rows cols : nat) : matrix := replicate rows (replicate cols 0%R).

(** The call [unit.scan(...)] of [RecurrentUnitLayer.__init__] for a layer
    without encoder and with sampling 1: zero initial states, one per
    [n_act], followed by the initial state variables of the transform, and
    no non-sequences.  For [n_out = 1] Theano types the initial states as
    columns, which the outputs of a step are not, and refuses the scan;
    the types of the graph are not modelled. *)
Definition RecurrentUnitLayer_scan (step : step_fn) (n_act n_out : nat) (x : list (list matrix))
    (z : list matrix) (i : list vector) (transform_initial : list matrix)
    (go_backwards : bool) : result (list (list matrix)) :=
  let num_batches := length (hd [] i) in
  Unit_scan step x z [] i
    (replicate n_act (zeros num_batches n_out) ++ transform_initial)%list
    go_backwards.

(** * Further operations of the two files *)

(** ** [Container.__init__]

    The initialiser expressions [forward_weights_init],
    [recurrent_weights_init] and [bias_init] are kept as attributes only;
    the fields of the same names feed [eval] in [create_bias] and
    [_create_eval_weights].  [cls_layer_class] is the class attribute
    that remains when no [layer_class] is passed. *)

Definition truthy_str (o : option string) : bool :=
  match o with
  | Some s => negb (String.eqb s EmptyString)
  | None => false
  end.

Definition set_attr_if {A} (b : bool) (k : string) (v : attr_value)
    (c : Container A) : Container A :=
  if b then set_attr c k v else c.

Definition Container_init {A} (cls_layer_class : string)
    (layer_class0 : option string) (name0 : string)
    (network0 : option (Network A)) (train_flag0 : bool) (depth0 : nat)
    (consensus : string)
    (forward_weights_init bias_init recurrent_weights_init
       substitute_param_expr0 : option string)
  : Container A :=
  let c0 :=
    {| layer_class := if truthy_str layer_class0
                      then default EmptyString layer_class0
                      else cls_layer_class;
       name := name0; params := ∅; attrs := ∅;
       train_flag := train_flag0; depth := depth0; network := network0;
       substitute_param_expr := substitute_param_expr0 |} in
  let c1 := set_attr_if (negb (depth0 =? 1)%nat) "depth" (VInt (Z.of_nat depth0)) c0 in
  let c2 := set_attr_if (negb (String.eqb consensus "flat")) "consensus" (VStr consensus) c1 in
  let c3 := set_attr_if (truthy_str forward_weights_init) "forward_weights_init"
              (VStr (default EmptyString forward_weights_init)) c2 in
  let c4 := set_attr_if (truthy_str recurrent_weights_init) "recurrent_weights_init"
              (VStr (default EmptyString recurrent_weights_init)) c3 in
  let c5 := set_attr_if (truthy_str bias_init) "bias_init"
              (VStr (default EmptyString bias_init)) c4 in
  set_attr_if (truthy_str substitute_param_expr0) "substitute_param_expr"
    (VStr (default EmptyString substitute_param_expr0)) c5.

(** ** [Container.set_params_by_dict]

    The items of the dictionary are taken one by one; a missing name
    raises [KeyError], a shape that differs fails the assertion, and
    either leaves the assignments already made in place.  The message of
    the assertion is cut to the parameter's name. *)

Fixpoint set_params_loop {A} (items : list (string * ndarray A))
    (ps : gmap string (SharedVariable A))
  : result unit * gmap string (SharedVariable A) :=
  match items with
  | [] => (Ok tt, ps)
  | (p, v) :: items' =>
      match ps !! p with
      | Some sv =>
          if shape_eqb (shape (get_value sv)) (shape v) then
            set_params_loop items' (<[p := set_value sv v]> ps)
          else
            (Raise (AssertionError ("param " ++ p ++ " shape does not match")), ps)
      | None => (Raise (KeyError p), ps)
      end
  end.

Definition set_params_by_dict {A} (c : Container A) (d : gmap string (ndarray A))
  : result unit * Container A :=
  let (r, ps) := set_params_loop (map_to_list d) (params c) in
  (r, with_params c ps).

(** ** The attributes set by [Layer.__init__]

    The constructor up to the creation of the bias: the call of
    [Container.__init__] with the keyword arguments and the attributes
    recorded from the layer's own arguments.  [network_j] holds the keys
    of [self.network.j], if there is a network. *)

Record LayerArgs : Type := mk_layer_args {
  arg_n_out : attr_value;
  arg_target : attr_value;
  arg_target_index : option string;
  arg_sparse : attr_value;
  arg_cost_scale : attr_value;
  arg_L1 : attr_value;
  arg_L2 : attr_value;
  arg_L2_eye : attr_value;
  arg_varreg : attr_value;
  arg_mask : attr_value;
  arg_dropout : attr_value;
  arg_batch_norm : attr_value;
  arg_layer_drop : attr_value;
  arg_residual : attr_value;
  arg_carry : attr_value;
  arg_sparse_filtering : attr_value;
  arg_gradient_scale : attr_value
}.

Definition Layer_init_attrs {A} (base : Container A) (network_j : option (list string))
    (a : LayerArgs) : result (Container A) :=
  let mask := match arg_mask a with VNone => VStr "none" | v => v end in
  let c1 := set_attr base "mask" mask in
  let c2 := set_attr c1 "dropout" (arg_dropout a) in
  let c3 := set_attr c2 "sparse" (arg_sparse a) in
  let c4 := set_attr c3 "sparse_filtering" (arg_sparse_filtering a) in
  let c5 := set_attr c4 "gradient_scale" (arg_gradient_scale a) in
  let c6 := set_attr c5 "layer_drop" (arg_layer_drop a) in
  if truthy (arg_carry a) then Raise (AssertionError "not supported anymore")
  else
    let c7 := set_attr c6 "residual" (arg_residual a) in
    let c8 := set_attr c7 "n_out" (arg_n_out a) in
    let c9 := set_attr c8 "L1" (arg_L1 a) in
    let c10 := set_attr c9 "L2" (arg_L2 a) in
    let c11 := set_attr_if (truthy (arg_L2_eye a)) "L2_eye" (arg_L2_eye a) c10 in
    let c12 := set_attr c11 "varreg" (arg_varreg a) in
    let c13 := set_attr c12 "batch_norm" (arg_batch_norm a) in
    let c14 := set_attr_if (truthy (arg_target a)) "target" (arg_target a) c13 in
    c15 ← (if truthy_str (arg_target_index a) then
             let ti := default EmptyString (arg_target_index a) in
             let c' := set_attr c14 "target_index" (VStr ti) in
             match network_j with
             | Some keys =>
                 if bool_decide (ti ∈ keys) then Ok c'
                 else Raise (AssertionError EmptyString)
             | None => Raise (AttributeError "'NoneType' object has no attribute 'j'")
             end
           else Ok c14);
    Ok (set_attr_if (negb (py_eq_int 1 (arg_cost_scale a))) "cost_scale"
          (arg_cost_scale a) c15).

(** ** The other uniform initialisers *)

(** [Container.create_random_uniform_weights1]: neither [p_add] nor a
    depth. *)
Definition create_random_uniform_weights1 (c : Container R) (rng : RandomState)
    (n m : nat) (p l : option R) (name0 : option string)
  : result (SharedVariable R * RandomState) :=
  let nm := match name0 with
            | Some nm => nm
            | None => "W_" ++ name c
            end in
  if truthy_num p && truthy_num l then Raise (AssertionError EmptyString)
  else
    let p1 := if truthy_num p then default 0%R p else INR (n + m) in
    l1 ← (if truthy_num l then Ok (default 0%R l)
           else (s6 ← py_sqrt 6; sp ← py_sqrt p1; py_div s6 sp));
    let (values, rng') := rng_uniform rng (- l1) l1 [n; m] in
    Ok (shared values nm, rng').

(** [Container.create_random_uniform_weights2]: a vector of [n] entries,
    or a matrix when [m] is given and not zero. *)
Definition create_random_uniform_weights2 (c : Container R) (rng : RandomState)
    (n : nat) (m : option nat) (name0 : option string)
  : result (SharedVariable R * RandomState) :=
  let nm := match name0 with
            | Some nm => nm
            | None => "W_" ++ name c
            end in
  q ← py_div 1 (INR n);
  l ← py_sqrt q;
  let size := match m with
              | Some (S k) => [n; S k]
              | _ => [n]
              end in
  let (values, rng') := rng_uniform rng (- l) l size in
  Ok (shared values nm, rng').

(** ** [Container.create_random_unitary_tiled_weights]

    [make_tile] draws a square normal matrix and takes the factor [u] of
    its singular value decomposition; the two library calls are read as
    one function of the generator and the size. *)

(** [x.shape == (r, k)] for a matrix with at least one row. *)
Definition has_shape (r k : nat) (x : matrix) : bool :=
  (length x =? r)%nat && forallb (fun row => (length row =? k)%nat) x.

(** [numpy.concatenate(tiles, axis=1)] *)
Definition concatenate_axis1 (tiles : list matrix) : result matrix :=
  match tiles with
  | [] => Raise (ValueError "need at least one array to concatenate")
  | t :: tiles' =>
      if forallb (fun t' => (length t' =? length t)%nat) tiles' then
        Ok (foldl (zip_with app) t tiles')
      else Raise (ValueError "all the input array dimensions except for the concatenation axis must match exactly")
  end.

(** [x.T] for a matrix of [k] columns. *)
Definition transpose (k : nat) (x : matrix) : matrix :=
  (fun j => (fun row => nth j row 0%R) <$> x) <$> seq 0 k.

Definition ndarray_of_matrix (r k : nat) (x : matrix) : ndarray R :=
  mk_ndarray [r; k] (concat x).

Section UnitaryTiles.

(** [u] of [numpy.linalg.svd(self.rng.randn(n, n))] *)
Variable svd_u_of_randn : RandomState -> nat -> matrix * RandomState.

Definition make_tile (rng : RandomState) (n : nat) : result (matrix * RandomState) :=
  let (u, rng') := svd_u_of_randn rng n in
  if has_shape n n u then Ok (u, rng') else Raise (AssertionError EmptyString).

(** [[make_tile() for i in range(fac)]] *)
Fixpoint make_tiles (rng : RandomState) (n fac : nat)
  : result (list matrix * RandomState) :=
  match fac with
  | O => Ok ([], rng)
  | S fac' =>
      '(t, rng') ← make_tile rng n;
      '(ts, rng'') ← make_tiles rng' n fac';
      Ok (t :: ts, rng'')
  end.

(** The variable is created under the name passed in, [None] included. *)
Definition create_random_unitary_tiled_weights (rng : RandomState) (n m : nat)
    (name0 : option string) : result (SharedVariable R * RandomState) :=
  let transposed := (m <? n)%nat in
  let n1 := if transposed then m else n in
  let m1 := if transposed then n else m in
  if (n1 =? 0)%nat then Raise ZeroDivisionError
  else
    let fac := ((m1 - 1) / n1 + 1)%nat in
    '(tiles, rng') ← make_tiles rng n1 fac;
    x ← concatenate_axis1 tiles;
    if has_shape n1 (fac * n1) x then
      let x1 := take m1 <$> x in
      if has_shape n1 m1 x1 then
        let value := if transposed then ndarray_of_matrix m1 n1 (transpose m1 x1)
                     else ndarray_of_matrix n1 m1 x1 in
        Ok (mk_shared name0 value, rng')
      else Raise (AssertionError EmptyString)
    else Raise (AssertionError EmptyString).

End UnitaryTiles.

(** ** The other units and layers of [NetworkRecurrentLayer] *)

(** *** [SRU.step(self, i_t, x_t, z_t, z_p, h_p)] *)
Definition SRU_step (n_units : nat) (i_t : vector) (x_t z_t : matrix)
    (rest : list matrix) : result (list matrix) :=
  match rest with
  | [z_p; h_p] =>
      let slice := n_units in
      let u_t := mmap sigmoid (madd (slice_cols 0 slice z_t) (slice_cols 0 slice z_p)) in
      let r_t := mmap sigmoid (madd (slice_cols slice (2 * slice) z_t)
                                    (slice_cols slice (2 * slice) z_p)) in
      let h_c := mmap tanh (madd (slice_cols (2 * slice) (3 * slice) z_t)
                                 (mmul r_t (slice_cols (2 * slice) (3 * slice) z_p))) in
      Ok [madd (mmul u_t h_p) (mmul (mmap (fun u => 1 - u)%R u_t) h_c)]
  | _ => Raise (TypeError "step() takes exactly 6 arguments")
  end.

(** *** The dimensions of a unit: [Unit.__init__] and its callers *)
Record UnitDims : Type := mk_unit {
  n_units : nat;
  n_in : nat;
  n_out : nat;
  n_re : nat;
  n_act : nat
}.

Definition VANILLA_dims (n : nat) : UnitDims := mk_unit n n n n 1.
Definition LSTME_dims (n : nat) : UnitDims := mk_unit n (n * 4) n (n * 4) 2.
Definition LSTMP_dims (n : nat) : UnitDims := mk_unit n (n * 4) n (n * 4) 2.
Definition LSTMC_dims (n : nat) : UnitDims := mk_unit n (n * 4) n (n * 4) 2.
Definition GRU_dims (n : nat) : UnitDims := mk_unit n (n * 3) n (n * 2) 1.
Definition SRU_dims (n : nat) : UnitDims := mk_unit n (n * 3) n (n * 3) 1.

(** *** [RecurrentUnitLayer.__init__]: the choice of the unit

    [device] is [str(theano.config.device)]; the result is the name that
    is upper-cased and evaluated to a class. *)
Definition select_unit (device unit recurrent_transform : string) (lm : bool)
    (droplm : R) : string :=
  if String.eqb unit "lstm" then
    if String.prefix "cpu" device then "lstme"
    else if String.eqb recurrent_transform "none"
            && (negb lm || (if Req_dec_T droplm 0 then true else false)) then "lstmp"
    else "lstmc"
  else if (String.eqb unit "lstmc" || String.eqb unit "lstmp")
          && String.prefix "cpu" device then "lstme"
  else unit.

(** *** [RecurrentUnitLayer.__init__]: the initial value of the bias

    A vector of [n_in] zeros; a forget shift that is not zero is added to
    the entries from [n_units] up to [2 * n_units], after the assertion
    that the unit has four gates. *)
Definition bias_init_value (u : UnitDims) (bias_random_init_forget_shift : R)
  : result (list R) :=
  let zeros := replicate (n_in u) 0%R in
  if Req_dec_T bias_random_init_forget_shift 0 then Ok zeros
  else if (n_units u * 4 =? n_in u)%nat then
    Ok (take (n_units u) zeros
        ++ ((fun x => x + bias_random_init_forget_shift)%R
              <$> take (2 * n_units u - n_units u) (drop (n_units u) zeros))
        ++ drop (2 * n_units u) zeros)%list
  else Raise (AssertionError EmptyString).

(** *** [LinearRecurrentLayer.__init__]

    [a] is the sigmoid of the parameter created by [create_bias], a
    vector over the features; [x] is the linear forward output and [i]
    the index cast to numbers. *)

(** [m * v.dimshuffle(0, 'x')]: row [b] of [m] scaled by [v[b]]. *)
Definition scale_rows (m : matrix) (v : vector) : matrix :=
  zip_with (fun row s => (fun x => x * s)%R <$> row) m v.

(** [a * m] for a vector [a] over the columns of [m]. *)
Definition scale_cols (a : vector) (m : matrix) : matrix :=
  (fun row => zip_with Rmult a row) <$> m.

Definition LinearRecurrentLayer_step (a : vector) (x_t : matrix) (i_t : vector)
    (h_p : matrix) : matrix :=
  madd (scale_rows (madd (scale_cols a h_p) x_t) i_t)
       (scale_rows h_p ((fun s => 1 - s)%R <$> i_t)).

(** [theano.scan(step, sequences=[x, i], outputs_info=[h_initial])] *)
Fixpoint linear_scan_loop (a : vector) (slices : list (matrix * vector))
    (h : matrix) : list matrix :=
  match slices with
  | [] => []
  | (x_t, i_t) :: slices' =>
      let h' := LinearRecurrentLayer_step a x_t i_t h in
      h' :: linear_scan_loop a slices' h'
  end.

Definition format_Z (z : Z) : string :=
  if (z <? 0)%Z then "-" ++ format_int (Z.to_N (- z)) else format_int (Z.to_N z).

(** [{1: False, -1: True}[direction]] *)
Definition scan_direction (direction : Z) : result bool :=
  if (direction =? 1)%Z then Ok false
  else if (direction =? -1)%Z then Ok true
  else Raise (KeyError (format_Z direction)).

(** The hidden states [h] before the activation, in the order of time:
    a backward scan reverses both sequences before they are cut to the
    shorter, and [h[::direction]] undoes the reversal of its outputs. *)
Definition LinearRecurrentLayer_h (a_param : vector) (x : list matrix)
    (i : list vector) (n_out0 : nat) (direction : Z) : result (list matrix) :=
  let a := sigmoid <$> a_param in
  let n_batch := length (hd [] x) in
  let h_initial := zeros n_batch n_out0 in
  match scan_direction direction with
  | Raise e => Raise e
  | Ok go_backwards =>
      let ordered := if go_backwards then zip (reverse x) (reverse i)
                     else zip x i in
      let h := linear_scan_loop a ordered h_initial in
      Ok (if go_backwards then reverse h else h)
  end.

(** * Predicates of the statements and sample data *)

(** Membership and duplicate-freeness of explicit lists of names. *)
Ltac not_in_list :=
  let Hin := fresh "Hin" in
  intros Hin;
  repeat (apply elem_of_cons in Hin as [Hin | Hin]; [discriminate |]);
  now apply elem_of_nil in Hin.

Ltac no_dup_list :=
  repeat (apply NoDup_cons_2; [not_in_list |]); apply NoDup_nil_2.

Definition no_digit (cs : list ascii) : bool :=
  forallb (fun c => negb (is_digit c)) cs.

Definition all_digits (cs : list ascii) : bool := forallb is_digit cs.

Definition ends_with_digit (cs : list ascii) : bool :=
  match last cs with
  | Some c => is_digit c
  | None => false
  end.

(** [name = pre ++ ds ++ suf] where [ds] is the last run of digits of the
    name and no line break precedes it. *)
Definition last_digit_run (pre ds suf : list ascii) : Prop :=
  ds <> [] /\ all_digits ds = true /\ no_digit suf = true /\
  ends_with_digit pre = false /\ newline ∉ pre.

Definition hidden_2_container : Container float :=
  mk_container "hidden" "hidden_2" ∅
    (<["from" := VStr EmptyString]> (<["n_out" := VInt 5]> ∅)) false 1 None None.

Definition tied_weights : SharedVariable float :=
  mk_shared (Some "W_shared") (mk_ndarray [2; 2]%nat [1; 0; 0; 1]%float).

Definition fresh_weights : SharedVariable float :=
  mk_shared (Some "W_in") (mk_ndarray [2; 2]%nat [0; 0; 0; 0]%float).

(** A layer of a network that ties every parameter to [tied_weights]. *)
Definition tied_layer : Container float :=
  mk_container "hidden" "hidden_1" ∅ ∅ false 1
    (Some (mk_network (Some (fun _ _ _ => Some tied_weights)))) None.

(** A stored array that [load] refuses for the declared parameter [v]. *)
Definition rejected {A} `{FloatX A} (v : SharedVariable A) (array : ndarray A)
  : Prop :=
  shape (get_value v) <> shape array \/ has_inf_or_nan array = true.

(** A recurrent layer with three declared parameters, and stored files. *)
Definition rec_layer : Container float :=
  mk_container "rec" "lstm_1"
    (<["W_in" := mk_shared (Some "W_in") (mk_ndarray [1; 4]%nat [0; 0; 0; 0]%float)]>
       (<["W_re" := mk_shared (Some "W_re") (mk_ndarray [1; 4]%nat [0; 0; 0; 0]%float)]>
          (<["b" := mk_shared (Some "b") (mk_ndarray [4]%nat [0; 0; 0; 0]%float)]> ∅)))
    ∅ false 1 None None.

Definition stored_b : ndarray float := mk_ndarray [4]%nat [1; 2; 3; 4]%float.

Definition stored_W_re : ndarray float := mk_ndarray [1; 4]%nat [5; 6; 7; 8]%float.

Definition stored_W_re_nan : ndarray float := mk_ndarray [1; 4]%nat [5; nan; 7; 8]%float.

Definition stored_W_re_wide : ndarray float := mk_ndarray [2; 4]%nat [5; 6; 7; 8; 5; 6; 7; 8]%float.

Definition file_with (ds : list (string * ndarray float)) : gmap string (Group float) :=
  <["lstm_1" := mk_group (<["class" := VStr "rec"]> ∅) ds]> ∅.

Definition known_classes (s : string) : option string := Some s.

Definition half_stream : RandomState := mk_rng (fun _ => (1 / 2)%R) 0.

Definition plain_layer : Container R :=
  mk_container "hidden" "hidden_1" ∅ ∅ false 1 None None.

Definition binary (x : R) : Prop := x = 0%R \/ x = 1%R.

(** Induction over a tensor and its sub-tensors. *)
Fixpoint tensor_ind_nested (P : tensor -> Prop)
    (HSc : forall x, P (Sc x))
    (HNd : forall ts, Forall P ts -> P (Nd ts)) (t : tensor) : P t :=
  match t with
  | Sc x => HSc x
  | Nd ts =>
      HNd ts ((fix all (l : list tensor) : Forall P l :=
                 match l with
                 | [] => @List.Forall_nil _ P
                 | t' :: l' =>
                     @List.Forall_cons _ P t' l' (tensor_ind_nested P HSc HNd t') (all l')
                 end) ts)
  end.

(** Every list of slices along [axis] has [d] members. *)
Fixpoint axis_length (axis d : nat) (t : tensor) : Prop :=
  match axis, t with
  | 0%nat, Nd ts => length ts = d
  | S k, Nd ts => Forall (axis_length k d) ts
  | _, Sc _ => False
  end.

(** A (time, batch, depth, feature) tensor with one frame, one sequence,
    depth two and two features. *)
Definition ensemble_output : tensor :=
  Nd [Nd [Nd [Nd [Sc 1; Sc 2]; Nd [Sc 3; Sc 6]]]].

(** What the stages of [make_output] leave untouched in the layer. *)
Definition same_settings (c c' : Container R) : Prop :=
  train_flag c' = train_flag c /\ depth c' = depth c /\ name c' = name c /\
  forall k, k <> "n_out" -> attrs c' !! k = attrs c !! k.

(** The blend that layer-drop computes at inference. *)
Definition inference_blend (d : R) (z o : tensor) : tensor :=
  tadd (tscale d z) (tscale (1 - d) o).

(** A feed-forward layer of width two with layer-drop 0.3, evaluated at
    inference on one frame of one sequence. *)
Definition drop_layer (sparse : bool) : Container R :=
  mk_container "hidden" "hidden_1" ∅
    (<["n_out" := VInt 2]>
       (<["batch_norm" := VBool false]>
          (<["residual" := VBool false]>
             (<["layer_drop" := VFloat (3 / 10)]>
                (<["sparse" := VBool sparse]>
                   (<["sparse_filtering" := VBool false]> ∅))))))
    false 1 None None.

Definition skip_input : tensor := Nd [Nd [Nd [Sc 1; Sc 3]]].

Definition computed_output : tensor := Nd [Nd [Nd [Sc 10; Sc 20]]].

Definition no_weights (_ : Container R) (_ : RandomState) (_ _ : nat) (_ : string)
  : result (SharedVariable R * RandomState) :=
  Raise (ValueError EmptyString).

Definition no_tensordot (_ _ : tensor) (_ _ : nat) : result tensor :=
  Raise (ValueError EmptyString).

Definition no_substitute (_ : string) (_ : Container R) (_ : string)
    (_ : SharedVariable R) : option (SharedVariable R) := None.

(** A matrix of [r] rows of width [k]. *)
Definition matrix_shape (r k : nat) (m : matrix) : Prop :=
  length m = r /\ Forall (fun row => length row = k) m.

(** The shapes that [LSTME.step] expects for a batch of [batch] rows and
    [n] units. *)
Definition LSTME_shapes (rt : option RecurrentTransform) (n batch : nat)
    (W_re : matrix) (i_t : vector) (z_t y_p c_p : matrix)
    (other_args : list matrix) : Prop :=
  length i_t = batch /\
  matrix_shape batch (4 * n) z_t /\
  matrix_shape batch n y_p /\
  matrix_shape batch n c_p /\
  matrix_shape n (4 * n) W_re /\
  forall t, rt = Some t ->
    matrix_shape batch (4 * n)
      (fst (transform_step t (take (n_state_vars t) other_args) y_p)).

(** Two sequences, one unit; the first sequence is padded at this step. *)
Definition padded_index : vector := [0; 1]%R.

Definition step_input : matrix := [[0; 0; 0; 0]; [0; 0; 0; 0]]%R.

Definition output_state : matrix := [[1]; [1]]%R.

Definition cell_state : matrix := [[2]; [3]]%R.

Definition recurrent_weights : matrix := [[0; 0; 0; 0]]%R.

(** Sequential application of [tanh (z_t + previous state)]. *)
Fixpoint vanilla_run (z : list matrix) (h : matrix) : list matrix :=
  match z with
  | [] => []
  | z_t :: z' =>
      let h' := mmap tanh (madd z_t h) in
      h' :: vanilla_run z' h'
  end.

(** The names of a list of items ascend: each is at most the next in
    the order [String.leb]. *)
Fixpoint ascending (keys : list string) : Prop :=
  match keys with
  | k :: (k' :: _) as keys' => String.leb k k' = true /\ ascending keys'
  | _ => True
  end.

(** What identifies a parameter apart from its value. *)
Definition signature {A} (v : SharedVariable A) : option string * list nat :=
  (sv_name v, shape (get_value v)).

(** [rec_layer] after training: the same names and shapes, other values. *)
Definition rec_layer_trained : Container float :=
  mk_container "rec" "lstm_1"
    (<["W_in" := mk_shared (Some "W_in") (mk_ndarray [1; 4]%nat [1; 2; 3; 4]%float)]>
       (<["W_re" := mk_shared (Some "W_re") stored_W_re]>
          (<["b" := mk_shared (Some "b") stored_b]> ∅)))
    ∅ false 1 None None.

(** The arguments of a plain layer of width three: the defaults of the
    signature of [Layer.__init__], the cost scale given as the integer 1. *)
Definition plain_layer_args : LayerArgs :=
  {| arg_n_out := VInt 3; arg_target := VNone; arg_target_index := None;
     arg_sparse := VBool false; arg_cost_scale := VInt 1;
     arg_L1 := VFloat 0; arg_L2 := VFloat 0; arg_L2_eye := VNone;
     arg_varreg := VFloat 0; arg_mask := VStr "unity"; arg_dropout := VFloat 0;
     arg_batch_norm := VBool false; arg_layer_drop := VFloat 0;
     arg_residual := VBool false; arg_carry := VBool false;
     arg_sparse_filtering := VBool false; arg_gradient_scale := VFloat 1 |}.

(** The layer that the two constructors build from these arguments, the
    default consensus and the given depth. *)
Definition built_layer (depth0 : nat) : Container R :=
  match Layer_init_attrs
          (Container_init "hidden" None "hidden_1" None false depth0 "flat"
             None None None None) None plain_layer_args with
  | Ok c => c
  | Raise _ => plain_layer
  end.

(** The layer [drop_layer false] in training. *)
Definition drop_layer_training : Container R :=
  mk_container "hidden" "hidden_1" ∅ (attrs (drop_layer false)) true 1 None None.

(** A stand-in for the decomposition that returns the identity matrix. *)
Definition identity_tile (rng : RandomState) (k : nat) : matrix * RandomState :=
  ((fun i => (fun j => if (i =? j)%nat then 1%R else 0%R) <$> seq 0 k) <$> seq 0 k, rng).

(** Every entry of a matrix satisfies [P]. *)
Definition entries (P : R -> Prop) (m : matrix) : Prop := Forall (Forall P) m.

Definition within_one (x : R) : Prop := (-1 <= x <= 1)%R.

(** * Properties *)

Example guess_hidden_2 : guess_source_layer_name "hidden_2" = Some "hidden_1".
Proof. reflexivity. Qed.

Example guess_hidden_10_fw : guess_source_layer_name "hidden_10_fw" = Some "hidden_9_fw".
Proof. reflexivity. Qed.

Example guess_hidden_0 : guess_source_layer_name "hidden_0" = None.
Proof. reflexivity. Qed.

Example guess_no_digits : guess_source_layer_name "output" = None.
Proof. reflexivity. Qed.

Example split_example : split_on "," "fw_1,bw_1" = ["fw_1"; "bw_1"].
Proof. reflexivity. Qed.

(** ** The source-name heuristic and [to_json] *)

Lemma chars_of_string_of_chars (cs : list ascii) :
  chars_of_string (string_of_chars cs) = cs.
Proof. induction cs as [|c cs IH]; simpl; [reflexivity | now rewrite IH]. Qed.

Lemma string_of_chars_of_string (s : string) :
  string_of_chars (chars_of_string s) = s.
Proof. induction s as [|c s IH]; simpl; [reflexivity | now rewrite IH]. Qed.

Lemma span_digits_nil (cs : list ascii) rest :
  span_digits cs = ([], rest) -> rest = cs.
Proof.
  destruct cs as [|c cs]; simpl; [congruence |].
  destruct (is_digit c); [destruct (span_digits cs) |]; congruence.
Qed.

Lemma span_digits_run (ds suf : list ascii) :
  all_digits ds = true -> no_digit suf = true ->
  span_digits (ds ++ suf) = (ds, suf).
Proof.
  intros Hds Hsuf. induction ds as [|d ds IH]; simpl in *.
  - destruct suf as [|c suf]; [reflexivity |]. simpl in Hsuf.
    apply andb_prop in Hsuf as [Hc _]. simpl.
    destruct (is_digit c); [discriminate | reflexivity].
  - apply andb_prop in Hds as [Hd Hds]. rewrite Hd, (IH Hds). reflexivity.
Qed.

Lemma match_digits_tail_run (ds suf : list ascii) :
  ds <> [] -> all_digits ds = true -> no_digit suf = true ->
  match_digits_tail (ds ++ suf) = Some (ds, suf).
Proof.
  intros Hne Hds Hsuf. unfold match_digits_tail.
  rewrite span_digits_run by assumption.
  destruct ds; [congruence |]. fold (no_digit suf). now rewrite Hsuf.
Qed.

Lemma no_digit_app_false (l1 l2 : list ascii) :
  no_digit l2 = false -> no_digit (l1 ++ l2) = false.
Proof.
  intros H2. unfold no_digit in *. rewrite forallb_app, H2.
  apply andb_false_r.
Qed.

Lemma match_digits_tail_inside (pre tail : list ascii) :
  pre <> [] -> ends_with_digit pre = false -> no_digit tail = false ->
  match_digits_tail (pre ++ tail) = None.
Proof.
  intros Hne Hend Htail. unfold match_digits_tail.
  assert (Hgoal : forall ds rest, span_digits (pre ++ tail) = (ds, rest) ->
                    ds = [] \/ no_digit rest = false).
  { revert Hne Hend.
    induction pre as [|c pre IH]; intros Hne Hend ds rest Hspan; [congruence |].
    simpl in Hspan. destruct (is_digit c) eqn:Hc.
    - destruct (span_digits (pre ++ tail)) as [ds' rest'] eqn:Hs.
      inversion Hspan; subst. right.
      destruct pre as [|c' pre].
      + unfold ends_with_digit in Hend. simpl in Hend. congruence.
      + assert (Hend' : ends_with_digit (c' :: pre) = false).
        { unfold ends_with_digit in *. now rewrite last_cons_cons in Hend. }
        destruct (IH ltac:(discriminate) Hend' _ _ eq_refl) as [-> | Hr];
          [| exact Hr].
        apply span_digits_nil in Hs. subst rest.
        now apply no_digit_app_false.
    - inversion Hspan. now left. }
  destruct (span_digits (pre ++ tail)) as [ds rest] eqn:Hs.
  destruct (Hgoal _ _ eq_refl) as [-> | Hr]; [reflexivity |].
  destruct ds; [reflexivity |]. fold (no_digit rest). now rewrite Hr.
Qed.

Lemma no_digit_run_false (ds suf : list ascii) :
  ds <> [] -> all_digits ds = true -> no_digit (ds ++ suf) = false.
Proof.
  intros Hne Hds. destruct ds as [|d ds]; [congruence |].
  simpl in *. apply andb_prop in Hds as [Hd _]. now rewrite Hd.
Qed.

Lemma re_search_from_eq (before cs : list ascii) :
  re_search_from before cs =
    match match_digits_tail cs with
    | Some (ds, rest) => Some (before, ds, rest)
    | None =>
        match cs with
        | [] => None
        | c :: cs' =>
            if Ascii.eqb c newline then None
            else re_search_from (before ++ [c]) cs'
        end
    end.
Proof. destruct cs; reflexivity. Qed.

Lemma re_search_from_run (pre ds suf before : list ascii) :
  last_digit_run pre ds suf ->
  re_search_from before (pre ++ ds ++ suf) = Some ((before ++ pre)%list, ds, suf).
Proof.
  intros (Hne & Hds & Hsuf & Hend & Hnl). revert before.
  induction pre as [|c pre IH]; intros before.
  - rewrite re_search_from_eq. simpl. rewrite app_nil_r.
    now rewrite match_digits_tail_run by assumption.
  - assert (Hmiss : match_digits_tail ((c :: pre) ++ ds ++ suf) = None).
    { apply match_digits_tail_inside; [discriminate | assumption |].
      now apply no_digit_run_false. }
    rewrite re_search_from_eq, Hmiss. simpl.
    destruct (Ascii.eqb_spec c newline) as [-> | Hc].
    + exfalso. apply Hnl. left.
    + rewrite IH.
      * now rewrite <- app_assoc.
      * destruct pre as [|c' pre]; [reflexivity |].
        unfold ends_with_digit in *. now rewrite last_cons_cons in Hend.
      * intros Hin. apply Hnl. now right.
Qed.

Lemma re_search_from_line_break (pre ds suf before : list ascii) :
  ds <> [] -> all_digits ds = true -> ends_with_digit pre = false ->
  newline ∈ pre ->
  re_search_from before (pre ++ ds ++ suf) = None.
Proof.
  intros Hne Hds Hend Hnl. revert before.
  induction pre as [|c pre IH]; intros before.
  - now apply elem_of_nil in Hnl.
  - assert (Hmiss : match_digits_tail ((c :: pre) ++ ds ++ suf) = None).
    { apply match_digits_tail_inside; [discriminate | assumption |].
      now apply no_digit_run_false. }
    rewrite re_search_from_eq, Hmiss. simpl.
    destruct (Ascii.eqb_spec c newline) as [-> | Hc]; [reflexivity |].
    apply elem_of_cons in Hnl as [Heq | Hnl]; [now destruct Hc |].
    apply IH; [| exact Hnl].
    destruct pre as [|c' pre]; [now apply elem_of_nil in Hnl |].
    unfold ends_with_digit in *. now rewrite last_cons_cons in Hend.
Qed.

Lemma re_search_from_no_digit (cs before : list ascii) :
  no_digit cs = true -> re_search_from before cs = None.
Proof.
  revert before. induction cs as [|c cs IH]; intros before Hcs.
  - reflexivity.
  - simpl in Hcs. apply andb_prop in Hcs as [Hc Hcs].
    rewrite re_search_from_eq. unfold match_digits_tail. simpl.
    destruct (is_digit c); [discriminate |].
    destruct (Ascii.eqb c newline); [reflexivity | now apply IH].
Qed.

Lemma guess_source_layer_name_run (layer_name : string) (pre ds suf : list ascii) :
  chars_of_string layer_name = (pre ++ ds ++ suf)%list ->
  last_digit_run pre ds suf ->
  guess_source_layer_name layer_name =
    if (0 <? int_of_digits ds)%N then
      Some (string_of_chars pre ++ format_int (int_of_digits ds - 1)
              ++ string_of_chars suf)
    else None.
Proof.
  intros Hname Hrun. unfold guess_source_layer_name.
  rewrite Hname, (re_search_from_run pre ds suf [] Hrun). reflexivity.
Qed.

Lemma guess_source_layer_name_line_break (layer_name : string)
    (pre ds suf : list ascii) :
  chars_of_string layer_name = (pre ++ ds ++ suf)%list ->
  ds <> [] -> all_digits ds = true -> ends_with_digit pre = false ->
  newline ∈ pre ->
  guess_source_layer_name layer_name = None.
Proof.
  intros Hname Hne Hds Hend Hnl. unfold guess_source_layer_name.
  now rewrite Hname, (re_search_from_line_break pre ds suf [] Hne Hds Hend Hnl).
Qed.

Lemma guess_source_layer_name_no_digit (layer_name : string) :
  no_digit (chars_of_string layer_name) = true ->
  guess_source_layer_name layer_name = None.
Proof.
  intros H. unfold guess_source_layer_name.
  now rewrite re_search_from_no_digit.
Qed.

Lemma to_json_lookup_from {A} (c : Container A) (v : attr_value) :
  attrs c !! "from" = Some v ->
  (unbox_numpy_bool <$> attrs c) !! "from" = Some (unbox_numpy_bool v).
Proof. intros Hv. now rewrite lookup_fmap, Hv. Qed.

(** C9 (as amended).  When [attrs] maps 'from' to a string [s], [to_json]
    returns the attributes (numpy booleans unboxed) with 'from' normalised:
    omitted for 'data'; for the empty string, a one-element list holding the
    layer's own name with its last run of digits (possibly followed by a
    digit-free suffix, and preceded by no line break) replaced by that
    number minus one when the number is positive, and omitted when the
    number is zero, when a line break precedes the last run of digits, or
    when the name contains no digit; any other string split on commas.
    The result depends on the attributes and the name only. *)
Theorem to_json_from_normalised {A} (c : Container A) (s : string) :
  attrs c !! "from" = Some (VStr s) ->
  let attrs0 := unbox_numpy_bool <$> attrs c in
  (s = "data" -> to_json c = Ok (delete "from" attrs0)) /\
  (s = EmptyString ->
   forall pre ds suf : list ascii,
     chars_of_string (name c) = (pre ++ ds ++ suf)%list ->
     last_digit_run pre ds suf ->
     to_json c =
       Ok (if (0 <? int_of_digits ds)%N then
             <["from" := VList [VStr (string_of_chars pre
                                        ++ format_int (int_of_digits ds - 1)
                                        ++ string_of_chars suf)]]> attrs0
           else delete "from" attrs0)) /\
  (s = EmptyString ->
   forall pre ds suf : list ascii,
     chars_of_string (name c) = (pre ++ ds ++ suf)%list ->
     ds <> [] -> all_digits ds = true -> no_digit suf = true ->
     ends_with_digit pre = false -> newline ∈ pre ->
     to_json c = Ok (delete "from" attrs0)) /\
  (s = EmptyString -> no_digit (chars_of_string (name c)) = true ->
   to_json c = Ok (delete "from" attrs0)) /\
  (s <> "data" -> s <> EmptyString ->
   to_json c = Ok (<["from" := VList (VStr <$> split_on "," s)]> attrs0)) /\
  (forall c' : Container A,
     attrs c' = attrs c -> name c' = name c -> to_json c' = to_json c).
Proof.
  intros Hfrom attrs0.
  pose proof (to_json_lookup_from c _ Hfrom) as Hl. simpl in Hl. fold attrs0 in Hl.
  repeat split.
  - intros ->. unfold to_json. fold attrs0. now rewrite Hl.
  - intros -> pre ds suf Hname Hrun. unfold to_json. fold attrs0. rewrite Hl. simpl.
    rewrite (guess_source_layer_name_run _ _ _ _ Hname Hrun).
    now destruct (0 <? int_of_digits ds)%N.
  - intros -> pre ds suf Hname Hne Hds _ Hend Hnl.
    unfold to_json. fold attrs0. rewrite Hl. simpl.
    now rewrite (guess_source_layer_name_line_break _ _ _ _ Hname Hne Hds Hend Hnl).
  - intros -> Hnd. unfold to_json. fold attrs0. rewrite Hl. simpl.
    now rewrite (guess_source_layer_name_no_digit _ Hnd).
  - intros Hd He. unfold to_json. fold attrs0. rewrite Hl.
    destruct (String.eqb_spec s "data"); [contradiction |].
    destruct (String.eqb_spec s EmptyString); [contradiction | reflexivity].
  - intros c' Ha Hn. unfold to_json. now rewrite Ha, Hn.
Qed.

Lemma to_json_from_normalised_witness :
  to_json hidden_2_container
  = Ok (<["from" := VList [VStr "hidden_1"]]> (<["n_out" := VInt 5]> ∅)).
Proof.
  destruct (to_json_from_normalised hidden_2_container EmptyString eq_refl)
    as (_ & Hguess & _).
  rewrite (Hguess eq_refl (chars_of_string "hidden_") (chars_of_string "2") [] eq_refl).
  - reflexivity.
  - repeat split; try reflexivity; try discriminate.
    vm_compute. not_in_list.
Defined.

(** A line break before the number: the pattern finds nothing, and
    'from' is dropped. *)
Example to_json_from_empty_name_with_line_break :
  to_json (mk_container (A := float) "hidden" (String "a" (String newline "2")) ∅
             (<["from" := VStr EmptyString]> ∅) false 1 None None)
  = Ok ∅.
Proof. vm_compute. reflexivity. Qed.

(** C9 (as stated) fails for a layer whose name holds no number: 'from' is
    dropped and no previous-layer name is produced. *)
Lemma to_json_from_empty_name_without_number :
  exists m : gmap string attr_value,
    to_json (mk_container (A := float) "softmax" "output" ∅
               (<["from" := VStr EmptyString]> ∅) false 1 None None) = Ok m
    /\ m !! "from" = None.
Proof. eexists. split; reflexivity. Qed.

(** ** Parameter registration *)

Section AddParam.
Context {A : Type} `{FloatX A}.
Variable ev : string -> Container A -> string -> SharedVariable A
              -> option (SharedVariable A).
Variable json_dumps : attr_value -> string.

(** C10.  When the network hook or the layer's substitution expression
    yields a substitute, [add_param] returns it and leaves the container
    as it was: [params], and with it [num_params], [get_params_vars] and
    what [save] writes, are unchanged.  When neither yields one, the
    parameter is returned and stored in [params] under its name. *)
Theorem add_param_substitute_frame (c : Container A)
    (param : SharedVariable A) (name0 : string) :
  let nm := param_name c param name0 in
  let r := add_param ev c param name0 in
  (forall s : SharedVariable A,
      network_substitute c nm param = Some s \/
      (network_substitute c nm param = None /\ expr_substitute ev c nm param = Some s) ->
      fst r = s /\ snd r = c /\
      params (snd r) = params c /\
      num_params (snd r) = num_params c /\
      get_params_vars (snd r) = get_params_vars c /\
      forall head, save json_dumps (snd r) head = save json_dumps c head) /\
  (network_substitute c nm param = None ->
   expr_substitute ev c nm param = None ->
   fst r = param /\
   params (snd r) = <[nm := param]> (params c) /\
   params (snd r) !! nm = Some param).
Proof.
  intros nm r. subst r. unfold add_param. fold nm. split.
  - intros s [Hn | [Hn He]]; rewrite Hn; [| rewrite He]; simpl; auto 10.
  - intros -> ->. simpl. split; [reflexivity |]. split; [reflexivity |].
    apply lookup_insert_eq.
Qed.
End AddParam.

Lemma add_param_substitute_frame_witness :
  fst (add_param (fun _ _ _ _ => None) tied_layer fresh_weights "W_in") = tied_weights
  /\ params (snd (add_param (fun _ _ _ _ => None) tied_layer fresh_weights "W_in")) = ∅
  /\ num_params (snd (add_param (fun _ _ _ _ => None) tied_layer fresh_weights "W_in")) = 0%nat.
Proof.
  destruct (add_param_substitute_frame (fun _ _ _ _ => None) (fun _ => EmptyString)
              tied_layer fresh_weights "W_in") as [Hsub _].
  destruct (Hsub tied_weights (or_introl eq_refl)) as (Hr & _ & Hp & Hn & _).
  split; [exact Hr |]. split; [exact Hp | exact Hn].
Defined.

(** ** Loading parameters *)

Section Load.
Context {A : Type} `{FloatX A}.
Variable get_layer_class : string -> option string.

Lemma load_datasets_frame (nm : string) (ds : list (string * ndarray A)) :
  forall ps log r ps' log',
    load_datasets nm ds ps log = (r, ps', log') ->
    forall p, p ∉ (fst <$> ds) -> ps' !! p = ps !! p.
Proof.
  induction ds as [|[q a] ds IH]; intros ps log r ps' log' Hload p Hp.
  - simpl in Hload. now inversion Hload.
  - simpl in Hload. rewrite fmap_cons in Hp. simpl in Hp.
    apply not_elem_of_cons in Hp as [Hpq Hp].
    destruct (ps !! q) as [v|] eqn:Hq.
    + destruct (shape_eqb _ _); [| now inversion Hload].
      destruct (has_inf_or_nan a); [now inversion Hload |].
      rewrite (IH _ _ _ _ _ Hload p Hp). now apply lookup_insert_ne.
    + now apply (IH _ _ _ _ _ Hload).
Qed.

Lemma load_datasets_log_grows (nm : string) (ds : list (string * ndarray A)) :
  forall ps log r ps' log',
    load_datasets nm ds ps log = (r, ps', log') ->
    forall l, l ∈ log -> l ∈ log'.
Proof.
  induction ds as [|[q a] ds IH]; intros ps log r ps' log' Hload l Hl.
  - simpl in Hload. now inversion Hload; subst.
  - simpl in Hload. destruct (ps !! q) as [v|].
    + destruct (shape_eqb _ _); [| now inversion Hload; subst].
      destruct (has_inf_or_nan a); [now inversion Hload; subst |].
      now apply (IH _ _ _ _ _ Hload).
    + apply (IH _ _ _ _ _ Hload). apply elem_of_app. now left.
Qed.

Lemma load_datasets_rejected (nm : string) (p : string) (array : ndarray A)
    (v : SharedVariable A) (ds : list (string * ndarray A)) :
  forall ps log,
    NoDup (fst <$> ds) -> (p, array) ∈ ds -> ps !! p = Some v ->
    rejected v array ->
    exists e ps' log',
      load_datasets nm ds ps log = (Raise e, ps', log') /\ ps' !! p = Some v.
Proof.
  induction ds as [|[q a] ds IH]; intros ps log Hnd Hin Hp Hbad.
  - now apply elem_of_nil in Hin.
  - rewrite fmap_cons in Hnd. simpl in Hnd. apply NoDup_cons in Hnd as [Hq Hnd].
    apply elem_of_cons in Hin as [Heq | Hin].
    + inversion Heq; subst q a. simpl. rewrite Hp.
      unfold shape_eqb. destruct Hbad as [Hs | Hn].
      * rewrite bool_decide_eq_false_2 by assumption. eauto.
      * destruct (bool_decide _); rewrite ?Hn; eauto.
    + assert (Hne : q <> p).
      { intros ->. apply Hq. apply list_elem_of_fmap. now exists (p, array). }
      simpl. destruct (ps !! q) as [w|] eqn:Hw.
      * destruct (shape_eqb _ _); [| eauto].
        destruct (has_inf_or_nan a); [eauto |].
        apply IH; try assumption. now rewrite lookup_insert_ne.
      * now apply IH.
Qed.

(** C4.  If the layer's group stores, under the name of a declared
    parameter, an array containing an infinity or a NaN, or one whose shape
    differs from the declared parameter's, then [load] raises, and that
    parameter keeps the value it had before the load. *)
Theorem load_rejects_corrupt_or_misshaped (c : Container A)
    (head : gmap string (Group A)) (grp : Group A) (p : string)
    (array : ndarray A) (v : SharedVariable A) :
  head !! name c = Some grp ->
  NoDup (dataset_names grp) ->
  (p, array) ∈ g_datasets grp ->
  params c !! p = Some v ->
  shape (get_value v) <> shape array \/ has_inf_or_nan array = true ->
  exists e c' log,
    load get_layer_class c head = (Raise e, c', log) /\ params c' !! p = Some v.
Proof.
  intros Hgrp Hnd Hin Hp Hbad. unfold load. rewrite Hgrp.
  destruct (check_layer_class get_layer_class c grp) as [class_log | e].
  - destruct (load_datasets_rejected (name c) p array v (g_datasets grp) (params c)
                (class_log ++ missing_warnings c grp)%list Hnd Hin Hp Hbad)
      as (e & ps' & log' & -> & Hp').
    now exists e, (with_params c ps'), log'.
  - now exists e, c, [].
Qed.

Lemma load_datasets_all_valid (nm : string) (ds : list (string * ndarray A)) :
  forall ps log,
    NoDup (fst <$> ds) ->
    (forall q array v, (q, array) ∈ ds -> ps !! q = Some v -> ~ rejected v array) ->
    exists ps' log',
      load_datasets nm ds ps log = (Ok tt, ps', log') /\
      (forall q array v, (q, array) ∈ ds -> ps !! q = Some v ->
                         ps' !! q = Some (set_value v array)).
Proof.
  induction ds as [|[q a] ds IH]; intros ps log Hnd Hvalid.
  - exists ps, log. split; [reflexivity |]. intros q array v Hin.
    now apply elem_of_nil in Hin.
  - rewrite fmap_cons in Hnd. simpl in Hnd. apply NoDup_cons in Hnd as [Hq Hnd].
    assert (Hother : forall q' array, (q', array) ∈ ds -> q <> q').
    { intros q' array Hin ->. apply Hq. apply list_elem_of_fmap. now exists (q', array). }
    simpl. destruct (ps !! q) as [w|] eqn:Hw.
    + assert (Hok : ~ rejected w a) by (apply (Hvalid q); [left | assumption]).
      unfold rejected, shape_eqb in *.
      rewrite bool_decide_eq_true_2 by (destruct (decide (shape (get_value w) = shape a)); tauto).
      destruct (has_inf_or_nan a) eqn:Hfin; [tauto |].
      destruct (IH (<[q := set_value w a]> ps) log Hnd) as (ps' & log' & Hload & Hset).
      { intros q' array v Hin Hv. apply (Hvalid q'); [now right |].
        now rewrite lookup_insert_ne in Hv by eauto. }
      exists ps', log'. split; [exact Hload |].
      intros q' array v Hin Hv. apply elem_of_cons in Hin as [Heq | Hin].
      * inversion Heq; subst q' array. rewrite Hw in Hv. inversion Hv; subst v.
        rewrite (load_datasets_frame _ _ _ _ _ _ _ Hload q Hq).
        apply lookup_insert_eq.
      * apply (Hset q' array v Hin). rewrite lookup_insert_ne by eauto. exact Hv.
    + destruct (IH ps (log ++ [mk_log 4 ("unable to match parameter " ++ q ++ " in " ++ nm)])%list Hnd)
        as (ps' & log' & Hload & Hset).
      { intros q' array v Hin Hv. apply (Hvalid q'); [now right | exact Hv]. }
      exists ps', log'. split; [exact Hload |].
      intros q' array v Hin Hv. apply elem_of_cons in Hin as [Heq | Hin].
      * inversion Heq; subst q' array. congruence.
      * now apply (Hset q' array v).
Qed.

Lemma missing_warnings_elem (c : Container A) (grp : Group A) (p : string)
    (v : SharedVariable A) :
  params c !! p = Some v -> p ∉ dataset_names grp ->
  mk_log 4 ("unable to load parameter " ++ p ++ " in " ++ name c)
    ∈ missing_warnings c grp.
Proof.
  intros Hp Hmiss. unfold missing_warnings.
  apply list_elem_of_fmap. exists (p, v). split; [reflexivity |].
  apply list_elem_of_filter. split; [exact Hmiss |].
  now apply elem_of_map_to_list.
Qed.

(** C3 (as amended).  When the layer's group exists, its class check
    passes, and every stored array filed under a declared name has the
    declared shape and only finite values, [load] returns normally; each
    declared parameter absent from the group is reported in the log and
    keeps its value, and each declared parameter present in the group takes
    the stored value. *)
Theorem load_missing_parameter_tolerated (c : Container A)
    (head : gmap string (Group A)) (grp : Group A) (class_log : list log_line) :
  head !! name c = Some grp ->
  check_layer_class get_layer_class c grp = Ok class_log ->
  NoDup (dataset_names grp) ->
  (forall q array v, (q, array) ∈ g_datasets grp -> params c !! q = Some v ->
                     shape (get_value v) = shape array /\ has_inf_or_nan array = false) ->
  exists c' log,
    load get_layer_class c head = (Ok tt, c', log) /\
    (forall p v, params c !! p = Some v -> p ∉ dataset_names grp ->
       mk_log 4 ("unable to load parameter " ++ p ++ " in " ++ name c) ∈ log /\
       params c' !! p = Some v) /\
    (forall q array v, (q, array) ∈ g_datasets grp -> params c !! q = Some v ->
       params c' !! q = Some (set_value v array)).
Proof.
  intros Hgrp Hclass Hnd Hvalid. unfold load. rewrite Hgrp, Hclass.
  destruct (load_datasets_all_valid (name c) (g_datasets grp) (params c)
              (class_log ++ missing_warnings c grp)%list Hnd)
    as (ps' & log' & Hload & Hset).
  { intros q array v Hin Hq [Hs | Hn]; destruct (Hvalid q array v Hin Hq); congruence. }
  rewrite Hload. exists (with_params c ps'), log'. split; [reflexivity |]. split.
  - intros p v Hp Hmiss. split.
    + apply (load_datasets_log_grows _ _ _ _ _ _ _ Hload).
      apply elem_of_app. right. now apply (missing_warnings_elem c grp p v).
    + simpl. rewrite (load_datasets_frame _ _ _ _ _ _ _ Hload p Hmiss). exact Hp.
  - exact Hset.
Qed.

End Load.

(** A load from a file that lacks 'W_in': one line in the log, the two
    stored parameters assigned. *)
Example load_without_W_in :
  load known_classes rec_layer (file_with [("W_re", stored_W_re); ("b", stored_b)])
  = (Ok tt,
     with_params rec_layer
       (<["W_re" := mk_shared (Some "W_re") stored_W_re]>
          (<["b" := mk_shared (Some "b") stored_b]> (params rec_layer))),
     [mk_log 4 "unable to load parameter W_in in lstm_1"]).
Proof. vm_compute. reflexivity. Qed.

(** A stored NaN stops the load at its parameter; 'b', which comes later
    in the file, is not reached. *)
Example load_with_nan :
  load known_classes rec_layer (file_with [("W_re", stored_W_re_nan); ("b", stored_b)])
  = (Raise (AssertionError EmptyString), rec_layer,
     [mk_log 4 "unable to load parameter W_in in lstm_1"]).
Proof. vm_compute. reflexivity. Qed.

Lemma load_rejects_corrupt_or_misshaped_witness :
  exists e c' log,
    load known_classes rec_layer (file_with [("W_re", stored_W_re_nan); ("b", stored_b)])
      = (Raise e, c', log)
    /\ params c' !! "W_re" = params rec_layer !! "W_re".
Proof.
  apply (load_rejects_corrupt_or_misshaped known_classes rec_layer
           (file_with [("W_re", stored_W_re_nan); ("b", stored_b)])
           (mk_group (<["class" := VStr "rec"]> ∅)
                     [("W_re", stored_W_re_nan); ("b", stored_b)])
           "W_re" stored_W_re_nan).
  - reflexivity.
  - vm_compute. no_dup_list.
  - left.
  - reflexivity.
  - right. reflexivity.
Defined.

Lemma load_missing_parameter_tolerated_witness :
  exists c' log,
    load known_classes rec_layer (file_with [("W_re", stored_W_re); ("b", stored_b)])
      = (Ok tt, c', log)
    /\ (mk_log 4 "unable to load parameter W_in in lstm_1" ∈ log
        /\ params c' !! "W_in" = params rec_layer !! "W_in")
    /\ params c' !! "W_re" = Some (mk_shared (Some "W_re") stored_W_re)
    /\ params c' !! "b" = Some (mk_shared (Some "b") stored_b).
Proof.
  destruct (load_missing_parameter_tolerated known_classes rec_layer
              (file_with [("W_re", stored_W_re); ("b", stored_b)])
              (mk_group (<["class" := VStr "rec"]> ∅)
                        [("W_re", stored_W_re); ("b", stored_b)]) [])
    as (c' & log & Hload & Hmiss & Hset).
  - reflexivity.
  - reflexivity.
  - vm_compute. no_dup_list.
  - intros q array v Hin Hq.
    apply elem_of_cons in Hin as [Heq | Hin]; [inversion Heq; subst |].
    { vm_compute in Hq. inversion Hq; subst. split; reflexivity. }
    apply elem_of_cons in Hin as [Heq | Hin]; [inversion Heq; subst |].
    { vm_compute in Hq. inversion Hq; subst. split; reflexivity. }
    now apply elem_of_nil in Hin.
  - exists c', log. split; [exact Hload |]. split.
    + apply (Hmiss "W_in" (mk_shared (Some "W_in") (mk_ndarray [1; 4]%nat [0; 0; 0; 0]%float))).
      * reflexivity.
      * vm_compute. not_in_list.
    + split.
      * apply (Hset "W_re" stored_W_re (mk_shared (Some "W_re") (mk_ndarray [1; 4]%nat [0; 0; 0; 0]%float))).
        -- left.
        -- reflexivity.
      * apply (Hset "b" stored_b (mk_shared (Some "b") (mk_ndarray [4]%nat [0; 0; 0; 0]%float))).
        -- right. left.
        -- reflexivity.
Defined.

(** C3 (as stated) fails when another stored parameter is refused: 'W_in'
    is absent from the file, 'W_re' is stored with a wrong shape, and 'b',
    stored with the declared shape and finite values, is not loaded: the
    load raises at 'W_re' and the layer is left as it was. *)
Lemma load_missing_parameter_sibling_refused :
  params rec_layer !! "W_in" <> None
  /\ ("W_in" ∉ ["W_re"; "b"])
  /\ (shape <$> (get_value <$> params rec_layer !! "b")) = Some (shape stored_b)
  /\ has_inf_or_nan stored_b = false
  /\ exists e log,
       load known_classes rec_layer
            (file_with [("W_re", stored_W_re_wide); ("b", stored_b)])
         = (Raise e, rec_layer, log)
       /\ (get_value <$> params rec_layer !! "b") <> Some stored_b.
Proof.
  split; [discriminate |]. split; [vm_compute; not_in_list |].
  split; [reflexivity |]. split; [reflexivity |].
  eexists _, _. split; [vm_compute; reflexivity | discriminate].
Qed.

(** ** Weight initialisation *)

Lemma random_sample_length (rng : RandomState) (size : list nat) :
  length (fst (random_sample rng size)) = shape_size size.
Proof. unfold random_sample. simpl. now rewrite length_fmap, length_seq. Qed.

Lemma random_sample_unit (rng : RandomState) (size : list nat) :
  unit_interval rng ->
  Forall (fun u => 0 <= u < 1)%R (fst (random_sample rng size)).
Proof.
  intros Hu. unfold random_sample. simpl.
  apply Forall_fmap, Forall_forall. intros k _. apply Hu.
Qed.

Lemma rng_uniform_spec (rng : RandomState) (l : R) (size : list nat) :
  unit_interval rng -> (0 <= l)%R ->
  shape (fst (rng_uniform rng (- l) l size)) = size /\
  length (data (fst (rng_uniform rng (- l) l size))) = shape_size size /\
  Forall (fun x => - l <= x <= l)%R (data (fst (rng_uniform rng (- l) l size))).
Proof.
  intros Hu Hl. unfold rng_uniform.
  pose proof (random_sample_length rng size) as Hlen.
  pose proof (random_sample_unit rng size Hu) as Hunit.
  destruct (random_sample rng size) as [us rng']. simpl in *.
  split; [reflexivity |]. split; [now rewrite length_fmap |].
  apply Forall_fmap. eapply Forall_impl; [exact Hunit |].
  intros u [H0 H1]. simpl. split; nra.
Qed.

(** C7 (as amended).  Called with neither [p], [p_add] nor [l], on a
    shape with [n + m > 0], the initialiser uses the bound
    [l = sqrt (6 / (n + m))]: the entries are [- l + 2 * l * u] for the
    next variates [u] of the generator, in their order, so every entry
    lies in [[-l, l]]; it returns a shared variable of shape [(n, m)], or
    [(n, depth, m)] when the depth in force (the argument, or the layer's
    when the argument is absent or zero) exceeds one. *)
Theorem create_random_uniform_weights_default (c : Container R)
    (rng : RandomState) (n m : nat) (name0 : option string)
    (depth0 : option nat) :
  (0 < n + m)%nat ->
  unit_interval rng ->
  let d := match depth0 with Some (S d) => S d | _ => depth c end in
  let l := sqrt (6 / INR (n + m)) in
  exists v rng',
    create_random_uniform_weights c rng n m None None None name0 depth0 = Ok (v, rng') /\
    shape (get_value v) = (if (1 <? d)%nat then [n; d; m] else [n; m]) /\
    length (data (get_value v)) = shape_size (shape (get_value v)) /\
    Forall (fun x => - l <= x <= l)%R (data (get_value v)) /\
    data (get_value v)
    = (fun u => - l + 2 * l * u)%R
        <$> (rs_samples rng <$> seq (rs_pos rng) (shape_size (shape (get_value v)))).
Proof.
  intros Hnm Hu d l. unfold create_random_uniform_weights. fold d. simpl.
  assert (Hp : (0 < INR (n + m))%R) by (apply lt_0_INR; lia).
  unfold py_sqrt.
  destruct (Rlt_dec 6 0) as [H6 | _]; [lra |]. simpl.
  destruct (Rlt_dec (INR (n + m)) 0) as [Hneg | _]; [lra |]. simpl.
  unfold py_div. destruct (Req_dec_T (sqrt (INR (n + m))) 0) as [H0 | _].
  { pose proof (sqrt_lt_R0 _ Hp). lra. }
  simpl. rewrite <- (sqrt_div_alt 6 (INR (n + m)) Hp). fold l.
  assert (Hl : (0 <= l)%R) by apply sqrt_pos.
  destruct (rng_uniform_spec rng l (if (1 <? d)%nat then [n; d; m] else [n; m]) Hu Hl)
    as (_ & Hlen & Hrange).
  unfold rng_uniform, random_sample in Hlen, Hrange. simpl in Hlen, Hrange.
  eexists _, _. split; [reflexivity |]. simpl.
  split; [reflexivity |]. split; [exact Hlen |]. split; [exact Hrange |].
  apply list_fmap_ext. intros k u _. ring.
Qed.

Lemma create_random_uniform_weights_default_witness :
  exists v rng',
    create_random_uniform_weights plain_layer half_stream 2 1 None None None None None
      = Ok (v, rng') /\
    shape (get_value v) = [2; 1]%nat /\
    length (data (get_value v)) = 2%nat /\
    Forall (fun x => - sqrt (6 / INR 3) <= x <= sqrt (6 / INR 3))%R (data (get_value v)).
Proof.
  destruct (create_random_uniform_weights_default plain_layer half_stream 2 1 None None)
    as (v & rng' & Hcall & Hshape & Hlen & Hrange & _).
  - lia.
  - intros k. simpl. lra.
  - exists v, rng'. simpl in Hshape. rewrite Hshape in Hlen. auto.
Defined.

(** C7 (as stated) fails for the shape (0, 0): no bound is computed and
    no tensor is returned. *)
Lemma create_random_uniform_weights_default_shape_zero :
  create_random_uniform_weights plain_layer half_stream 0 0 None None None None None
  = Raise ZeroDivisionError.
Proof.
  unfold create_random_uniform_weights. simpl. unfold py_sqrt.
  destruct (Rlt_dec 6 0) as [H6 | _]; [lra |]. simpl.
  destruct (Rlt_dec 0 0) as [H0 | _]; [lra |]. simpl.
  unfold py_div. rewrite sqrt_0.
  destruct (Req_dec_T 0 0) as [_ | Hne]; [reflexivity | contradiction].
Qed.

(** For the empty shape the default bound divides by [sqrt 0]. *)
Lemma create_random_uniform_weights_empty_shape (c : Container R)
    (rng : RandomState) (name0 : option string) (depth0 : option nat) :
  create_random_uniform_weights c rng 0 0 None None None name0 depth0
  = Raise ZeroDivisionError.
Proof.
  unfold create_random_uniform_weights. simpl. unfold py_sqrt.
  destruct (Rlt_dec 6 0) as [H6 | _]; [lra |]. simpl.
  destruct (Rlt_dec 0 0) as [H0 | _]; [lra |]. simpl.
  unfold py_div. rewrite sqrt_0.
  destruct (Req_dec_T 0 0) as [_ | Hne]; [reflexivity | contradiction].
Qed.

(** ** Dropout masks *)

Lemma srng_binomial_binary (srng : RandomState) (p : R) (size : list nat) :
  exists a srng',
    srng_binomial srng 1 p size = Ok (a, srng') /\
    shape a = size /\ Forall binary (data a).
Proof.
  unfold srng_binomial. simpl.
  destruct (random_sample srng size) as [us srng'].
  eexists _, _. split; [reflexivity |]. split; [reflexivity |]. simpl.
  apply Forall_fmap, Forall_forall. intros u _. simpl.
  destruct (Rlt_dec u p); [now right | now left].
Qed.

Lemma draw_masks_binary (p : R) (sizes : list (list nat)) :
  forall srng,
  exists masks srng',
    draw_masks srng p sizes = Ok (masks, srng') /\
    Forall2 (fun mk size => exists a, mk = Some a /\ shape a = size /\ Forall binary (data a))
            masks sizes.
Proof.
  induction sizes as [|size sizes IH]; intros srng.
  - exists [], srng. split; [reflexivity | constructor].
  - destruct (srng_binomial_binary srng p size) as (a & srng1 & Hdraw & Hshape & Hbin).
    destruct (IH srng1) as (masks & srng2 & Hrest & Hall).
    exists (Some a :: masks), srng2. split.
    + cbn [draw_masks]. rewrite Hdraw. cbn [mbind result_bind]. rewrite Hrest.
      reflexivity.
    + constructor; [| exact Hall]. now exists a.
Qed.

(** C5.  For a dropout rate strictly between 0 and 1, with mask mode
    'dropout', or mode 'none' (also when [mask] is left [None]), the
    construction succeeds, the rescale factor [mass] is [1 / (1 - dropout)],
    and there is one mask per source, of the source's width (times the
    depth when that exceeds one), whose entries are all 0 or 1. *)
Theorem dropout_masks_binary_and_mass (MRG_RandomStreams : Z -> RandomState)
    (layer_depth : nat) (mask0 : option string) (dropout : R)
    (sources_n_out : list nat) (rng : RandomState) :
  (0 < dropout < 1)%R ->
  mask0 = Some "dropout" \/ mask0 = Some "none" \/ mask0 = None ->
  exists masks rng',
    Layer_init_masks MRG_RandomStreams layer_depth mask0 dropout sources_n_out rng
      = Ok ((1 / (1 - dropout))%R, masks, rng') /\
    Forall2 (fun mk n_out =>
               exists a, mk = Some a /\
                 shape a = (if (1 <? layer_depth)%nat then [n_out; layer_depth] else [n_out]) /\
                 Forall binary (data a))
            masks sources_n_out.
Proof.
  intros [Hlo Hhi] Hmode. unfold Layer_init_masks.
  assert (Hvalid : bool_decide (default "none" mask0 ∈ ["dropout"; "unity"; "none"]) = true).
  { destruct Hmode as [-> | [-> | ->]]; reflexivity. }
  rewrite Hvalid. cbn [negb].
  destruct (Rlt_dec 0 dropout) as [_ | Hn]; [| contradiction].
  destruct (Rlt_dec dropout 1) as [_ | Hn]; [| contradiction].
  assert (Hgate : String.eqb (default "none" mask0) "dropout"
                  || String.eqb (default "none" mask0) "none" && true = true).
  { destruct Hmode as [-> | [-> | ->]]; reflexivity. }
  rewrite Hgate. cbn [andb].
  destruct (rng_randint rng 1234) as [seed rng'].
  destruct (draw_masks_binary (1 - dropout)
              ((fun n_out => if (1 <? layer_depth)%nat then [n_out; layer_depth] else [n_out])
                 <$> sources_n_out) (MRG_RandomStreams (seed + 1)%Z))
    as (masks & srng' & Hdraw & Hall).
  rewrite Hdraw. exists masks, rng'. split; [reflexivity |].
  apply Forall2_fmap_r in Hall. exact Hall.
Qed.

Lemma dropout_masks_binary_and_mass_witness :
  exists masks rng',
    Layer_init_masks (fun _ => half_stream) 1 (Some "dropout") (1 / 2)%R [3; 2]%nat half_stream
      = Ok ((1 / (1 - 1 / 2))%R, masks, rng') /\
    Forall2 (fun mk n_out =>
               exists a, mk = Some a /\ shape a = [n_out] /\ Forall binary (data a))
            masks [3; 2]%nat.
Proof.
  apply (dropout_masks_binary_and_mass (fun _ => half_stream) 1 (Some "dropout")
           (1 / 2)%R [3; 2]%nat half_stream).
  - lra.
  - now left.
Defined.

(** ** Tensors *)

Lemma tmap_tmap (f g : R -> R) (t : tensor) :
  tmap f (tmap g t) = tmap (fun x => f (g x)) t.
Proof.
  induction t as [x | ts IH] using tensor_ind_nested; simpl; [reflexivity |].
  f_equal. rewrite <- list_fmap_compose.
  apply Forall_fmap_ext_1. exact IH.
Qed.

Lemma tmap_id (f : R -> R) (t : tensor) :
  (forall x, f x = x) -> tmap f t = t.
Proof.
  intros Hf. induction t as [x | ts IH] using tensor_ind_nested; simpl.
  - now rewrite Hf.
  - f_equal. rewrite <- (list_fmap_id ts) at 2.
    apply Forall_fmap_ext_1. exact IH.
Qed.

Lemma T_sum_mean (axis d : nat) :
  (0 < d)%nat ->
  forall x : tensor, axis_length axis d x ->
  T_sum axis x = tmap (fun v => v * INR d)%R (T_mean axis x).
Proof.
  intros Hd. assert (Hd' : INR d <> 0%R) by (apply not_0_INR; lia).
  unfold T_sum, T_mean.
  induction axis as [|k IH]; intros [x | ts] Hlen; simpl in Hlen; try contradiction.
  - simpl. unfold mean_list_t. rewrite Hlen, tmap_tmap.
    symmetry. apply tmap_id. intros v. now field.
  - simpl. f_equal. rewrite <- list_fmap_compose.
    apply Forall_fmap_ext_1. eapply Forall_impl; [exact Hlen |].
    intros t Ht. simpl. now apply IH.
Qed.

Example T_sum_ensemble :
  T_sum 2 ensemble_output = Nd [Nd [Nd [Sc (1 + 3); Sc (2 + 6)]]]%R.
Proof. reflexivity. Qed.

Example T_mean_ensemble :
  T_mean 2 ensemble_output
  = Nd [Nd [Nd [Sc ((1 + 3) / INR 2); Sc ((2 + 6) / INR 2)]]]%R.
Proof. reflexivity. Qed.

Section Consensus.
Variable T_tensordot : tensor -> tensor -> nat -> nat -> result tensor.
Variable ev : string -> Container R -> string -> SharedVariable R
              -> option (SharedVariable R).

(** C8.  For a tensor whose axis [axis] has [d > 1] slices everywhere, the
    'sum' consensus equals the 'mean' consensus multiplied entry by entry
    by [d]; neither touches the layer or the random state. *)
Theorem make_consensus_sum_mean (c : Container R) (rng : RandomState)
    (x : tensor) (axis d : nat) :
  (1 < d)%nat ->
  axis_length axis d x ->
  let c_sum := set_attr c "consensus" (VStr "sum") in
  let c_mean := set_attr c "consensus" (VStr "mean") in
  exists s m : tensor,
    make_consensus T_tensordot ev c_sum rng x axis = Ok (s, c_sum, rng) /\
    make_consensus T_tensordot ev c_mean rng x axis = Ok (m, c_mean, rng) /\
    s = tmap (fun v => v * INR d)%R m.
Proof.
  intros Hd Hlen c_sum c_mean.
  exists (T_sum axis x), (T_mean axis x).
  split; [| split].
  - unfold make_consensus, attr. subst c_sum. simpl.
    now rewrite lookup_insert_eq.
  - unfold make_consensus, attr. subst c_mean. simpl.
    now rewrite lookup_insert_eq.
  - apply T_sum_mean; [lia | exact Hlen].
Qed.

End Consensus.

Lemma make_consensus_sum_mean_witness :
  exists s m : tensor,
    make_consensus (fun _ _ _ _ => Raise (ValueError EmptyString)) (fun _ _ _ _ => None)
      (set_attr plain_layer "consensus" (VStr "sum")) half_stream ensemble_output 2
      = Ok (s, set_attr plain_layer "consensus" (VStr "sum"), half_stream) /\
    make_consensus (fun _ _ _ _ => Raise (ValueError EmptyString)) (fun _ _ _ _ => None)
      (set_attr plain_layer "consensus" (VStr "mean")) half_stream ensemble_output 2
      = Ok (m, set_attr plain_layer "consensus" (VStr "mean"), half_stream) /\
    s = tmap (fun v => v * INR 2)%R m.
Proof.
  apply (make_consensus_sum_mean (fun _ _ _ _ => Raise (ValueError EmptyString))
           (fun _ _ _ _ => None) plain_layer half_stream ensemble_output 2 2).
  - lia.
  - simpl. repeat constructor.
Defined.

(** ** The output pipeline *)

Section MakeOutput.
Variable Source : Type.
Variable concat_sources : list Source -> tensor * nat.
Variable create_forward_weights :
  Container R -> RandomState -> nat -> nat -> string
  -> result (SharedVariable R * RandomState).
Variable T_tensordot : tensor -> tensor -> nat -> nat -> result tensor.
Variable ev : string -> Container R -> string -> SharedVariable R
              -> option (SharedVariable R).
Variable MRG_RandomStreams : Z -> RandomState.

Lemma same_settings_refl (c : Container R) : same_settings c c.
Proof. repeat split. Qed.

Lemma same_settings_trans (c1 c2 c3 : Container R) :
  same_settings c1 c2 -> same_settings c2 c3 -> same_settings c1 c3.
Proof.
  intros (Ht & Hd & Hn & Ha) (Ht' & Hd' & Hn' & Ha').
  repeat split; try congruence. intros k Hk. now rewrite Ha', Ha.
Qed.

Lemma add_param_same_settings (c : Container R) (w : SharedVariable R) (nm : string) :
  same_settings c (snd (add_param ev c w nm)).
Proof.
  unfold add_param.
  destruct (network_substitute c _ w); [apply same_settings_refl |].
  destruct (expr_substitute ev c _ w); [apply same_settings_refl |].
  repeat split.
Qed.

Lemma set_attr_n_out_same_settings (c : Container R) (v : attr_value) :
  same_settings c (set_attr c "n_out" v).
Proof.
  repeat split. intros k Hk. simpl. now rewrite lookup_insert_ne.
Qed.

Lemma make_consensus_same_settings (c c' : Container R) (rng rng' : RandomState)
    (x r : tensor) (axis : nat) :
  make_consensus T_tensordot ev c rng x axis = Ok (r, c', rng') ->
  same_settings c c'.
Proof.
  unfold make_consensus. intros Hm.
  destruct (attr c "consensus") as [v | e]; cbn [mbind result_bind] in Hm; [| discriminate].
  destruct v; try discriminate.
  repeat match type of Hm with
         | (if ?b then _ else _) = _ => destruct b
         end;
    try (inversion Hm; subst; apply same_settings_refl); try discriminate.
  - destruct (attr c "n_out") as [n_out_v | e]; cbn [mbind result_bind] in Hm; [| discriminate].
    destruct (dimension n_out_v) as [n_out | e]; cbn [mbind result_bind] in Hm; [| discriminate].
    destruct (create_random_uniform_weights _ _ _ _ _ _ _ _ _) as [[w rng1] | e];
      cbn [mbind result_bind] in Hm; [| discriminate].
    pose proof (add_param_same_settings c w EmptyString) as Hsame.
    destruct (add_param ev c w EmptyString) as [p c1]. simpl in Hsame.
    destruct (T_tensordot _ _ _ _); cbn [mbind result_bind] in Hm; [| discriminate].
    now inversion Hm; subst.
  - destruct (rng_random_integers rng (depth c)) as [idx rng1].
    destruct (axis <=? 3)%nat; [| discriminate].
    destruct (take_axis axis idx x); cbn [mbind result_bind] in Hm; [| discriminate].
    inversion Hm; subst. apply same_settings_refl.
Qed.

Lemma batch_norm_same_settings (c : Container R) (h : tensor) (h_name : string)
    (dim : nat) :
  same_settings c (snd (batch_norm ev c h h_name dim)).
Proof.
  unfold batch_norm.
  pose proof (add_param_same_settings c
                (shared (mk_ndarray [dim] (replicate dim (0 + 1 / 10)%R)) (h_name ++ "_gamma"))
                EmptyString) as H1.
  destruct (add_param ev c _ EmptyString) as [gamma c1]. simpl in H1.
  pose proof (add_param_same_settings c1
                (shared (mk_ndarray [dim] (replicate dim 0%R)) (h_name ++ "_beta"))
                EmptyString) as H2.
  destruct (add_param ev c1 _ EmptyString) as [beta c2]. simpl in H2. simpl.
  now apply (same_settings_trans c c1 c2).
Qed.

Lemma consensus_stage_same_settings (c c1 : Container R) (rng rng1 : RandomState)
    (output o1 : tensor) (output_name name1 : string) (collapse : bool) :
  consensus_stage T_tensordot ev c rng output output_name collapse
    = Ok (o1, c1, rng1, name1) ->
  same_settings c c1.
Proof.
  unfold consensus_stage. intros H1.
  destruct (collapse && (1 <? depth c)%nat).
  - destruct (make_consensus _ _ c rng output 2) as [[[o0 c'] rng'] | e] eqn:Hc;
      cbn [mbind result_bind] in H1; [| discriminate].
    apply make_consensus_same_settings in Hc.
    destruct (attr c' "consensus") as [cns | e]; cbn [mbind result_bind] in H1;
      [| discriminate].
    destruct (is_str cns "flat").
    + destruct (attr c' "n_out") as [n_out_v | e]; cbn [mbind result_bind] in H1;
        [| discriminate].
      destruct n_out_v; try discriminate; cbn [mbind result_bind] in H1;
        inversion H1; subst;
        (eapply same_settings_trans; [exact Hc | apply set_attr_n_out_same_settings]).
    + cbn [mbind result_bind] in H1. now inversion H1; subst.
  - inversion H1. apply same_settings_refl.
Qed.

Lemma batch_norm_stage_same_settings (c c2 : Container R) (h o2 : tensor)
    (h_name : string) :
  batch_norm_stage ev c h h_name = Ok (o2, c2) -> same_settings c c2.
Proof.
  unfold batch_norm_stage. intros H2.
  destruct (attr c "batch_norm") as [bn | e]; cbn [mbind result_bind] in H2;
    [| discriminate].
  destruct (truthy bn).
  - destruct (attr c "n_out") as [n_out_v | e]; cbn [mbind result_bind] in H2;
      [| discriminate].
    destruct (dimension n_out_v) as [dim | e]; cbn [mbind result_bind] in H2;
      [| discriminate].
    inversion H2 as [Hbn].
    pose proof (batch_norm_same_settings c h h_name dim) as Hb.
    now rewrite Hbn in Hb.
  - inversion H2. apply same_settings_refl.
Qed.

Lemma output_before_layer_drop_same_settings (c c3 : Container R)
    (rng rng3 : RandomState) (sources : list Source) (output o : tensor)
    (output_name : string) (collapse : bool) :
  output_before_layer_drop concat_sources T_tensordot ev c rng sources output
    output_name collapse = Ok (o, c3, rng3) ->
  same_settings c c3.
Proof.
  unfold output_before_layer_drop. intros Hm.
  destruct (consensus_stage _ _ c rng output output_name collapse)
    as [[[[o1 c1] rng1] name1] | e] eqn:H1;
    cbn [mbind result_bind] in Hm; [| discriminate].
  destruct (batch_norm_stage ev c1 o1 name1) as [[o2 c2] | e] eqn:H2;
    cbn [mbind result_bind] in Hm; [| discriminate].
  destruct (residual_stage concat_sources c2 sources o2) as [o3 | e];
    cbn [mbind result_bind] in Hm; [| discriminate].
  inversion Hm; subst.
  eapply same_settings_trans.
  - eapply consensus_stage_same_settings, H1.
  - eapply batch_norm_stage_same_settings, H2.
Qed.

Lemma layer_drop_source_same_settings (c c' : Container R)
    (rng rng' : RandomState) (sources : list Source) (z : tensor)
    (log : list log_line) :
  layer_drop_source concat_sources create_forward_weights ev c rng sources
    = Ok (z, c', rng', log) ->
  same_settings c c'.
Proof.
  unfold layer_drop_source. intros Hm.
  destruct (concat_sources sources) as [z0 n_in].
  destruct (attr c "n_out") as [n_out_v | e]; cbn [mbind result_bind] in Hm;
    [| discriminate].
  destruct (py_eq_int n_in n_out_v).
  { inversion Hm; subst. apply same_settings_refl. }
  destruct (0 <? n_in)%nat.
  - destruct (dimension n_out_v) as [dim | e]; cbn [mbind result_bind] in Hm;
      [| discriminate].
    destruct (create_forward_weights c rng n_in dim _) as [[w rng1] | e];
      cbn [mbind result_bind] in Hm; [| discriminate].
    pose proof (add_param_same_settings c w EmptyString) as Hs.
    destruct (add_param ev c w EmptyString) as [W_drop c1]. simpl in Hs.
    now inversion Hm; subst.
  - inversion Hm; subst. apply same_settings_refl.
Qed.

Lemma make_output_inference_stage (c c3 c4 : Container R)
    (rng rng3 rng4 : RandomState) (sources : list Source)
    (output o z : tensor) (output_name : string) (collapse : bool)
    (ld : attr_value) (d : R) (log : list log_line) :
  train_flag c = false ->
  attrs c !! "layer_drop" = Some ld -> number ld = Ok d -> (0 < d)%R ->
  output_before_layer_drop concat_sources T_tensordot ev c rng sources output
    output_name collapse = Ok (o, c3, rng3) ->
  layer_drop_source concat_sources create_forward_weights ev c3 rng3 sources
    = Ok (z, c4, rng4, log) ->
  make_output concat_sources create_forward_weights T_tensordot ev
    MRG_RandomStreams c rng sources output output_name collapse
  = (out ← output_after_layer_drop c4 (inference_blend d z o);
     Ok (out, c4, rng4, log)).
Proof.
  intros Htrain Hld Hnum Hpos Hbefore Hsource.
  pose proof (output_before_layer_drop_same_settings _ _ _ _ _ _ _ _ _ Hbefore)
    as (Ht3 & _ & _ & Ha3).
  pose proof (layer_drop_source_same_settings _ _ _ _ _ _ _ Hsource)
    as (Ht4 & _ & _ & Ha4).
  unfold make_output. rewrite Hbefore. cbn [mbind result_bind].
  unfold attr at 1. rewrite (Ha3 "layer_drop") by discriminate. rewrite Hld.
  cbn [mbind result_bind]. rewrite Hnum. cbn [mbind result_bind].
  destruct (Rlt_dec 0 d) as [_ | Hn]; [| contradiction].
  rewrite Hsource. cbn [mbind result_bind].
  unfold layer_drop_blend. rewrite Ht4, Ht3, Htrain. reflexivity.
Qed.

(** C6 (as amended).  With the training flag off and [layer_drop = d > 0],
    if the earlier stages compute [o] and the skip path is [z] (the
    concatenated sources, projected when their width differs from
    [n_out]), then [make_output] applies the sparse argmax and the
    sparse-filtering normalisation, where configured, to
    [d * z + (1 - d) * o]; when neither is configured that blend is the
    final output. *)
Theorem make_output_layer_drop_inference (c c3 c4 : Container R)
    (rng rng3 rng4 : RandomState) (sources : list Source)
    (output o z : tensor) (output_name : string) (collapse : bool)
    (ld : attr_value) (d : R) (log : list log_line) :
  train_flag c = false ->
  attrs c !! "layer_drop" = Some ld -> number ld = Ok d -> (0 < d)%R ->
  output_before_layer_drop concat_sources T_tensordot ev c rng sources output
    output_name collapse = Ok (o, c3, rng3) ->
  layer_drop_source concat_sources create_forward_weights ev c3 rng3 sources
    = Ok (z, c4, rng4, log) ->
  make_output concat_sources create_forward_weights T_tensordot ev
    MRG_RandomStreams c rng sources output output_name collapse
  = (out ← output_after_layer_drop c4 (inference_blend d z o);
     Ok (out, c4, rng4, log))
  /\ (forall sp sf,
        attrs c !! "sparse" = Some sp -> truthy sp = false ->
        attrs c !! "sparse_filtering" = Some sf -> truthy sf = false ->
        make_output concat_sources create_forward_weights T_tensordot ev
          MRG_RandomStreams c rng sources output output_name collapse
        = Ok (inference_blend d z o, c4, rng4, log)).
Proof.
  intros Htrain Hld Hnum Hpos Hbefore Hsource.
  pose proof (make_output_inference_stage _ _ _ _ _ _ _ _ _ _ _ _ _ _ _
                Htrain Hld Hnum Hpos Hbefore Hsource) as Hmain.
  pose proof (output_before_layer_drop_same_settings _ _ _ _ _ _ _ _ _ Hbefore)
    as (_ & _ & _ & Ha3).
  pose proof (layer_drop_source_same_settings _ _ _ _ _ _ _ Hsource)
    as (_ & _ & _ & Ha4).
  split; [exact Hmain |].
  intros sp sf Hsp Hspf Hsf Hsff. rewrite Hmain.
  unfold output_after_layer_drop, attr.
  rewrite (Ha4 "sparse"), (Ha3 "sparse"), Hsp by discriminate.
  cbn [mbind result_bind]. rewrite Hspf.
  rewrite (Ha4 "sparse_filtering"), (Ha3 "sparse_filtering"), Hsf by discriminate.
  cbn [mbind result_bind]. now rewrite Hsff.
Qed.

End MakeOutput.

Lemma make_output_layer_drop_inference_witness :
  make_output (Source := unit) (fun _ => (skip_input, 2%nat)) no_weights no_tensordot
    no_substitute (fun _ => half_stream) (drop_layer false) half_stream [tt]
    computed_output "output" true
  = Ok (inference_blend (3 / 10) skip_input computed_output,
        drop_layer false, half_stream, []).
Proof.
  destruct (make_output_layer_drop_inference unit (fun _ => (skip_input, 2%nat))
              no_weights no_tensordot no_substitute (fun _ => half_stream)
              (drop_layer false) (drop_layer false) (drop_layer false)
              half_stream half_stream half_stream [tt]
              computed_output computed_output skip_input "output" true
              (VFloat (3 / 10)) (3 / 10)%R [])
    as [_ Hfinal]; try reflexivity.
  - lra.
  - apply (Hfinal (VBool false) (VBool false)); reflexivity.
Defined.

(** With [d = 0.3] the blend is [0.3 * z + 0.7 * computed_output], entry
    by entry. *)
Example inference_blend_literal :
  inference_blend (3 / 10) skip_input computed_output
  = Nd [Nd [Nd [Sc (3 / 10 * 1 + 7 / 10 * 10); Sc (3 / 10 * 3 + 7 / 10 * 20)]]]%R.
Proof. cbn. repeat f_equal; lra. Qed.

(** C6 (as stated) fails for a layer with sparse output: the final output
    is the argmax over the features of the blend, a tensor with a single
    entry per frame, not the blend. *)
Lemma make_output_layer_drop_then_argmax :
  exists final : tensor,
    make_output (Source := unit) (fun _ => (skip_input, 2%nat)) no_weights no_tensordot
      no_substitute (fun _ => half_stream) (drop_layer true) half_stream [tt]
      computed_output "output" true
    = Ok (final, drop_layer true, half_stream, [])
    /\ final <> inference_blend (3 / 10) skip_input computed_output.
Proof.
  exists (T_argmax_last (inference_blend (3 / 10) skip_input computed_output)).
  split.
  - rewrite (make_output_inference_stage unit (fun _ => (skip_input, 2%nat))
               no_weights no_tensordot no_substitute (fun _ => half_stream)
               (drop_layer true) (drop_layer true) (drop_layer true)
               half_stream half_stream half_stream [tt]
               computed_output computed_output skip_input "output" true
               (VFloat (3 / 10)) (3 / 10)%R []); try reflexivity.
    lra.
  - cbn. discriminate.
Qed.

(** ** Recurrent units *)

Lemma matrix_shape_lookup (r k : nat) (m : matrix) (i : nat) :
  matrix_shape r k m -> (i < r)%nat ->
  exists row, m !! i = Some row /\ length row = k.
Proof.
  intros [Hr Hk] Hi. destruct (lookup_lt_is_Some_2 m i) as [row Hrow]; [lia |].
  exists row. split; [exact Hrow |].
  exact (proj1 (Forall_lookup _ m) Hk i row Hrow).
Qed.

Lemma matrix_shape_ncols (r k : nat) (m : matrix) :
  matrix_shape r k m -> (0 < r)%nat -> ncols m = k.
Proof.
  intros [Hr Hk] Hpos. unfold ncols. destruct m as [|row m]; simpl in *; [lia |].
  now inversion Hk.
Qed.

Lemma mmap_shape (f : R -> R) (r k : nat) (m : matrix) :
  matrix_shape r k m -> matrix_shape r k (mmap f m).
Proof.
  intros [Hr Hk]. unfold mmap. split; [now rewrite length_fmap |].
  apply Forall_fmap. eapply Forall_impl; [exact Hk |].
  intros row Hrow. simpl in *. now rewrite length_fmap.
Qed.

Lemma mzip_shape (f : R -> R -> R) (r k : nat) (a b : matrix) :
  matrix_shape r k a -> matrix_shape r k b -> matrix_shape r k (mzip f a b).
Proof.
  intros [Hra Hka] [Hrb Hkb]. unfold mzip. split.
  - rewrite length_zip_with. lia.
  - apply Forall_lookup. intros i row Hrow.
    apply lookup_zip_with_Some in Hrow as (ra & rb & -> & Ha & Hb).
    rewrite length_zip_with.
    rewrite (proj1 (Forall_lookup _ a) Hka i ra Ha).
    rewrite (proj1 (Forall_lookup _ b) Hkb i rb Hb). lia.
Qed.

Lemma slice_cols_shape (r w k lo hi : nat) (m : matrix) :
  matrix_shape r w m -> (lo <= hi)%nat -> (hi <= w)%nat -> k = (hi - lo)%nat ->
  matrix_shape r k (slice_cols lo hi m).
Proof.
  intros [Hr Hk] Hlo Hhi ->. unfold slice_cols. split; [now rewrite length_fmap |].
  apply Forall_fmap. eapply Forall_impl; [exact Hk |].
  intros row Hrow. simpl in *. rewrite length_take, length_drop. lia.
Qed.

Lemma vdot_length (row : list R) (b : matrix) :
  Forall (fun r => length r = ncols b) b -> length (vdot row b) = ncols b.
Proof.
  intros Hb. unfold vdot. generalize (ncols b) Hb. clear Hb. intros w Hb.
  revert row. induction b as [|r b IH]; intros row.
  - destruct row; simpl; now rewrite length_replicate.
  - destruct row as [|x row]; simpl; [now rewrite length_replicate |].
    inversion Hb as [|? ? Hr Hb']; subst.
    rewrite length_zip_with, length_fmap, (IH Hb' row). lia.
Qed.

Lemma mdot_shape (r n w : nat) (a b : matrix) :
  length a = r -> matrix_shape n w b -> (n = 0%nat -> w = 0%nat) ->
  matrix_shape r w (mdot a b).
Proof.
  intros Ha [Hn Hw] Hdeg. unfold mdot.
  assert (Hcols : ncols b = w).
  { destruct b as [|row b]; simpl in *.
    - symmetry. apply Hdeg. now symmetry.
    - unfold ncols. simpl. now inversion Hw. }
  split; [now rewrite length_fmap |].
  apply Forall_fmap, Forall_forall. intros row _. simpl.
  rewrite vdot_length; [exact Hcols |]. now rewrite Hcols.
Qed.

Lemma outer_lookup (u v : vector) (i : nat) (x : R) :
  u !! i = Some x -> outer u v !! i = Some (Rmult x <$> v).
Proof. intros Hx. unfold outer. now rewrite list_lookup_fmap, Hx. Qed.

(** A row of the cell state blended with indicator 0 is the previous row. *)
Lemma masked_cell_row (n : nat) (ct cp : list R) :
  length ct = n -> length cp = n ->
  zip_with Rplus
    (zip_with Rmult ct (Rmult 0 <$> replicate n 1%R))
    (zip_with Rmult cp ((fun x => 1 - x)%R <$> (Rmult 0 <$> replicate n 1%R)))
  = cp.
Proof.
  revert ct cp. induction n as [|n IH]; intros ct cp Hct Hcp.
  - destruct cp; [| discriminate]. now destruct ct.
  - destruct ct as [|a ct]; [discriminate |]. destruct cp as [|b cp]; [discriminate |].
    simpl. f_equal; [ring |]. apply IH; simpl in *; lia.
Qed.

(** A row of the output multiplied by indicator 0 is zero. *)
Lemma masked_output_row (n : nat) (yt : list R) :
  length yt = n ->
  zip_with Rmult yt (Rmult 0 <$> replicate n 1%R) = replicate n 0%R.
Proof.
  revert yt. induction n as [|n IH]; intros yt Hyt.
  - now destruct yt.
  - destruct yt as [|a yt]; [discriminate |].
    simpl. f_equal; [ring |]. apply IH. simpl in *. lia.
Qed.

Lemma mzip_lookup (f : R -> R -> R) (a b : matrix) (i : nat) (ra rb : list R) :
  a !! i = Some ra -> b !! i = Some rb ->
  mzip f a b !! i = Some (zip_with f ra rb).
Proof. intros Ha Hb. unfold mzip. now rewrite lookup_zip_with, Ha, Hb. Qed.

Lemma mmap_lookup (f : R -> R) (a : matrix) (i : nat) (ra : list R) :
  a !! i = Some ra -> mmap f a !! i = Some (f <$> ra).
Proof. intros Ha. unfold mmap. now rewrite list_lookup_fmap, Ha. Qed.

(** The rows of the two states that a step returns for batch row [b],
    whose index flag is [v]: the candidate rows [yt_b] and [ct_b] weighted
    by the flag, the old cell row by its complement. *)
Lemma LSTME_step_rows (rt : option RecurrentTransform) (n batch : nat)
    (W_re : matrix) (i_t : vector) (x_t z_t y_p c_p : matrix)
    (other_args : list matrix) (b : nat) (v : R) :
  LSTME_shapes rt n batch W_re i_t z_t y_p c_p other_args ->
  i_t !! b = Some v ->
  exists (y' c' : matrix) (others : list matrix) (yt_b ct_b cp_b : list R),
    LSTME_step rt n W_re i_t x_t z_t (y_p :: c_p :: other_args)
      = Ok (y' :: c' :: others) /\
    c_p !! b = Some cp_b /\
    length yt_b = n /\ length ct_b = n /\ length cp_b = n /\
    y' !! b = Some (zip_with Rmult yt_b (Rmult v <$> replicate n 1%R)) /\
    c' !! b = Some (zip_with Rplus
                      (zip_with Rmult ct_b (Rmult v <$> replicate n 1%R))
                      (zip_with Rmult cp_b
                         ((fun x => 1 - x)%R <$> (Rmult v <$> replicate n 1%R)))).
Proof.
  intros (Hi & Hz & Hy & Hc & HW & Hrt) Hb.
  assert (Hbatch : (b < batch)%nat).
  { rewrite <- Hi. now apply lookup_lt_Some in Hb. }
  unfold LSTME_step.
  set (pre := match rt with
              | Some t =>
                  let (z_r, r_updates) :=
                    transform_step t (take (n_state_vars t) other_args) y_p in
                  (madd z_t z_r, r_updates)
              | None => (z_t, [])
              end).
  assert (Hpre : matrix_shape batch (4 * n) (fst pre)).
  { subst pre. destruct rt as [t |]; [| exact Hz].
    specialize (Hrt t eq_refl).
    destruct (transform_step t _ y_p) as [z_r upd]. simpl in *.
    now apply mzip_shape. }
  destruct pre as [z_t1 other_outputs]. simpl in Hpre.
  set (z_t2 := madd z_t1 (mdot y_p W_re)).
  assert (Hz2 : matrix_shape batch (4 * n) z_t2).
  { apply mzip_shape; [exact Hpre |].
    apply (mdot_shape batch n (4 * n)); [apply Hy | exact HW | lia]. }
  assert (Hpart : (ncols z_t2 / 4)%nat = n).
  { rewrite (matrix_shape_ncols batch (4 * n) z_t2 Hz2) by lia.
    rewrite Nat.mul_comm. apply Nat.div_mul. lia. }
  rewrite Hpart.
  set (ingate := mmap sigmoid (slice_cols 0 n z_t2)).
  set (forgetgate := mmap sigmoid (slice_cols n (2 * n) z_t2)).
  set (outgate := mmap sigmoid (slice_cols (2 * n) (3 * n) z_t2)).
  set (input := mmap tanh (slice_cols (3 * n) (4 * n) z_t2)).
  assert (Hgate : forall lo hi f, (lo <= hi)%nat -> (hi <= 4 * n)%nat ->
                    n = (hi - lo)%nat ->
                    matrix_shape batch n (mmap f (slice_cols lo hi z_t2))).
  { intros lo hi f Hlo Hhi Hn. apply mmap_shape.
    now apply (slice_cols_shape batch (4 * n)). }
  assert (Hin : matrix_shape batch n ingate) by (apply Hgate; lia).
  assert (Hfg : matrix_shape batch n forgetgate) by (apply Hgate; lia).
  assert (Hog : matrix_shape batch n outgate) by (apply Hgate; lia).
  assert (Hinp : matrix_shape batch n input) by (apply Hgate; lia).
  set (c_t := madd (mmul forgetgate c_p) (mmul ingate input)).
  assert (Hct : matrix_shape batch n c_t).
  { apply mzip_shape; apply mzip_shape; assumption. }
  set (y_t := mmul outgate (mmap tanh c_t)).
  assert (Hyt : matrix_shape batch n y_t).
  { apply mzip_shape; [exact Hog | now apply mmap_shape]. }
  destruct (matrix_shape_lookup _ _ _ b Hct Hbatch) as (ct_b & Hct_b & Hct_len).
  destruct (matrix_shape_lookup _ _ _ b Hyt Hbatch) as (yt_b & Hyt_b & Hyt_len).
  destruct (matrix_shape_lookup _ _ _ b Hc Hbatch) as (cp_b & Hcp_b & Hcp_len).
  pose proof (outer_lookup i_t (replicate n 1%R) b v Hb) as Hih.
  exists (mmul y_t (outer i_t (replicate n 1%R))),
    (madd (mmul c_t (outer i_t (replicate n 1%R)))
          (mmul c_p (mmap (fun x => 1 - x)%R (outer i_t (replicate n 1%R))))),
    other_outputs, yt_b, ct_b, cp_b.
  split; [reflexivity |]. repeat (split; [assumption |]). split.
  - now apply mzip_lookup.
  - apply mzip_lookup; [now apply mzip_lookup |].
    apply mzip_lookup; [exact Hcp_b |]. now apply mmap_lookup.
Qed.

(** C1 (as amended).  In one [LSTME.step] on well-shaped arguments, a
    batch row whose index flag is 0 keeps its cell state: that row of the
    new cell state equals the row of the incoming one.  The same row of the
    new output state is zero, whatever the incoming output state was. *)
Theorem LSTME_step_index_zero (rt : option RecurrentTransform) (n batch : nat)
    (W_re : matrix) (i_t : vector) (x_t z_t y_p c_p : matrix)
    (other_args : list matrix) (b : nat) :
  LSTME_shapes rt n batch W_re i_t z_t y_p c_p other_args ->
  i_t !! b = Some 0%R ->
  exists (y' c' : matrix) (others : list matrix),
    LSTME_step rt n W_re i_t x_t z_t (y_p :: c_p :: other_args)
      = Ok (y' :: c' :: others) /\
    c' !! b = c_p !! b /\
    y' !! b = Some (replicate n 0%R).
Proof.
  intros Hshapes Hb.
  destruct (LSTME_step_rows rt n batch W_re i_t x_t z_t y_p c_p other_args b 0%R
              Hshapes Hb)
    as (y' & c' & others & yt_b & ct_b & cp_b
        & Hstep & Hcp & Hyt_len & Hct_len & Hcp_len & Hy & Hc).
  exists y', c', others. split; [exact Hstep |]. split.
  - rewrite Hc, Hcp. f_equal. now apply masked_cell_row.
  - rewrite Hy. f_equal. now apply masked_output_row.
Qed.

Lemma padded_step_shapes :
  LSTME_shapes None 1 2 recurrent_weights padded_index step_input
    output_state cell_state [].
Proof.
  unfold LSTME_shapes, matrix_shape.
  repeat split; try reflexivity; try (repeat constructor); discriminate.
Qed.

Lemma LSTME_step_index_zero_witness :
  exists (y' c' : matrix) (others : list matrix),
    LSTME_step None 1 recurrent_weights padded_index step_input step_input
      [output_state; cell_state] = Ok (y' :: c' :: others) /\
    c' !! 0%nat = Some [2%R] /\
    y' !! 0%nat = Some [0%R].
Proof.
  exact (LSTME_step_index_zero None 1 2 recurrent_weights padded_index step_input
           step_input output_state cell_state [] 0 padded_step_shapes eq_refl).
Defined.

(** C1 (as stated) fails for the output state: the padded row of the new
    output state is zero although the incoming row was 1. *)
Lemma LSTME_step_index_zero_clears_output :
  exists (y' c' : matrix) (others : list matrix),
    LSTME_step None 1 recurrent_weights padded_index step_input step_input
      [output_state; cell_state] = Ok (y' :: c' :: others) /\
    y' !! 0%nat <> output_state !! 0%nat.
Proof.
  destruct (LSTME_step_rows None 1 2 recurrent_weights padded_index step_input
              step_input output_state cell_state [] 0 0%R padded_step_shapes eq_refl)
    as (y' & c' & others & yt_b & ct_b & cp_b
        & Hstep & _ & Hyt_len & _ & _ & Hy & _).
  exists y', c', others. split; [exact Hstep |].
  rewrite Hy, (masked_output_row 1 yt_b Hyt_len). simpl.
  intros Heq. inversion Heq. lra.
Qed.

(** *** The vanilla unit under [scan] *)

Lemma scan_loop_VANILLA (z : list matrix) :
  forall (i : list vector) (xc : list matrix) (h0 h : matrix),
    length i = length z -> length xc = length z ->
    scan_loop VANILLA_step (zip (zip i xc) z) [h0] [h]
    = Ok ((fun m => [m]) <$> vanilla_run z h0).
Proof.
  induction z as [|z_t z IH]; intros i xc h0 h Hi Hxc.
  - destruct i; [| discriminate]. reflexivity.
  - destruct i as [|i_t i]; [discriminate |].
    destruct xc as [|x_t xc]; [discriminate |].
    simpl. rewrite IH by (simpl in *; lia). reflexivity.
Qed.

Lemma omap_singleton_head (ms : list matrix) :
  omap (fun outs : list matrix => outs !! 0%nat) ((fun m => [m]) <$> ms) = ms.
Proof.
  induction ms as [|m ms IH]; [reflexivity |]. simpl. f_equal. exact IH.
Qed.

Lemma output_sequences_single (ms : list matrix) :
  output_sequences 1 ((fun m => [m]) <$> ms) = [ms].
Proof.
  unfold output_sequences. cbn [seq fmap list_fmap]. f_equal.
  apply omap_singleton_head.
Qed.

(** When the fifth parameter of [VANILLA.step] is supplied as the single
    non-sequence, the forward scan from [h0] is the recurrence
    [h_t = tanh (z_t + h_(t-1))]; the index plays no part. *)
Lemma Unit_scan_VANILLA_with_non_sequence (z : list matrix) (i : list vector)
    (h0 h : matrix) :
  length i = length z ->
  Unit_scan VANILLA_step [] z [h] i [h0] false = Ok [vanilla_run z h0].
Proof.
  intros Hi. unfold Unit_scan, theano_scan.
  rewrite scan_loop_VANILLA by auto. cbn [mbind result_bind].
  now rewrite output_sequences_single.
Qed.

Lemma Unit_scan_VANILLA_with_non_sequence_witness :
  Unit_scan VANILLA_step [] [[[1; 2]]; [[3; 4]]]%R [[[0; 0]]]%R [[1]; [1]]%R
    [zeros 1 2] false
  = Ok [vanilla_run [[[1; 2]]; [[3; 4]]]%R (zeros 1 2)].
Proof.
  apply (Unit_scan_VANILLA_with_non_sequence [[[1; 2]]; [[3; 4]]]%R [[1]; [1]]%R
           (zeros 1 2) [[0; 0]]%R).
  reflexivity.
Defined.

(** As [RecurrentUnitLayer] calls it, with the initial states as the only
    arguments after the sequences, the step is short of one argument (or,
    with one transform state, returns too few outputs): the scan raises as
    soon as there is a time step. *)
Lemma RecurrentUnitLayer_scan_VANILLA_raises (n_out : nat)
    (xc0 z0 : matrix) (i0 : vector) (xc z : list matrix) (i : list vector)
    (transform_initial : list matrix) (go_backwards : bool) :
  raised (theano_scan VANILLA_step (i0 :: i) (xc0 :: xc) (z0 :: z) []
            (replicate 1 (zeros (length i0) n_out) ++ transform_initial)%list
            go_backwards).
Proof.
  unfold theano_scan.
  assert (Hloop : forall slices : list (vector * matrix * matrix),
             slices <> [] ->
             raised (scan_loop VANILLA_step slices
                       (replicate 1 (zeros (length i0) n_out) ++ transform_initial)%list
                       [])).
  { intros [|[[i_t x_t] z_t] slices] Hne; [congruence |].
    destruct transform_initial as [|s1 [|s2 rest]]; simpl; exact I. }
  assert (Hne : zip (zip (i0 :: i) (xc0 :: xc)) (z0 :: z) <> []) by discriminate.
  destruct go_backwards.
  - assert (Hrev : zip (zip (reverse (i0 :: i)) (reverse (xc0 :: xc))) (reverse (z0 :: z))
                   <> []).
    { intros Hnil. apply (f_equal length) in Hnil.
      rewrite !length_zip, !length_reverse in Hnil. discriminate. }
    specialize (Hloop _ Hrev).
    destruct (scan_loop _ _ _ _); [contradiction | exact I].
  - specialize (Hloop _ Hne).
    destruct (scan_loop _ _ _ _); [contradiction | exact I].
Qed.

(** C2: the scenario of the claim on the code.  A vanilla unit of four
    cells over three frames of two sequences, all-ones index and zero
    initial state, scanned the way the layer scans it: the first call of
    the step raises [TypeError], so no output sequence is produced.  The
    recurrence of the claim is what [Unit_scan_VANILLA_with_non_sequence]
    shows once the missing argument is supplied. *)
Theorem VANILLA_layer_scan_type_error :
  RecurrentUnitLayer_scan VANILLA_step 1 4
    [replicate 3 (replicate 2 [5; 6]%R)]
    (replicate 3 (replicate 2 [1; 2; 3; 4]%R))
    (replicate 3 [1; 1]%R) [] false
  = Raise (TypeError "step() takes exactly 6 arguments").
Proof. reflexivity. Qed.

(** * Further properties *)

(** ** Reading and writing the parameter dictionary *)

Lemma set_value_get_value {A} (sv : SharedVariable A) :
  set_value sv (get_value sv) = sv.
Proof. now destruct sv. Qed.

Lemma with_params_params {A} (c : Container A) : with_params c (params c) = c.
Proof. now destruct c. Qed.

Lemma set_params_loop_own {A} (items : list (string * ndarray A)) :
  forall ps,
    (forall p v, (p, v) ∈ items -> get_value <$> ps !! p = Some v) ->
    set_params_loop items ps = (Ok tt, ps).
Proof.
  induction items as [|[p v] items IH]; intros ps Hown; [reflexivity |].
  simpl. assert (Hp : get_value <$> ps !! p = Some v) by (apply Hown; left).
  destruct (ps !! p) as [sv|] eqn:Hsv; [| discriminate].
  simpl in Hp. inversion Hp; subst v.
  unfold shape_eqb. rewrite bool_decide_eq_true_2 by reflexivity.
  rewrite set_value_get_value, insert_id by exact Hsv.
  apply IH. intros q w Hin. apply Hown. now right.
Qed.

(** Writing back the dictionary that [get_params_dict] returned succeeds
    and leaves the layer as it was. *)
Theorem set_params_by_dict_get_params_dict {A} (c : Container A) :
  set_params_by_dict c (get_params_dict c) = (Ok tt, c).
Proof.
  unfold set_params_by_dict, get_params_dict.
  rewrite set_params_loop_own.
  - now rewrite with_params_params.
  - intros p v Hin. apply elem_of_map_to_list in Hin.
    now rewrite lookup_fmap in Hin.
Qed.

Lemma set_params_loop_frame {A} (items : list (string * ndarray A)) :
  forall ps p, p ∉ items.*1 -> (set_params_loop items ps).2 !! p = ps !! p.
Proof.
  induction items as [|[q v] items IH]; intros ps p Hp; [reflexivity |].
  rewrite fmap_cons in Hp. simpl in Hp. apply not_elem_of_cons in Hp as [Hpq Hp].
  simpl. destruct (ps !! q) as [sv|]; [| reflexivity].
  destruct (shape_eqb _ _); [| reflexivity].
  rewrite IH by exact Hp. now apply lookup_insert_ne.
Qed.

Lemma set_params_loop_ok {A} (items : list (string * ndarray A)) :
  forall ps,
    NoDup items.*1 ->
    (forall p v, (p, v) ∈ items ->
       exists sv, ps !! p = Some sv /\ shape (get_value sv) = shape v) ->
    (set_params_loop items ps).1 = Ok tt /\
    (forall p v sv, (p, v) ∈ items -> ps !! p = Some sv ->
       (set_params_loop items ps).2 !! p = Some (set_value sv v)).
Proof.
  induction items as [|[q w] items IH]; intros ps Hnd Hvalid.
  - split; [reflexivity |]. intros p v sv Hin. now apply elem_of_nil in Hin.
  - rewrite fmap_cons in Hnd. simpl in Hnd. apply NoDup_cons in Hnd as [Hq Hnd].
    assert (Hother : forall p v, (p, v) ∈ items -> q <> p).
    { intros p v Hin ->. apply Hq. apply list_elem_of_fmap. now exists (p, v). }
    destruct (Hvalid q w) as (sq & Hsq & Hshape); [left |].
    simpl. rewrite Hsq. unfold shape_eqb.
    rewrite bool_decide_eq_true_2 by exact Hshape.
    destruct (IH (<[q := set_value sq w]> ps) Hnd) as [Hok Hset].
    { intros p v Hin. destruct (Hvalid p v) as (sv & Hsv & Hs); [now right |].
      exists sv. split; [| exact Hs].
      rewrite lookup_insert_ne by eauto. exact Hsv. }
    split; [exact Hok |].
    intros p v sv Hin Hp. apply elem_of_cons in Hin as [Heq | Hin].
    + inversion Heq; subst p v. rewrite Hsq in Hp. inversion Hp; subst sv.
      rewrite set_params_loop_frame by exact Hq. apply lookup_insert_eq.
    + apply Hset; [exact Hin |]. rewrite lookup_insert_ne by eauto. exact Hp.
Qed.

(** When every entry of the dictionary names a parameter of the layer and
    has that parameter's shape, [set_params_by_dict] returns normally;
    afterwards [get_params_dict] yields the given arrays for the names of
    the dictionary and the former arrays for all other names, and every
    shared variable keeps its name. *)
Theorem set_params_by_dict_assigns {A} (c : Container A) (d : gmap string (ndarray A)) :
  (forall p v, d !! p = Some v ->
     exists sv, params c !! p = Some sv /\ shape (get_value sv) = shape v) ->
  (set_params_by_dict c d).1 = Ok tt /\
  get_params_dict (set_params_by_dict c d).2 = d ∪ get_params_dict c /\
  forall p, sv_name <$> params (set_params_by_dict c d).2 !! p
            = sv_name <$> params c !! p.
Proof.
  intros Hvalid. unfold set_params_by_dict.
  destruct (set_params_loop_ok (map_to_list d) (params c)) as [Hok Hset].
  { apply NoDup_fst_map_to_list. }
  { intros p v Hin. apply Hvalid. now apply elem_of_map_to_list. }
  pose proof (set_params_loop_frame (map_to_list d) (params c)) as Hframe.
  destruct (set_params_loop (map_to_list d) (params c)) as [r ps] eqn:Hloop.
  simpl in *. split; [exact Hok |].
  assert (Hlook : forall p, ps !! p =
            match d !! p with
            | Some v => (fun sv => set_value sv v) <$> params c !! p
            | None => params c !! p
            end).
  { intros p. destruct (d !! p) as [v|] eqn:Hd.
    - destruct (Hvalid p v Hd) as (sv & Hsv & _). rewrite Hsv. simpl.
      apply Hset; [| exact Hsv]. now apply elem_of_map_to_list.
    - apply Hframe. intros Hin. apply list_elem_of_fmap in Hin as ([q v] & -> & Hin).
      apply elem_of_map_to_list in Hin. simpl in Hd. congruence. }
  split.
  - unfold get_params_dict. simpl. apply map_eq. intros p.
    rewrite lookup_fmap, Hlook, lookup_union, lookup_fmap.
    destruct (d !! p) as [v|] eqn:Hd.
    + destruct (Hvalid p v Hd) as (sv & -> & _). reflexivity.
    + now destruct (params c !! p).
  - intros p. rewrite Hlook. destruct (d !! p) as [v|]; [| reflexivity].
    now destruct (params c !! p).
Qed.

Lemma set_params_by_dict_assigns_witness :
  (set_params_by_dict rec_layer {["b" := stored_b]}).1 = Ok tt /\
  get_params_dict (set_params_by_dict rec_layer {["b" := stored_b]}).2
  = {["b" := stored_b]} ∪ get_params_dict rec_layer.
Proof.
  destruct (set_params_by_dict_assigns rec_layer {["b" := stored_b]}) as (Hok & Hget & _).
  - intros p v Hp. apply lookup_singleton_Some in Hp as [<- <-].
    eexists. split; [reflexivity | reflexivity].
  - split; [exact Hok | exact Hget].
Defined.

Lemma set_params_loop_refuses {A} (items : list (string * ndarray A)) :
  forall ps,
    NoDup items.*1 ->
    (exists p v, (p, v) ∈ items /\
       match ps !! p with
       | Some sv => shape (get_value sv) <> shape v
       | None => True
       end) ->
    raised (set_params_loop items ps).1.
Proof.
  induction items as [|[q w] items IH]; intros ps Hnd (p & v & Hin & Hbad).
  - now apply elem_of_nil in Hin.
  - rewrite fmap_cons in Hnd. simpl in Hnd. apply NoDup_cons in Hnd as [Hq Hnd].
    simpl. destruct (ps !! q) as [sq|] eqn:Hsq; [| exact I].
    unfold shape_eqb. destruct (decide (shape (get_value sq) = shape w)) as [Hs | Hs].
    + rewrite bool_decide_eq_true_2 by exact Hs.
      apply elem_of_cons in Hin as [Heq | Hin].
      * inversion Heq; subst p v. rewrite Hsq in Hbad. contradiction.
      * apply IH; [exact Hnd |]. exists p, v. split; [exact Hin |].
        assert (Hne : q <> p).
        { intros ->. apply Hq. apply list_elem_of_fmap. now exists (p, v). }
        now rewrite lookup_insert_ne.
    + rewrite bool_decide_eq_false_2 by exact Hs. exact I.
Qed.

(** A dictionary with an entry under a name that the layer does not
    declare, or with an array whose shape differs from the declared
    parameter's, makes [set_params_by_dict] raise. *)
Theorem set_params_by_dict_refuses {A} (c : Container A) (d : gmap string (ndarray A))
    (p : string) (v : ndarray A) :
  d !! p = Some v ->
  (params c !! p = None \/
   exists sv, params c !! p = Some sv /\ shape (get_value sv) <> shape v) ->
  raised (set_params_by_dict c d).1.
Proof.
  intros Hd Hbad. unfold set_params_by_dict.
  pose proof (set_params_loop_refuses (map_to_list d) (params c)) as Hloop.
  destruct (set_params_loop (map_to_list d) (params c)) as [r ps]. simpl in *.
  apply Hloop; [apply NoDup_fst_map_to_list |].
  exists p, v. split; [now apply elem_of_map_to_list |].
  destruct Hbad as [-> | (sv & -> & Hs)]; [exact I | exact Hs].
Qed.

Lemma set_params_by_dict_refuses_witness :
  raised (set_params_by_dict rec_layer {["W_re" := stored_W_re_wide]}).1
  /\ raised (set_params_by_dict rec_layer {["W_out" := stored_b]}).1.
Proof.
  split.
  - apply (set_params_by_dict_refuses rec_layer _ "W_re" stored_W_re_wide).
    + apply lookup_singleton_eq.
    + right. eexists. split; [reflexivity | discriminate].
  - exact I.
Defined.

(** ** Counting and listing parameters *)

(** Registering a parameter under a name that is not yet in use, with no
    substitution in force, raises [num_params] by the number of entries
    of the parameter (the product of its dimensions). *)
Theorem num_params_add_param_fresh {A}
    (eval_substitute_param_expr :
       string -> Container A -> string -> SharedVariable A -> option (SharedVariable A))
    (c : Container A) (param : SharedVariable A) (name0 : string) :
  network_substitute c (param_name c param name0) param = None ->
  expr_substitute eval_substitute_param_expr c (param_name c param name0) param = None ->
  params c !! param_name c param name0 = None ->
  num_params (add_param eval_substitute_param_expr c param name0).2
  = (num_params c + shape_size (shape (get_value param)))%nat.
Proof.
  intros Hnet Hexpr Hfresh. unfold add_param. rewrite Hnet, Hexpr. simpl.
  unfold num_params. simpl.
  rewrite (map_to_list_insert _ _ _ Hfresh). rewrite fmap_cons. simpl.
  unfold shape_size. lia.
Qed.

Lemma num_params_add_param_fresh_witness :
  num_params (add_param (fun _ _ _ _ => None) rec_layer fresh_weights "W_proj").2
  = (num_params rec_layer + 4)%nat.
Proof.
  apply (num_params_add_param_fresh (fun _ _ _ _ => None) rec_layer fresh_weights "W_proj");
    reflexivity.
Defined.

Lemma insert_sorted_perm {V} (kv : string * V) (l : list (string * V)) :
  insert_sorted kv l ≡ₚ kv :: l.
Proof.
  induction l as [|kv' l IH]; simpl; [reflexivity |].
  destruct (String.leb kv.1 kv'.1); [reflexivity |].
  rewrite IH. apply Permutation_swap.
Qed.

Lemma insert_sorted_ascending {V} (kv : string * V) (l : list (string * V)) :
  ascending l.*1 -> ascending (insert_sorted kv l).*1.
Proof.
  induction l as [|kv' l IH]; intros Hl; [exact I |].
  simpl. destruct (String.leb kv.1 kv'.1) eqn:Hle.
  - simpl. split; [exact Hle | exact Hl].
  - assert (Hge : String.leb kv'.1 kv.1 = true).
    { destruct (String.leb_total kv.1 kv'.1); congruence. }
    destruct l as [|kv'' l]; [simpl; split; [exact Hge | exact I] |].
    destruct Hl as [Hhead Htail]. specialize (IH Htail).
    simpl in IH |- *. destruct (String.leb kv.1 kv''.1); simpl in IH |- *.
    + split; [exact Hge | exact IH].
    + split; [exact Hhead | exact IH].
Qed.

Lemma sorted_items_perm {V} (m : gmap string V) : sorted_items m ≡ₚ map_to_list m.
Proof.
  unfold sorted_items. induction (map_to_list m) as [|kv l IH]; simpl; [reflexivity |].
  now rewrite insert_sorted_perm, IH.
Qed.

Lemma sorted_items_ascending {V} (m : gmap string V) : ascending (sorted_items m).*1.
Proof.
  unfold sorted_items. induction (map_to_list m) as [|kv l IH]; simpl; [exact I |].
  now apply insert_sorted_ascending.
Qed.

(** [get_params_vars] lists the shared variables of the layer in the
    ascending order of the names they are registered under: the names
    ascend, none is repeated, and a variable is listed under a name
    exactly when [params] holds it there. *)
Theorem get_params_vars_sorted {A} (c : Container A) :
  get_params_vars c = (sorted_items (params c)).*2 /\
  ascending (sorted_items (params c)).*1 /\
  NoDup (sorted_items (params c)).*1 /\
  (forall p v, (p, v) ∈ sorted_items (params c) <-> params c !! p = Some v) /\
  length (get_params_vars c) = size (params c).
Proof.
  split; [reflexivity |]. split; [apply sorted_items_ascending |].
  split; [| split].
  - rewrite sorted_items_perm. apply NoDup_fst_map_to_list.
  - intros p v. rewrite sorted_items_perm. apply elem_of_map_to_list.
  - unfold get_params_vars. rewrite length_fmap, sorted_items_perm.
    apply length_map_to_list.
Qed.

(** ** [to_json] and the other attributes *)

(** [to_json] raises exactly when the attribute 'from' is present and is
    not a string.  When it returns, every key other than 'from' carries
    the layer's attribute with a [numpy.bool_] turned into a [bool], and
    the layer's own attributes are not touched (the function works on a
    copy). *)
Theorem to_json_frame {A} (c : Container A) :
  (raised (to_json c) <->
   exists v, attrs c !! "from" = Some v /\ forall s, v <> VStr s) /\
  forall m, to_json c = Ok m ->
    forall k, k <> "from" -> m !! k = unbox_numpy_bool <$> attrs c !! k.
Proof.
  unfold to_json. rewrite lookup_fmap.
  destruct (attrs c !! "from") as [v|] eqn:Hfrom; simpl.
  - assert (Hframe : forall w m, (m = delete "from" (unbox_numpy_bool <$> attrs c) \/
                                  m = <["from" := w]> (unbox_numpy_bool <$> attrs c)) ->
              forall k, k <> "from" -> m !! k = unbox_numpy_bool <$> attrs c !! k).
    { intros w m [-> | ->] k Hk.
      - now rewrite lookup_delete_ne, lookup_fmap by congruence.
      - now rewrite lookup_insert_ne, lookup_fmap by congruence. }
    destruct v as [| b | b | z | r | s | l | d]; simpl;
      try (split; [split; [intros _; eexists; split; [reflexivity | discriminate]
                          | intros _; exact I]
                  | intros m Hm; discriminate]).
    split.
    + split.
      * destruct (String.eqb s "data"); [contradiction |].
        destruct (String.eqb s EmptyString); [| contradiction].
        destruct (guess_source_layer_name (name c)); contradiction.
      * intros (v & Hv & Hs). inversion Hv; subst v. now destruct (Hs s).
    + intros m Hm. destruct (String.eqb s "data").
      { inversion Hm; subst m. apply (Hframe VNone). now left. }
      destruct (String.eqb s EmptyString).
      * destruct (guess_source_layer_name (name c)) as [g|]; inversion Hm; subst m.
        -- apply (Hframe (VList [VStr g])). now right.
        -- apply (Hframe VNone). now left.
      * inversion Hm; subst m. apply (Hframe (VList (VStr <$> split_on "," s))). now right.
  - split.
    + split; [contradiction |]. intros (v & Hv & _). discriminate.
    + intros m Hm k Hk. inversion Hm; subst m. now rewrite lookup_fmap.
Qed.

(** ** [save] and [load] together *)

Section SaveLoad.
Context {A : Type} `{FloatX A}.
Variable get_layer_class : string -> option string.
Variable json_dumps : attr_value -> string.

Lemma load_datasets_signature (nm : string) (ds : list (string * ndarray A)) :
  forall ps log p,
    signature <$> (load_datasets nm ds ps log).1.2 !! p = signature <$> ps !! p.
Proof.
  induction ds as [|[q a] ds IH]; intros ps log p; [reflexivity |].
  simpl. destruct (ps !! q) as [v|] eqn:Hq; [| apply IH].
  unfold shape_eqb. destruct (decide (shape (get_value v) = shape a)) as [Hs | Hs].
  - rewrite bool_decide_eq_true_2 by exact Hs.
    destruct (has_inf_or_nan a); [reflexivity |].
    rewrite IH. destruct (decide (p = q)) as [-> | Hne].
    + rewrite lookup_insert_eq, Hq. simpl.
      unfold signature, set_value, get_value in *. simpl. now rewrite Hs.
    + now rewrite lookup_insert_ne.
  - now rewrite bool_decide_eq_false_2.
Qed.

(** Whatever the file holds, and whether [load] returns or raises, the
    layer afterwards declares the same parameters, each with the name and
    the shape its variable had before; its name, class and attributes are
    as before, the attributes stored in the file not being read back. *)
Theorem load_keeps_signatures (c : Container A) (head : gmap string (Group A)) :
  (forall p, signature <$> params (load get_layer_class c head).1.2 !! p
             = signature <$> params c !! p) /\
  attrs (load get_layer_class c head).1.2 = attrs c /\
  name (load get_layer_class c head).1.2 = name c /\
  layer_class (load get_layer_class c head).1.2 = layer_class c.
Proof.
  unfold load. destruct (head !! name c) as [grp|]; [| now repeat split].
  destruct (check_layer_class get_layer_class c grp) as [class_log | e];
    [| now repeat split].
  pose proof (load_datasets_signature (name c) (g_datasets grp) (params c)
                (class_log ++ missing_warnings c grp)%list) as Hsig.
  destruct (load_datasets _ _ _ _) as [[r ps] log']. simpl in *.
  now repeat split.
Qed.

(** A layer saved into a file that has no group of its name, and loaded
    back into a layer of the same name and class ([save] and [load]
    together; the class is not the placeholder '<unknown_softmax>', no
    attribute is called 'class', and the parameters that both layers
    declare agree in shape).  [save] returns normally and stores every
    value rounded to single precision.  When the rounded values are all
    finite, [load] returns normally, every parameter declared by both
    layers takes the rounded saved value, and every other parameter of
    the loading layer keeps its own; when both declare the same names
    the loading layer ends with the rounded parameter dictionary of the
    saved one, which is the saved dictionary itself when its values are
    single-precision numbers already.  When rounding takes a value of a
    parameter declared by both out of the finite range, [load] raises
    and that parameter keeps its value. *)
Theorem save_load_round_trip (c c' : Container A) (head : gmap string (Group A)) :
  head !! name c = None ->
  name c' = name c ->
  layer_class c' = layer_class c ->
  layer_class c <> "<unknown_softmax>" ->
  attrs c !! "class" = None ->
  (forall p v v', params c !! p = Some v -> params c' !! p = Some v' ->
     shape (get_value v') = shape (get_value v)) ->
  exists head',
    (save json_dumps c head).1 = Ok head' /\
    ((forall p v, params c !! p = Some v ->
        has_inf_or_nan (astype_float32 (get_value v)) = false) ->
     exists c'' log,
       load get_layer_class c' head' = (Ok tt, c'', log) /\
       (forall p v v', params c !! p = Some v -> params c' !! p = Some v' ->
          params c'' !! p = Some (set_value v' (astype_float32 (get_value v)))) /\
       (forall p, params c !! p = None -> params c'' !! p = params c' !! p) /\
       ((forall p, is_Some (params c' !! p) <-> is_Some (params c !! p)) ->
        get_params_dict c'' = astype_float32 <$> get_params_dict c /\
        ((forall p v, params c !! p = Some v ->
            astype_float32 (get_value v) = get_value v) ->
         get_params_dict c'' = get_params_dict c))) /\
    (forall p v v', params c !! p = Some v -> params c' !! p = Some v' ->
       has_inf_or_nan (astype_float32 (get_value v)) = true ->
       exists e c'' log,
         load get_layer_class c' head' = (Raise e, c'', log) /\
         params c'' !! p = Some v').
Proof.
  intros Hhead Hname Hclass Hsoft Hattr Hshape.
  unfold save. rewrite Hhead. simpl.
  set (dsets := (fun kv : string * SharedVariable A =>
                   (kv.1, astype_float32 (get_value kv.2)))
                  <$> map_to_list (params c)).
  set (grp := mk_group _ dsets).
  assert (Hin : forall q array, (q, array) ∈ dsets <->
                  exists v, params c !! q = Some v /\
                            array = astype_float32 (get_value v)).
  { intros q array. unfold dsets. rewrite list_elem_of_fmap. split.
    - intros ([q' v] & Heq & Hel). inversion Heq; subst. simpl.
      exists v. split; [now apply elem_of_map_to_list | reflexivity].
    - intros (v & Hv & ->). exists (q, v). split; [reflexivity |].
      now apply elem_of_map_to_list. }
  assert (Hnames : dsets.*1 = (map_to_list (params c)).*1).
  { unfold dsets. rewrite <- list_fmap_compose. reflexivity. }
  assert (Hnd : NoDup dsets.*1).
  { rewrite Hnames. apply NoDup_fst_map_to_list. }
  assert (Hcheck : check_layer_class get_layer_class c' grp = Ok []).
  { unfold check_layer_class, grp. simpl.
    rewrite lookup_union, map_lookup_filter, lookup_fmap, Hattr. simpl.
    rewrite lookup_singleton_eq. simpl.
    rewrite (proj2 (String.eqb_neq _ _) Hsoft), Hclass, String.eqb_refl.
    reflexivity. }
  assert (Hlk : (<[name c := grp]> head) !! name c' = Some grp)
    by (rewrite Hname; apply lookup_insert_eq).
  exists (<[name c := grp]> head). split; [reflexivity |]. split.
  - intros Hfin.
    destruct (load_datasets_all_valid get_layer_class (name c') dsets (params c')
                ([] ++ missing_warnings c' grp)%list Hnd)
      as (ps' & log' & Hload & Hset).
    { intros q array v' Hq Hv' [Hs | Hn].
      - apply Hin in Hq as (v & Hv & ->). apply Hs. now apply (Hshape q).
      - apply Hin in Hq as (v & Hv & ->). rewrite (Hfin q v Hv) in Hn. discriminate. }
    exists (with_params c' ps'), log'.
    assert (Hboth : forall p v v', params c !! p = Some v -> params c' !! p = Some v' ->
                      ps' !! p = Some (set_value v' (astype_float32 (get_value v)))).
    { intros p v v' Hv Hv'. apply (Hset p (astype_float32 (get_value v)) v');
        [| exact Hv']. apply Hin. now exists v. }
    assert (Hrest : forall p, params c !! p = None -> ps' !! p = params c' !! p).
    { intros p Hp. apply (load_datasets_frame _ _ _ _ _ _ _ Hload).
      rewrite Hnames. intros Hel. apply list_elem_of_fmap in Hel as ([q v] & -> & Hel).
      apply elem_of_map_to_list in Hel. simpl in Hp. congruence. }
    split; [| split; [exact Hboth | split; [exact Hrest |]]].
    + unfold load. rewrite Hlk, Hcheck.
      change (g_datasets grp) with dsets. now rewrite Hload.
    + intros Hdom.
      assert (Hdict : get_params_dict (with_params c' ps')
                      = astype_float32 <$> get_params_dict c).
      { unfold get_params_dict. simpl. apply map_eq. intros p.
        rewrite !lookup_fmap. destruct (params c !! p) as [v|] eqn:Hv.
        - destruct (proj2 (Hdom p)) as [v' Hv']; [eauto |].
          now rewrite (Hboth p v v' Hv Hv').
        - rewrite (Hrest p Hv). destruct (params c' !! p) as [v'|] eqn:Hv';
            [| reflexivity].
          destruct (proj1 (Hdom p)) as [v Hv2]; [eauto | congruence]. }
      split; [exact Hdict |].
      intros Hsingle. rewrite Hdict. unfold get_params_dict.
      apply map_eq. intros p. rewrite !lookup_fmap.
      destruct (params c !! p) as [v|] eqn:Hv; [| reflexivity].
      simpl. f_equal. now apply (Hsingle p).
  - intros p v v' Hv Hv' Hbad.
    destruct (load_datasets_rejected (name c') p (astype_float32 (get_value v)) v'
                dsets (params c') ([] ++ missing_warnings c' grp)%list Hnd)
      as (e & ps' & log' & Hload & Hkept).
    { apply Hin. now exists v. }
    { exact Hv'. }
    { now right. }
    exists e, (with_params c' ps'), log'. split; [| exact Hkept].
    unfold load. rewrite Hlk, Hcheck.
    change (g_datasets grp) with dsets. now rewrite Hload.
Qed.

End SaveLoad.

Lemma save_load_round_trip_witness :
  exists head' c'' log,
    (save (fun _ => EmptyString) rec_layer_trained ∅).1 = Ok head' /\
    load known_classes rec_layer head' = (Ok tt, c'', log) /\
    get_params_dict c'' = get_params_dict rec_layer_trained.
Proof.
  destruct (save_load_round_trip known_classes (fun _ => EmptyString)
              rec_layer_trained rec_layer ∅)
    as (head' & Hsave & Hround & _).
  - reflexivity.
  - reflexivity.
  - reflexivity.
  - discriminate.
  - reflexivity.
  - intros p v v' Hp Hp'. unfold rec_layer_trained in Hp. unfold rec_layer in Hp'.
    simpl in Hp, Hp'.
    repeat (apply lookup_insert_Some in Hp as [[<- <-] | [? Hp]];
            [vm_compute in Hp'; now inversion Hp' |]).
    now rewrite lookup_empty in Hp.
  - destruct Hround as (c'' & log & Hload & _ & _ & Hdict).
    + intros p v Hp. unfold rec_layer_trained in Hp. simpl in Hp.
      repeat (apply lookup_insert_Some in Hp as [[<- <-] | [_ Hp]];
              [vm_compute; reflexivity |]).
      now rewrite lookup_empty in Hp.
    + exists head', c'', log. split; [exact Hsave |]. split; [exact Hload |].
      apply Hdict.
      * intros p. unfold rec_layer_trained, rec_layer. simpl.
        rewrite !lookup_insert_is_Some. rewrite !lookup_empty. tauto.
      * intros p v Hp. unfold rec_layer_trained in Hp. simpl in Hp.
        repeat (apply lookup_insert_Some in Hp as [[<- <-] | [_ Hp]];
                [vm_compute; reflexivity |]).
        now rewrite lookup_empty in Hp.
Defined.

(** Single precision at work: a tenth is stored as the nearest binary32
    number, and a finite number beyond the binary32 range as an
    infinity, which [load] then refuses. *)
Example float32_of_tenth :
  float32_of 0x1.999999999999ap-4 = 0x1.99999ap-4%float.
Proof. vm_compute. reflexivity. Qed.

Example float32_of_overflow :
  float32_of 0x1.78287f49c4a1dp+129 = infinity.
Proof. vm_compute. reflexivity. Qed.

Section LoadUnmatched.
Context {A : Type} `{FloatX A}.
Variable get_layer_class : string -> option string.

Lemma load_datasets_unmatched (nm : string) (ds : list (string * ndarray A))
    (q : string) :
  forall ps log ps' log',
    load_datasets nm ds ps log = (Ok tt, ps', log') ->
    q ∈ ds.*1 -> ps !! q = None ->
    mk_log 4 ("unable to match parameter " ++ q ++ " in " ++ nm) ∈ log' /\
    ps' !! q = None.
Proof.
  induction ds as [|[p a] ds IH]; intros ps log ps' log' Hload Hin Hq.
  - now apply elem_of_nil in Hin.
  - simpl in Hload. rewrite fmap_cons in Hin. simpl in Hin.
    destruct (ps !! p) as [v|] eqn:Hp.
    + destruct (shape_eqb _ _); [| discriminate].
      destruct (has_inf_or_nan a); [discriminate |].
      apply elem_of_cons in Hin as [-> | Hin]; [congruence |].
      apply (IH _ _ _ _ Hload Hin). rewrite lookup_insert_ne; [exact Hq | congruence].
    + apply elem_of_cons in Hin as [-> | Hin].
      * split.
        -- apply (load_datasets_log_grows _ _ _ _ _ _ _ Hload).
           apply elem_of_app. right. now left.
        -- destruct (decide (p ∈ ds.*1)) as [Hel | Hnel].
           ++ now apply (IH _ _ _ _ Hload Hel).
           ++ now rewrite (load_datasets_frame _ _ _ _ _ _ _ Hload p Hnel).
      * now apply (IH _ _ _ _ Hload Hin).
Qed.

(** A stored array under a name that the layer does not declare does
    not stop a load: when [load] returns, the log holds the line 'unable
    to match parameter', and the layer still has no parameter of that
    name. *)
Theorem load_unmatched_dataset_logged (c c' : Container A)
    (head : gmap string (Group A)) (grp : Group A) (q : string)
    (array : ndarray A) (log : list log_line) :
  head !! name c = Some grp ->
  (q, array) ∈ g_datasets grp ->
  params c !! q = None ->
  load get_layer_class c head = (Ok tt, c', log) ->
  mk_log 4 ("unable to match parameter " ++ q ++ " in " ++ name c) ∈ log /\
  params c' !! q = None.
Proof.
  intros Hgrp Hin Hq. unfold load. rewrite Hgrp.
  destruct (check_layer_class get_layer_class c grp) as [class_log | e];
    [| discriminate].
  destruct (load_datasets _ _ _ _) as [[r ps] log'] eqn:Hload.
  intros Heq. inversion Heq; subst r c' log'. simpl.
  apply (load_datasets_unmatched _ _ _ _ _ _ _ Hload); [| exact Hq].
  apply list_elem_of_fmap. now exists (q, array).
Qed.

End LoadUnmatched.

Lemma load_unmatched_dataset_logged_witness :
  mk_log 4 "unable to match parameter W_out in lstm_1"
    ∈ (load known_classes rec_layer (file_with [("W_out", stored_b)])).2 /\
  params (load known_classes rec_layer (file_with [("W_out", stored_b)])).1.2
    !! "W_out" = None.
Proof.
  apply (load_unmatched_dataset_logged known_classes rec_layer _
           (file_with [("W_out", stored_b)])
           (mk_group (<["class" := VStr "rec"]> ∅) [("W_out", stored_b)])
           "W_out" stored_b).
  - reflexivity.
  - now left.
  - reflexivity.
  - vm_compute. reflexivity.
Defined.

(** ** From the constructor to [make_output] *)

Lemma set_attr_if_depth {A} (b : bool) (k : string) (v : attr_value) (c : Container A) :
  depth (set_attr_if b k v c) = depth c.
Proof. now destruct b. Qed.

Lemma set_attr_if_lookup_ne {A} (b : bool) (k k' : string) (v : attr_value)
    (c : Container A) :
  k <> k' -> attrs (set_attr_if b k v c) !! k' = attrs c !! k'.
Proof. intros Hk. destruct b; [| reflexivity]. simpl. now rewrite lookup_insert_ne. Qed.

Lemma Container_init_flat {A} (cls : string) (layer_class0 : option string)
    (name0 : string) (network0 : option (Network A)) (train_flag0 : bool)
    (depth0 : nat) (fwi bi rwi spe : option string) :
  let c := Container_init cls layer_class0 name0 network0 train_flag0 depth0
             "flat" fwi bi rwi spe in
  depth c = depth0 /\ attrs c !! "consensus" = None.
Proof.
  unfold Container_init.
  change (negb (String.eqb "flat" "flat")) with false.
  change (set_attr_if false "consensus" (VStr "flat")) with (fun x : Container A => x).
  cbv beta. rewrite !set_attr_if_depth. split; [reflexivity |].
  rewrite !set_attr_if_lookup_ne by discriminate. simpl. apply lookup_empty.
Qed.

Lemma set_attr_lookup_ne {A} (c : Container A) (k k' : string) (v : attr_value) :
  k <> k' -> attrs (set_attr c k v) !! k' = attrs c !! k'.
Proof. intros Hk. simpl. now rewrite lookup_insert_ne. Qed.

Lemma set_attr_lookup_eq {A} (c : Container A) (k : string) (v : attr_value) :
  attrs (set_attr c k v) !! k = Some v.
Proof. simpl. apply lookup_insert_eq. Qed.

Ltac attr_lookup :=
  repeat first [ rewrite set_attr_if_lookup_ne by discriminate
               | rewrite set_attr_lookup_ne by discriminate ];
  first [ apply set_attr_lookup_eq | reflexivity ].

(** The attributes that [make_output] reads, after [Layer.__init__]. *)
Lemma Layer_init_attrs_spec {A} (base c : Container A)
    (network_j : option (list string)) (a : LayerArgs) :
  Layer_init_attrs base network_j a = Ok c ->
  depth c = depth base /\ train_flag c = train_flag base /\
  attrs c !! "consensus" = attrs base !! "consensus" /\
  attrs c !! "batch_norm" = Some (arg_batch_norm a) /\
  attrs c !! "residual" = Some (arg_residual a) /\
  attrs c !! "layer_drop" = Some (arg_layer_drop a) /\
  attrs c !! "sparse" = Some (arg_sparse a) /\
  attrs c !! "sparse_filtering" = Some (arg_sparse_filtering a) /\
  attrs c !! "n_out" = Some (arg_n_out a).
Proof.
  unfold Layer_init_attrs. intros Hinit.
  destruct (truthy (arg_carry a)); [discriminate |].
  assert (Hd : forall (b : bool) k v (x : Container A),
            depth (set_attr_if b k v x) = depth x) by (now intros [|]).
  assert (Ht : forall (b : bool) k v (x : Container A),
            train_flag (set_attr_if b k v x) = train_flag x) by (now intros [|]).
  assert (Hd' : forall k v (x : Container A), depth (set_attr x k v) = depth x)
    by reflexivity.
  assert (Ht' : forall k v (x : Container A),
            train_flag (set_attr x k v) = train_flag x) by reflexivity.
  destruct (truthy_str (arg_target_index a)).
  - destruct network_j as [keys|]; [| discriminate].
    destruct (bool_decide _); [| discriminate].
    cbn [mbind result_bind] in Hinit. inversion Hinit; subst c. clear Hinit.
    split; [| split].
    + repeat first [rewrite Hd | rewrite Hd']. reflexivity.
    + repeat first [rewrite Ht | rewrite Ht']. reflexivity.
    + repeat split; attr_lookup.
  - cbn [mbind result_bind] in Hinit. inversion Hinit; subst c. clear Hinit.
    split; [| split].
    + repeat first [rewrite Hd | rewrite Hd']. reflexivity.
    + repeat first [rewrite Ht | rewrite Ht']. reflexivity.
    + repeat split; attr_lookup.
Qed.

Section LayerInit.
Variable Source : Type.
Variable concat_sources : list Source -> tensor * nat.
Variable create_forward_weights :
  Container R -> RandomState -> nat -> nat -> string
  -> result (SharedVariable R * RandomState).
Variable T_tensordot : tensor -> tensor -> nat -> nat -> result tensor.
Variable ev : string -> Container R -> string -> SharedVariable R
              -> option (SharedVariable R).
Variable MRG_RandomStreams : Z -> RandomState.

(** A layer built with a depth above one and the default consensus
    'flat' has no attribute 'consensus': [Container.__init__] records the
    strategy only when it differs from 'flat', and [Layer.__init__] never
    does.  On such a layer [make_output] with [collapse] raises
    [KeyError] for that attribute. *)
Theorem make_output_default_consensus_key_error
    (cls : string) (layer_class0 : option string) (name0 : string)
    (network0 : option (Network R)) (train_flag0 : bool) (depth0 : nat)
    (fwi bi rwi spe : option string) (network_j : option (list string))
    (a : LayerArgs) (c : Container R) (rng : RandomState)
    (sources : list Source) (output : tensor) (output_name : string) :
  Layer_init_attrs
    (Container_init cls layer_class0 name0 network0 train_flag0 depth0
       "flat" fwi bi rwi spe) network_j a = Ok c ->
  (1 < depth0)%nat ->
  make_output concat_sources create_forward_weights T_tensordot ev
    MRG_RandomStreams c rng sources output output_name true
  = Raise (KeyError "consensus").
Proof.
  intros Hinit Hdepth.
  destruct (Layer_init_attrs_spec _ _ _ _ Hinit) as (Hd & _ & Hc & _).
  destruct (Container_init_flat (A := R) cls layer_class0 name0 network0 train_flag0
              depth0 fwi bi rwi spe) as [Hd0 Hc0].
  rewrite Hd0 in Hd. rewrite Hc0 in Hc.
  unfold make_output, output_before_layer_drop, consensus_stage.
  rewrite Hd. rewrite (proj2 (Nat.ltb_lt 1 depth0) Hdepth). simpl andb. cbv iota.
  unfold make_consensus, attr. rewrite Hc. reflexivity.
Qed.

(** A layer built with depth one whose arguments switch off batch
    normalisation, the residual connection, layer-drop and both sparse
    stages finds every attribute that [make_output] reads; the output
    passes through unchanged, no parameter is added, no random number is
    drawn and nothing is logged. *)
Theorem make_output_plain_layer_identity
    (base c : Container R) (network_j : option (list string)) (a : LayerArgs)
    (d : R) (rng : RandomState) (sources : list Source) (output : tensor)
    (output_name : string) (collapse : bool) :
  Layer_init_attrs base network_j a = Ok c ->
  depth base = 1%nat ->
  truthy (arg_batch_norm a) = false ->
  truthy (arg_residual a) = false ->
  number (arg_layer_drop a) = Ok d -> (d <= 0)%R ->
  truthy (arg_sparse a) = false ->
  truthy (arg_sparse_filtering a) = false ->
  make_output concat_sources create_forward_weights T_tensordot ev
    MRG_RandomStreams c rng sources output output_name collapse
  = Ok (output, c, rng, []).
Proof.
  intros Hinit Hdepth Hbn Hres Hld Hd Hsp Hsf.
  destruct (Layer_init_attrs_spec _ _ _ _ Hinit)
    as (Hdc & _ & _ & Habn & Hares & Hald & Hasp & Hasf & _).
  unfold make_output, output_before_layer_drop, consensus_stage.
  rewrite Hdc, Hdepth. rewrite andb_false_r. cbn [mbind result_bind].
  unfold batch_norm_stage, attr. rewrite Habn. cbn [mbind result_bind]. rewrite Hbn.
  cbn [mbind result_bind].
  unfold residual_stage, attr. rewrite Hares. cbn [mbind result_bind]. rewrite Hres.
  cbn [mbind result_bind]. rewrite Hald. cbn [mbind result_bind]. rewrite Hld.
  cbn [mbind result_bind].
  destruct (Rlt_dec 0 d) as [Hpos | _]; [lra |]. cbn [mbind result_bind].
  unfold output_after_layer_drop, attr. rewrite Hasp. cbn [mbind result_bind].
  rewrite Hsp, Hasf. cbn [mbind result_bind]. now rewrite Hsf.
Qed.

End LayerInit.

Lemma make_output_default_consensus_key_error_witness :
  make_output (Source := unit) (fun _ => (skip_input, 2%nat)) no_weights no_tensordot
    no_substitute (fun _ => half_stream)
    (built_layer 2) half_stream [] ensemble_output "z" true
  = Raise (KeyError "consensus").
Proof.
  apply (make_output_default_consensus_key_error unit (fun _ => (skip_input, 2%nat))
           no_weights no_tensordot no_substitute (fun _ => half_stream)
           "hidden" None "hidden_1" None false 2
           None None None None None plain_layer_args).
  - reflexivity.
  - lia.
Defined.

Lemma make_output_plain_layer_identity_witness :
  make_output (Source := unit) (fun _ => (skip_input, 2%nat)) no_weights no_tensordot
    no_substitute (fun _ => half_stream)
    (built_layer 1) half_stream [] computed_output "z" true
  = Ok (computed_output, built_layer 1, half_stream, []).
Proof.
  apply (make_output_plain_layer_identity unit (fun _ => (skip_input, 2%nat))
           no_weights no_tensordot no_substitute (fun _ => half_stream)
           (Container_init "hidden" None "hidden_1" None false 1 "flat"
              None None None None) _ None plain_layer_args 0%R).
  - reflexivity.
  - reflexivity.
  - reflexivity.
  - reflexivity.
  - reflexivity.
  - lra.
  - reflexivity.
  - reflexivity.
Defined.

Section LayerDropTraining.
Variable Source : Type.
Variable concat_sources : list Source -> tensor * nat.
Variable create_forward_weights :
  Container R -> RandomState -> nat -> nat -> string
  -> result (SharedVariable R * RandomState).
Variable T_tensordot : tensor -> tensor -> nat -> nat -> result tensor.
Variable ev : string -> Container R -> string -> SharedVariable R
              -> option (SharedVariable R).
Variable MRG_RandomStreams : Z -> RandomState.

(** With the training flag on and [layer_drop = d > 0], and neither
    sparse stage configured, [make_output] never blends.  When the
    computed output [o] is a tensor of rank one or more and the skip
    path [z] has its rank, the output is [z] if the variate drawn from
    the stream seeded by the layer's generator is below [d], and [o]
    otherwise, and the layer's generator advances by the one draw of the
    seed.  When the ranks differ, as for sources of no width, whose skip
    path is the number 0, the call raises [TypeError]. *)
Theorem make_output_layer_drop_training (c c3 c4 : Container R)
    (rng rng3 rng4 : RandomState) (sources : list Source)
    (output o z : tensor) (output_name : string) (collapse : bool)
    (ld sp sf : attr_value) (d : R) (log : list log_line) :
  train_flag c = true ->
  attrs c !! "layer_drop" = Some ld -> number ld = Ok d -> (0 < d)%R ->
  attrs c !! "sparse" = Some sp -> truthy sp = false ->
  attrs c !! "sparse_filtering" = Some sf -> truthy sf = false ->
  output_before_layer_drop concat_sources T_tensordot ev c rng sources output
    output_name collapse = Ok (o, c3, rng3) ->
  layer_drop_source concat_sources create_forward_weights ev c3 rng3 sources
    = Ok (z, c4, rng4, log) ->
  (rank z = rank o -> (0 < rank o)%nat ->
   make_output concat_sources create_forward_weights T_tensordot ev
     MRG_RandomStreams c rng sources output output_name collapse
   = Ok (let srng := MRG_RandomStreams ((rng_randint rng4 1234).1 + 1) in
         if Rlt_dec (rs_samples srng (rs_pos srng)) d then z else o,
         c4, (rng_randint rng4 1234).2, log)) /\
  (rank z <> rank o ->
   make_output concat_sources create_forward_weights T_tensordot ev
     MRG_RandomStreams c rng sources output output_name collapse
   = Raise (TypeError "The two branches should have identical types")).
Proof.
  intros Htrain Hld Hnum Hpos Hsp Hspf Hsf Hsff Hbefore Hsource.
  pose proof (output_before_layer_drop_same_settings Source concat_sources T_tensordot ev
                _ _ _ _ _ _ _ _ _ Hbefore)
    as (Ht3 & _ & _ & Ha3).
  pose proof (layer_drop_source_same_settings Source concat_sources create_forward_weights ev
                _ _ _ _ _ _ _ Hsource)
    as (Ht4 & _ & _ & Ha4).
  assert (Hmake :
            make_output concat_sources create_forward_weights T_tensordot ev
              MRG_RandomStreams c rng sources output output_name collapse
            = ('(o', rng'') ← layer_drop_blend MRG_RandomStreams c4 rng4 d z o;
               out6 ← output_after_layer_drop c4 o';
               Ok (out6, c4, rng'', log))).
  { unfold make_output. rewrite Hbefore. cbn [mbind result_bind].
    unfold attr at 1. rewrite (Ha3 "layer_drop") by discriminate. rewrite Hld.
    cbn [mbind result_bind]. rewrite Hnum. cbn [mbind result_bind].
    destruct (Rlt_dec 0 d) as [_ | Hn]; [| contradiction].
    rewrite Hsource. cbn [mbind result_bind].
    destruct (layer_drop_blend MRG_RandomStreams c4 rng4 d z o) as [[o' rng''] | e];
      reflexivity. }
  rewrite Hmake. clear Hmake.
  unfold layer_drop_blend. rewrite Ht4, Ht3, Htrain.
  destruct (rng_randint rng4 1234) as [seed rng5]. cbn [fst snd].
  set (srng := MRG_RandomStreams (seed + 1)).
  unfold srng_binomial, random_sample, shape_size. simpl.
  split.
  - intros Hrank _. rewrite Hrank, Nat.eqb_refl.
    unfold output_after_layer_drop, attr.
    destruct (Rlt_dec (rs_samples srng (rs_pos srng)) d) as [Hlt | Hge].
    + destruct (Req_dec_T 1 0) as [Heq | _]; [lra |]. cbn [mbind result_bind].
      rewrite (Ha4 "sparse"), (Ha3 "sparse"), Hsp by discriminate.
      cbn [mbind result_bind]. rewrite Hspf.
      rewrite (Ha4 "sparse_filtering"), (Ha3 "sparse_filtering"), Hsf by discriminate.
      cbn [mbind result_bind]. now rewrite Hsff.
    + destruct (Req_dec_T 0 0) as [_ | Hne]; [| contradiction]. cbn [mbind result_bind].
      rewrite (Ha4 "sparse"), (Ha3 "sparse"), Hsp by discriminate.
      cbn [mbind result_bind]. rewrite Hspf.
      rewrite (Ha4 "sparse_filtering"), (Ha3 "sparse_filtering"), Hsf by discriminate.
      cbn [mbind result_bind]. now rewrite Hsff.
  - intros Hrank. now rewrite (proj2 (Nat.eqb_neq _ _) Hrank).
Qed.

End LayerDropTraining.

Lemma make_output_layer_drop_training_witness :
  make_output (Source := unit) (fun _ => (skip_input, 2%nat)) no_weights no_tensordot
    no_substitute (fun _ => half_stream) drop_layer_training half_stream [tt]
    computed_output "output" true
  = Ok (computed_output, drop_layer_training,
        (rng_randint half_stream 1234).2, []).
Proof.
  destruct (make_output_layer_drop_training unit (fun _ => (skip_input, 2%nat))
              no_weights no_tensordot no_substitute (fun _ => half_stream)
              drop_layer_training drop_layer_training drop_layer_training
              half_stream half_stream half_stream [tt]
              computed_output computed_output skip_input "output" true
              (VFloat (3 / 10)) (VBool false) (VBool false) (3 / 10)%R [])
    as [Hsame _]; try reflexivity.
  - lra.
  - rewrite (Hsame eq_refl ltac:(simpl; lia)). simpl.
    destruct (Rlt_dec (1 / 2) (3 / 10)) as [Hlt | _]; [lra | reflexivity].
Defined.

(** ** The uniform initialisers *)

Lemma uniform_bound_from_fan (fan : R) :
  (0 < fan)%R ->
  (s6 ← py_sqrt 6; sp ← py_sqrt fan; py_div s6 sp) = Ok (sqrt (6 / fan)).
Proof.
  intros Hfan. unfold py_sqrt.
  destruct (Rlt_dec 6 0) as [H6 | _]; [lra |]. cbn [mbind result_bind].
  destruct (Rlt_dec fan 0) as [Hneg | _]; [lra |]. cbn [mbind result_bind].
  unfold py_div. destruct (Req_dec_T (sqrt fan) 0) as [H0 | _].
  { pose proof (sqrt_lt_R0 _ Hfan). lra. }
  now rewrite <- (sqrt_div_alt 6 fan Hfan).
Qed.

(** With a fan [p] or an addend [p_add] given and no explicit bound, the
    bound of the draw is [L = sqrt (6 / fan)], where [fan] is [p], or
    [n + m] when [p] is absent or zero, plus [p_add] when given.  For a
    positive fan the call returns a variable of the requested shape and
    name whose entries are [- L + 2 * L * u] for the next variates [u] of
    the generator, in their order, hence within the bound, and the
    generator moves forward by exactly the number of entries. *)
Theorem create_random_uniform_weights_fan (c : Container R) (rng : RandomState)
    (n m : nat) (p p_add : option R) (name0 : option string)
    (depth0 : option nat) :
  let fan := ((if truthy_num p then default 0 p else INR (n + m))
              + (if truthy_num p_add then default 0 p_add else 0))%R in
  let d := match depth0 with Some (S d) => S d | _ => depth c end in
  let l := sqrt (6 / fan) in
  let size := if (1 <? d)%nat then [n; d; m] else [n; m] in
  (0 < fan)%R ->
  unit_interval rng ->
  exists v rng',
    create_random_uniform_weights c rng n m p p_add None name0 depth0 = Ok (v, rng') /\
    shape (get_value v) = size /\
    length (data (get_value v)) = shape_size size /\
    Forall (fun x => - l <= x <= l)%R (data (get_value v)) /\
    data (get_value v)
    = (fun u => - l + 2 * l * u)%R <$> (rs_samples rng <$> seq (rs_pos rng) (shape_size size)) /\
    sv_name v = Some (default ("W_" ++ name c) name0) /\
    rs_pos rng' = (rs_pos rng + shape_size size)%nat /\
    rs_samples rng' = rs_samples rng.
Proof.
  intros fan d l size Hfan Hu. unfold create_random_uniform_weights.
  fold d. fold size. cbn [truthy_num]. rewrite andb_false_r.
  assert (Hp2 : (if truthy_num p_add
                 then ((if truthy_num p then default 0 p else INR (n + m))
                       + default 0 p_add)%R
                 else if truthy_num p then default 0%R p else INR (n + m)) = fan).
  { unfold fan. destruct (truthy_num p_add); [reflexivity | lra]. }
  rewrite Hp2, (uniform_bound_from_fan fan Hfan). cbn [mbind result_bind]. fold l.
  assert (Hl : (0 <= l)%R) by apply sqrt_pos.
  destruct (rng_uniform_spec rng l size Hu Hl) as (Hshape & Hlen & Hrange).
  unfold rng_uniform, random_sample in *. simpl in Hshape, Hlen, Hrange.
  eexists _, _. split; [reflexivity |]. simpl.
  split; [exact Hshape |]. split; [exact Hlen |]. split; [exact Hrange |].
  split; [apply list_fmap_ext; intros k u _; ring |].
  repeat split.
Qed.

Lemma create_random_uniform_weights_fan_witness :
  exists v rng',
    create_random_uniform_weights plain_layer half_stream 2 8 (Some 12%R) None None
      (Some "W_in") None = Ok (v, rng') /\
    shape (get_value v) = [2; 8]%nat /\
    Forall (fun x => - sqrt (6 / (12 + 0)) <= x <= sqrt (6 / (12 + 0)))%R
           (data (get_value v)) /\
    rs_pos rng' = 16%nat.
Proof.
  assert (Ht : truthy_num (Some 12%R) = true).
  { unfold truthy_num. destruct (Req_dec_T 12 0); [lra | reflexivity]. }
  pose proof (create_random_uniform_weights_fan plain_layer half_stream 2 8
                (Some 12%R) None (Some "W_in") None) as Hfan.
  cbv zeta in Hfan. rewrite Ht in Hfan. simpl in Hfan.
  destruct Hfan as (v & rng' & Hcall & Hshape & _ & Hrange & _ & _ & Hpos & _).
  - lra.
  - intros k. simpl. lra.
  - exists v, rng'. auto.
Defined.

(** With an explicit bound [l] and no fan, neither [n + m] nor [p_add]
    plays a part: the call cannot fail, and every entry lies within
    [|l|] of zero. *)
Theorem create_random_uniform_weights_explicit_bound (c : Container R)
    (rng : RandomState) (n m : nat) (p_add : option R) (l : R)
    (name0 : option string) (depth0 : option nat) :
  l <> 0%R ->
  unit_interval rng ->
  exists v rng',
    create_random_uniform_weights c rng n m None p_add (Some l) name0 depth0
      = Ok (v, rng') /\
    Forall (fun x => Rabs x <= Rabs l)%R (data (get_value v)).
Proof.
  intros Hl Hu. unfold create_random_uniform_weights. cbn [truthy_num andb].
  destruct (Req_dec_T l 0) as [H0 | _]; [contradiction |]. cbn [mbind result_bind default].
  set (size := if (1 <? _)%nat then _ else _).
  pose proof (random_sample_unit rng size Hu) as Hunit.
  unfold rng_uniform. destruct (random_sample rng size) as [us rng'].
  eexists _, _. split; [reflexivity |]. simpl in *.
  apply Forall_fmap. eapply Forall_impl; [exact Hunit |].
  intros u [Hu0 Hu1]. simpl. unfold Rabs.
  destruct (Rcase_abs (- l + (l - - l) * u)), (Rcase_abs l); nra.
Qed.

Lemma create_random_uniform_weights_explicit_bound_witness :
  exists v rng',
    create_random_uniform_weights plain_layer half_stream 0 0 None None
      (Some (1 / 10)%R) None None = Ok (v, rng') /\
    Forall (fun x => Rabs x <= Rabs (1 / 10))%R (data (get_value v)).
Proof.
  apply (create_random_uniform_weights_explicit_bound plain_layer half_stream 0 0
           None (1 / 10)%R None None).
  - lra.
  - intros k. simpl. lra.
Defined.

(** On a layer of depth one, [create_random_uniform_weights1] is
    [create_random_uniform_weights] without [p_add] and without a depth. *)
Theorem create_random_uniform_weights1_agrees (c : Container R) (rng : RandomState)
    (n m : nat) (p l : option R) (name0 : option string) :
  (depth c <= 1)%nat ->
  create_random_uniform_weights1 c rng n m p l name0
  = create_random_uniform_weights c rng n m p None l name0 None.
Proof.
  intros Hd. unfold create_random_uniform_weights1, create_random_uniform_weights.
  cbn [truthy_num].
  assert (Hflat : (1 <? depth c)%nat = false) by (apply Nat.ltb_ge; lia).
  now rewrite Hflat.
Qed.

Lemma create_random_uniform_weights1_agrees_witness :
  create_random_uniform_weights1 plain_layer half_stream 2 1 None None None
  = create_random_uniform_weights plain_layer half_stream 2 1 None None None None None.
Proof.
  apply (create_random_uniform_weights1_agrees plain_layer half_stream 2 1 None None None).
  simpl. lia.
Defined.

(** For [n > 0], [create_random_uniform_weights2] returns a vector of
    [n] entries, or an [n] by [m] matrix when [m] is given and not zero,
    with every entry within [sqrt (1 / n)] of zero. *)
Theorem create_random_uniform_weights2_bound (c : Container R) (rng : RandomState)
    (n : nat) (m : option nat) (name0 : option string) :
  (0 < n)%nat ->
  unit_interval rng ->
  let l := sqrt (1 / INR n) in
  let size := match m with Some (S k) => [n; S k] | _ => [n] end in
  exists v rng',
    create_random_uniform_weights2 c rng n m name0 = Ok (v, rng') /\
    shape (get_value v) = size /\
    length (data (get_value v)) = shape_size size /\
    Forall (fun x => - l <= x <= l)%R (data (get_value v)).
Proof.
  intros Hn Hu l size. unfold create_random_uniform_weights2. fold size.
  assert (Hpos : (0 < INR n)%R) by (apply lt_0_INR; lia).
  unfold py_div. destruct (Req_dec_T (INR n) 0) as [H0 | _]; [lra |].
  cbn [mbind result_bind]. unfold py_sqrt.
  destruct (Rlt_dec (1 / INR n) 0) as [Hneg | _].
  { assert (0 < 1 / INR n)%R by (apply Rdiv_lt_0_compat; lra). lra. }
  cbn [mbind result_bind]. fold l.
  assert (Hl : (0 <= l)%R) by apply sqrt_pos.
  destruct (rng_uniform_spec rng l size Hu Hl) as (Hshape & Hlen & Hrange).
  unfold rng_uniform, random_sample in *. simpl in Hshape, Hlen, Hrange.
  eexists _, _. split; [reflexivity |]. simpl. auto.
Qed.

Lemma create_random_uniform_weights2_bound_witness :
  exists v rng',
    create_random_uniform_weights2 plain_layer half_stream 4 None None = Ok (v, rng') /\
    shape (get_value v) = [4]%nat /\
    length (data (get_value v)) = 4%nat /\
    Forall (fun x => - sqrt (1 / INR 4) <= x <= sqrt (1 / INR 4))%R (data (get_value v)).
Proof.
  apply (create_random_uniform_weights2_bound plain_layer half_stream 4 None None).
  - lia.
  - intros k. simpl. lra.
Defined.

(** ** The tiled unitary initialiser *)

Lemma has_shape_spec (r k : nat) (x : matrix) :
  has_shape r k x = true <-> matrix_shape r k x.
Proof.
  unfold has_shape, matrix_shape.
  rewrite andb_true_iff, Nat.eqb_eq, forallb_forall, Forall_forall.
  split; intros [Hr Hk]; (split; [exact Hr |]); intros row Hin.
  - apply Nat.eqb_eq, Hk. now apply list_elem_of_In.
  - apply Nat.eqb_eq, Hk. now apply list_elem_of_In.
Qed.

Lemma zip_with_app_shape (r w1 w2 : nat) (a b : matrix) :
  matrix_shape r w1 a -> matrix_shape r w2 b ->
  matrix_shape r (w1 + w2) (zip_with app a b).
Proof.
  intros [Hla Ha] [Hlb Hb]. split.
  - rewrite length_zip_with. lia.
  - clear Hla Hlb. revert b Hb. induction Ha as [|ra a Hra Ha IH]; intros b Hb.
    + constructor.
    + destruct Hb as [|rb b Hrb Hb]; [constructor |]. simpl. constructor.
      * rewrite length_app. lia.
      * now apply IH.
Qed.

Lemma foldl_zip_with_app_shape (r n : nat) (tiles : list matrix) :
  Forall (matrix_shape r n) tiles ->
  forall w t, matrix_shape r w t ->
    matrix_shape r (w + length tiles * n) (foldl (zip_with app) t tiles).
Proof.
  induction 1 as [|t' tiles Ht' _ IH]; intros w t Ht; simpl.
  - now rewrite Nat.add_0_r.
  - replace (w + (n + length tiles * n))%nat with ((w + n) + length tiles * n)%nat by lia.
    apply IH. now apply zip_with_app_shape.
Qed.

Lemma transpose_shape (r k : nat) (x : matrix) :
  length x = r -> matrix_shape k r (transpose k x).
Proof.
  intros Hr. unfold transpose. split.
  - now rewrite length_fmap, length_seq.
  - apply Forall_fmap, Forall_forall. intros j _. simpl. now rewrite length_fmap.
Qed.

Lemma concat_shape_length (r k : nat) (x : matrix) :
  matrix_shape r k x -> length (concat x) = (r * k)%nat.
Proof.
  intros [<- Hk]. induction Hk as [|row x Hrow _ IH]; [reflexivity |].
  simpl. rewrite length_app, IH, Hrow. lia.
Qed.

Lemma tiles_cover (n m : nat) :
  (0 < n)%nat -> (0 < m)%nat -> (m <= ((m - 1) / n + 1) * n)%nat.
Proof.
  intros Hn Hm. pose proof (Nat.div_mod (m - 1) n ltac:(lia)) as Hdiv.
  pose proof (Nat.mod_upper_bound (m - 1) n ltac:(lia)) as Hmod. nia.
Qed.

Section UnitaryTilesProperties.
Variable svd_u_of_randn : RandomState -> nat -> matrix * RandomState.

(** The factor [u] of a square matrix of size [k] is square of size [k]. *)
Hypothesis svd_u_square :
  forall rng k, matrix_shape k k (svd_u_of_randn rng k).1.

Lemma make_tiles_shape (n fac : nat) :
  forall rng, exists tiles rng',
    make_tiles svd_u_of_randn rng n fac = Ok (tiles, rng') /\
    length tiles = fac /\ Forall (matrix_shape n n) tiles.
Proof.
  induction fac as [|fac IH]; intros rng.
  - exists [], rng. repeat split. constructor.
  - cbn [make_tiles]. unfold make_tile.
    pose proof (svd_u_square rng n) as Hu.
    destruct (svd_u_of_randn rng n) as [u rng1]. simpl in Hu.
    rewrite (proj2 (has_shape_spec n n u) Hu). cbn [mbind result_bind].
    destruct (IH rng1) as (tiles & rng2 & -> & Hlen & Hall).
    cbn [mbind result_bind]. exists (u :: tiles), rng2.
    split; [reflexivity |]. split; [simpl; lia | now constructor].
Qed.

(** For positive [n] and [m] none of the three shape assertions fires:
    the call returns a variable of shape [(n, m)] holding [n * m]
    entries, created under the name passed in; enough square tiles are
    laid side by side to cover the longer side, also when [n > m] and
    the tiling is done on the transposed shape. *)
Theorem create_random_unitary_tiled_weights_shape (rng : RandomState) (n m : nat)
    (name0 : option string) :
  (0 < n)%nat -> (0 < m)%nat ->
  exists v rng',
    create_random_unitary_tiled_weights svd_u_of_randn rng n m name0 = Ok (v, rng') /\
    shape (get_value v) = [n; m] /\
    length (data (get_value v)) = (n * m)%nat /\
    sv_name v = name0.
Proof.
  intros Hn Hm. unfold create_random_unitary_tiled_weights.
  set (transposed := (m <? n)%nat).
  set (n1 := if transposed then m else n).
  set (m1 := if transposed then n else m).
  assert (Hn1 : (0 < n1)%nat) by (unfold n1; now destruct transposed).
  assert (Hm1 : (0 < m1)%nat) by (unfold m1; now destruct transposed).
  assert (Hle : (n1 <= m1)%nat).
  { unfold n1, m1, transposed. destruct (m <? n)%nat eqn:Hlt.
    - apply Nat.ltb_lt in Hlt. lia.
    - apply Nat.ltb_ge in Hlt. lia. }
  rewrite (proj2 (Nat.eqb_neq n1 0)) by lia.
  set (fac := ((m1 - 1) / n1 + 1)%nat).
  destruct (make_tiles_shape n1 fac rng) as (tiles & rng' & -> & Hlen & Hall).
  cbn [mbind result_bind].
  destruct tiles as [|t tiles]; [simpl in Hlen; unfold fac in Hlen; lia |].
  apply Forall_cons in Hall as [Ht Hall].
  unfold concatenate_axis1.
  assert (Hrows : forallb (fun t' : matrix => (length t' =? length t)%nat) tiles = true).
  { apply forallb_forall. intros t' Hin. apply Nat.eqb_eq.
    apply list_elem_of_In in Hin.
    rewrite Forall_forall in Hall. destruct (Hall t' Hin) as [-> _].
    now destruct Ht as [-> _]. }
  rewrite Hrows. cbn [mbind result_bind].
  pose proof (foldl_zip_with_app_shape n1 n1 tiles Hall n1 t Ht) as Hx.
  replace (n1 + length tiles * n1)%nat with (fac * n1)%nat in Hx
    by (simpl in Hlen; rewrite <- Hlen; lia).
  rewrite (proj2 (has_shape_spec _ _ _) Hx).
  assert (Hx1 : matrix_shape n1 m1 (take m1 <$> foldl (zip_with app) t tiles)).
  { destruct Hx as [Hxl Hxr]. split; [now rewrite length_fmap |].
    apply Forall_fmap. eapply Forall_impl; [exact Hxr |].
    intros row Hrow. simpl. rewrite length_take, Hrow.
    pose proof (tiles_cover n1 m1 Hn1 Hm1). fold fac in H. lia. }
  rewrite (proj2 (has_shape_spec _ _ _) Hx1).
  eexists _, _. split; [reflexivity |]. unfold n1, m1 in *.
  destruct transposed; simpl.
  - split; [reflexivity |]. split; [| reflexivity].
    apply concat_shape_length. apply transpose_shape. now destruct Hx1.
  - split; [reflexivity |]. split; [| reflexivity].
    now apply concat_shape_length.
Qed.

End UnitaryTilesProperties.

Lemma create_random_unitary_tiled_weights_shape_witness :
  exists v rng',
    create_random_unitary_tiled_weights identity_tile half_stream 5 2 (Some "W_re")
      = Ok (v, rng') /\
    shape (get_value v) = [5; 2]%nat /\
    length (data (get_value v)) = 10%nat /\
    sv_name v = Some "W_re".
Proof.
  apply (create_random_unitary_tiled_weights_shape identity_tile).
  - intros rng k. unfold identity_tile. simpl. split.
    + now rewrite length_fmap, length_seq.
    + apply Forall_fmap, Forall_forall. intros i _. simpl.
      now rewrite length_fmap, length_seq.
  - lia.
  - lia.
Defined.

(** ** Bounds on the activations of the units *)

Lemma sigmoid_range (x : R) : (0 < sigmoid x < 1)%R.
Proof.
  unfold sigmoid. pose proof (exp_pos (- x)) as He.
  split.
  - apply Rdiv_lt_0_compat; lra.
  - apply (Rmult_lt_reg_r (1 + exp (- x))); [lra |].
    unfold Rdiv. rewrite Rmult_assoc, Rinv_l by lra. lra.
Qed.

Lemma tanh_range (x : R) : (-1 < tanh x < 1)%R.
Proof.
  unfold tanh, sinh, cosh.
  pose proof (exp_pos x) as Hp. pose proof (exp_pos (- x)) as Hn.
  assert (Hc : (0 < (exp x + exp (- x)) / 2)%R) by lra.
  split.
  - apply (Rmult_lt_reg_r ((exp x + exp (- x)) / 2)); [exact Hc |].
    unfold Rdiv at 2. rewrite Rmult_assoc, Rinv_l by lra. lra.
  - apply (Rmult_lt_reg_r ((exp x + exp (- x)) / 2)); [exact Hc |].
    unfold Rdiv at 1. rewrite Rmult_assoc, Rinv_l by lra. lra.
Qed.

Lemma entries_mmap (P : R -> Prop) (f : R -> R) (m : matrix) :
  (forall x, P (f x)) -> entries P (mmap f m).
Proof.
  intros Hf. unfold entries, mmap. apply Forall_fmap, Forall_forall.
  intros row _. simpl. apply Forall_fmap, Forall_forall. intros x _. apply Hf.
Qed.

Lemma zip_with_Forall {A B C} (P : A -> Prop) (Q : B -> Prop) (S : C -> Prop)
    (f : A -> B -> C) (l : list A) (k : list B) :
  (forall x y, P x -> Q y -> S (f x y)) ->
  Forall P l -> Forall Q k -> Forall S (zip_with f l k).
Proof.
  intros Hf Hl. revert k. induction Hl as [|x l Hx _ IH]; intros k Hk; [constructor |].
  destruct Hk as [|y k Hy Hk]; [constructor |]. simpl. constructor; auto.
Qed.

Lemma entries_mzip (P Q S : R -> Prop) (f : R -> R -> R) (a b : matrix) :
  (forall x y, P x -> Q y -> S (f x y)) ->
  entries P a -> entries Q b -> entries S (mzip f a b).
Proof.
  intros Hf Ha Hb. unfold entries, mzip.
  apply (zip_with_Forall (Forall P) (Forall Q)); [| exact Ha | exact Hb].
  intros ra rb Hra Hrb. now apply (zip_with_Forall P Q).
Qed.

Lemma entries_outer (P : R -> Prop) (u v : vector) :
  (forall x y, x ∈ u -> y ∈ v -> P (x * y)%R) -> entries P (outer u v).
Proof.
  intros Hp. unfold entries, outer. apply Forall_fmap, Forall_forall.
  intros x Hx. simpl. apply Forall_fmap, Forall_forall. intros y Hy. simpl. auto.
Qed.

Lemma blend_row_bounded (u h hc : list R) :
  Forall (fun x => 0 < x < 1)%R u ->
  Forall within_one h -> Forall within_one hc ->
  Forall within_one
    (zip_with Rplus (zip_with Rmult u h)
       (zip_with Rmult ((fun x => 1 - x)%R <$> u) hc)).
Proof.
  intros Hu. revert h hc. induction Hu as [|x u Hx _ IH]; intros h hc Hh Hhc.
  - constructor.
  - destruct Hh as [|y h Hy Hh]; [constructor |].
    destruct Hhc as [|w hc Hw Hhc]; [constructor |].
    simpl. constructor; [| now apply IH].
    unfold within_one in *. nra.
Qed.

Lemma blend_bounded (u h hc : matrix) :
  entries (fun x => 0 < x < 1)%R u ->
  entries within_one h -> entries within_one hc ->
  entries within_one (madd (mmul u h) (mmul (mmap (fun x => 1 - x)%R u) hc)).
Proof.
  unfold entries, madd, mmul, mzip, mmap. intros Hu. revert h hc.
  induction Hu as [|ru u Hru _ IH]; intros h hc Hh Hhc.
  - constructor.
  - destruct Hh as [|rh h Hrh Hh]; [constructor |].
    destruct Hhc as [|rc hc Hrc Hhc]; [constructor |].
    simpl. constructor; [now apply blend_row_bounded | now apply IH].
Qed.

(** [SRU.step] blends the previous state and a candidate in [(-1, 1)]
    with weights [u] and [1 - u], [0 < u < 1]: when the entries of the
    previous state lie in [[-1, 1]], so do those of the new state. *)
Theorem SRU_step_bounded (n : nat) (i_t : vector) (x_t z_t z_p h_p : matrix) :
  entries within_one h_p ->
  exists h, SRU_step n i_t x_t z_t [z_p; h_p] = Ok [h] /\ entries within_one h.
Proof.
  intros Hh. unfold SRU_step. eexists. split; [reflexivity |].
  apply blend_bounded.
  - apply entries_mmap, sigmoid_range.
  - exact Hh.
  - apply entries_mmap. intros x. pose proof (tanh_range x). unfold within_one. lra.
Qed.

Lemma SRU_step_bounded_witness :
  exists h, SRU_step 1 padded_index step_input step_input [step_input; output_state]
            = Ok [h] /\ entries within_one h.
Proof.
  apply (SRU_step_bounded 1 padded_index step_input step_input step_input output_state).
  unfold output_state, within_one. repeat constructor; lra.
Defined.

(** ** The scan *)

Lemma result_bind_Ok {A} (r : result A) : (x ← r; Ok x) = r.
Proof. now destruct r. Qed.

(** The loop of [theano.scan] over a sequence cut in two: the first part
    is scanned from the initial state, the second from the state the
    first part ends in (the initial state, if the first part is empty),
    and the outputs are those of the whole scan, exceptions included. *)
Theorem scan_loop_app (step : step_fn) (s1 s2 : list (vector * matrix * matrix))
    (state non_sequences : list matrix) :
  scan_loop step (s1 ++ s2) state non_sequences
  = (per1 ← scan_loop step s1 state non_sequences;
     per2 ← scan_loop step s2 (default state (last per1)) non_sequences;
     Ok (per1 ++ per2)%list).
Proof.
  revert state. induction s1 as [|[[i_t x_t] z_t] s1 IH]; intros state.
  - simpl. cbn [mbind result_bind]. symmetry. apply result_bind_Ok.
  - simpl. destruct (step i_t x_t z_t (state ++ non_sequences)%list) as [outs | e];
      cbn [mbind result_bind]; [| reflexivity].
    destruct (length outs =? length state)%nat; [| reflexivity].
    rewrite IH. destruct (scan_loop step s1 outs non_sequences) as [per1 | e];
      cbn [mbind result_bind]; [| reflexivity].
    assert (Hlast : default state (last (outs :: per1)) = default outs (last per1)).
    { destruct per1 as [|o per1]; [reflexivity |]. rewrite last_cons_cons.
      destruct (last (o :: per1)) eqn:Ho; [reflexivity |].
      apply last_None in Ho. discriminate. }
    rewrite Hlast.
    destruct (scan_loop step s2 (default outs (last per1)) non_sequences);
      reflexivity.
Qed.

Lemma scan_loop_lengths (step : step_fn) (slices : list (vector * matrix * matrix))
    (non_sequences : list matrix) :
  forall state per_step,
    scan_loop step slices state non_sequences = Ok per_step ->
    length per_step = length slices /\
    Forall (fun outs => length outs = length state) per_step.
Proof.
  induction slices as [|[[i_t x_t] z_t] slices IH]; intros state per_step Hscan.
  - inversion Hscan. split; [reflexivity | constructor].
  - simpl in Hscan.
    destruct (step i_t x_t z_t (state ++ non_sequences)%list) as [outs | e];
      cbn [mbind result_bind] in Hscan; [| discriminate].
    destruct (length outs =? length state)%nat eqn:Hlen; [| discriminate].
    apply Nat.eqb_eq in Hlen.
    destruct (scan_loop step slices outs non_sequences) as [more | e] eqn:Hmore;
      cbn [mbind result_bind] in Hscan; [| discriminate].
    inversion Hscan; subst per_step.
    destruct (IH outs more Hmore) as [Hl Hall].
    split; [simpl; lia |]. constructor; [exact Hlen |].
    eapply Forall_impl; [exact Hall |]. intros o Ho. simpl in Ho. lia.
Qed.

Lemma output_sequences_lengths (n : nat) (per_step : list (list matrix)) :
  Forall (fun outs => length outs = n) per_step ->
  length (output_sequences n per_step) = n /\
  Forall (fun s => length s = length per_step) (output_sequences n per_step).
Proof.
  intros Hall. unfold output_sequences. split.
  - now rewrite length_fmap, length_seq.
  - apply Forall_fmap, Forall_forall. intros k Hk. simpl.
    apply elem_of_seq in Hk as [_ Hk]. simpl in Hk.
    induction Hall as [|o per Ho _ IH]; [reflexivity |].
    simpl. destruct (lookup_lt_is_Some_2 o k) as [m Hm]; [lia |].
    rewrite Hm. simpl. f_equal. exact IH.
Qed.

(** When [theano.scan] returns, it returns one output sequence for each
    entry of [outputs_info], and every output sequence has one frame for
    each frame of the shortest of the three input sequences. *)
Theorem theano_scan_lengths (step : step_fn) (i : list vector) (xc z : list matrix)
    (non_sequences outputs_info : list matrix) (go_backwards : bool)
    (outputs : list (list matrix)) :
  theano_scan step i xc z non_sequences outputs_info go_backwards = Ok outputs ->
  length outputs = length outputs_info /\
  Forall (fun s => length s = Nat.min (Nat.min (length i) (length xc)) (length z)) outputs.
Proof.
  unfold theano_scan. intros Hscan.
  set (ordered := if go_backwards then zip (zip (reverse i) (reverse xc)) (reverse z)
                  else zip (zip i xc) z) in *.
  destruct (scan_loop step ordered outputs_info non_sequences) as [per | e] eqn:Hloop;
    cbn [mbind result_bind] in Hscan; [| discriminate].
  inversion Hscan; subst outputs.
  destruct (scan_loop_lengths _ _ _ _ _ Hloop) as [Hlen Hall].
  destruct (output_sequences_lengths _ _ Hall) as [Hn Hseq].
  split; [exact Hn |].
  eapply Forall_impl; [exact Hseq |]. intros s Hs. simpl in Hs. rewrite Hs, Hlen.
  unfold ordered. destruct go_backwards;
    rewrite !length_zip, ?length_reverse; reflexivity.
Qed.

Lemma theano_scan_lengths_witness :
  exists outputs,
    theano_scan (LSTME_step None 1 recurrent_weights) [padded_index; padded_index]
      [step_input; step_input; step_input] [step_input; step_input] []
      [output_state; cell_state] true = Ok outputs /\
    length outputs = 2%nat /\
    Forall (fun s => length s = 2%nat) outputs.
Proof.
  destruct (theano_scan (LSTME_step None 1 recurrent_weights) [padded_index; padded_index]
              [step_input; step_input; step_input] [step_input; step_input] []
              [output_state; cell_state] true) as [outputs | e] eqn:Hscan.
  - exists outputs. split; [reflexivity |].
    exact (theano_scan_lengths _ _ _ _ _ _ _ _ Hscan).
  - discriminate Hscan.
Defined.

(** ** Padded sequences under the scan of an [LSTME] unit *)

Lemma outer_shape (u v : vector) : matrix_shape (length u) (length v) (outer u v).
Proof.
  unfold outer. split; [now rewrite length_fmap |].
  apply Forall_fmap, Forall_forall. intros x _. simpl. now rewrite length_fmap.
Qed.

Lemma LSTME_step_shapes (rt : option RecurrentTransform) (n batch : nat)
    (W_re : matrix) (i_t : vector) (x_t z_t y_p c_p : matrix)
    (other_args : list matrix) :
  LSTME_shapes rt n batch W_re i_t z_t y_p c_p other_args ->
  (0 < batch)%nat ->
  exists (y' c' : matrix) (others : list matrix),
    LSTME_step rt n W_re i_t x_t z_t (y_p :: c_p :: other_args)
      = Ok (y' :: c' :: others) /\
    matrix_shape batch n y' /\ matrix_shape batch n c'.
Proof.
  intros (Hi & Hz & Hy & Hc & HW & Hrt) Hbatch.
  unfold LSTME_step.
  set (pre := match rt with
              | Some t =>
                  let (z_r, r_updates) :=
                    transform_step t (take (n_state_vars t) other_args) y_p in
                  (madd z_t z_r, r_updates)
              | None => (z_t, [])
              end).
  assert (Hpre : matrix_shape batch (4 * n) (fst pre)).
  { subst pre. destruct rt as [t |]; [| exact Hz].
    specialize (Hrt t eq_refl).
    destruct (transform_step t _ y_p) as [z_r upd]. simpl in *.
    now apply mzip_shape. }
  destruct pre as [z_t1 other_outputs]. simpl in Hpre.
  set (z_t2 := madd z_t1 (mdot y_p W_re)).
  assert (Hz2 : matrix_shape batch (4 * n) z_t2).
  { apply mzip_shape; [exact Hpre |].
    apply (mdot_shape batch n (4 * n)); [apply Hy | exact HW | lia]. }
  assert (Hpart : (ncols z_t2 / 4)%nat = n).
  { rewrite (matrix_shape_ncols batch (4 * n) z_t2 Hz2) by lia.
    rewrite Nat.mul_comm. apply Nat.div_mul. lia. }
  rewrite Hpart.
  assert (Hgate : forall lo hi f, (lo <= hi)%nat -> (hi <= 4 * n)%nat ->
                    n = (hi - lo)%nat ->
                    matrix_shape batch n (mmap f (slice_cols lo hi z_t2))).
  { intros lo hi f Hlo Hhi Hn. apply mmap_shape.
    now apply (slice_cols_shape batch (4 * n)). }
  assert (Hmask : matrix_shape batch n (outer i_t (replicate n 1%R))).
  { pose proof (outer_shape i_t (replicate n 1%R)) as Ho.
    now rewrite Hi, length_replicate in Ho. }
  assert (Hct : matrix_shape batch n
                  (madd (mmul (mmap sigmoid (slice_cols n (2 * n) z_t2)) c_p)
                        (mmul (mmap sigmoid (slice_cols 0 n z_t2))
                              (mmap tanh (slice_cols (3 * n) (4 * n) z_t2))))).
  { apply mzip_shape; apply mzip_shape; try assumption; apply Hgate; lia. }
  eexists _, _, _. split; [reflexivity |]. split.
  - apply mzip_shape; [| exact Hmask].
    apply mzip_shape; [apply Hgate; lia | now apply mmap_shape].
  - apply mzip_shape; apply mzip_shape; try assumption. now apply mmap_shape.
Qed.

(** On well-shaped arguments with index flags in [[0, 1]], [LSTME.step]
    returns an output state and a cell state of the shape of the
    incoming ones, and every entry of the output state lies in
    [[-1, 1]]. *)
Theorem LSTME_step_output_bounded (rt : option RecurrentTransform) (n batch : nat)
    (W_re : matrix) (i_t : vector) (x_t z_t y_p c_p : matrix)
    (other_args : list matrix) :
  LSTME_shapes rt n batch W_re i_t z_t y_p c_p other_args ->
  (0 < batch)%nat ->
  Forall (fun v => 0 <= v <= 1)%R i_t ->
  exists (y' c' : matrix) (others : list matrix),
    LSTME_step rt n W_re i_t x_t z_t (y_p :: c_p :: other_args)
      = Ok (y' :: c' :: others) /\
    matrix_shape batch n y' /\ matrix_shape batch n c' /\
    entries within_one y'.
Proof.
  intros Hshapes Hbatch Hi.
  destruct (LSTME_step_shapes rt n batch W_re i_t x_t z_t y_p c_p other_args
              Hshapes Hbatch) as (y' & c' & others & Hstep & Hy' & Hc').
  exists y', c', others. split; [exact Hstep |].
  split; [exact Hy' |]. split; [exact Hc' |].
  revert Hstep. unfold LSTME_step.
  destruct (match rt with
            | Some t =>
                let (z_r, r_updates) :=
                  transform_step t (take (n_state_vars t) other_args) y_p in
                (madd z_t z_r, r_updates)
            | None => (z_t, [])
            end) as [z_t1 other_outputs].
  intros Hstep. injection Hstep as <- _ _.
  unfold mmul.
  apply (entries_mzip (fun x => -1 < x < 1)%R (fun x => 0 <= x <= 1)%R).
  - intros x y Hx Hy. unfold within_one. nra.
  - apply (entries_mzip (fun x => 0 < x < 1)%R (fun x => -1 < x < 1)%R).
    + intros x y Hx Hy. nra.
    + apply entries_mmap, sigmoid_range.
    + apply entries_mmap, tanh_range.
  - apply entries_outer. intros x y Hx Hy.
    apply elem_of_replicate in Hy as [-> _].
    rewrite Forall_forall in Hi. specialize (Hi x Hx). simpl in Hi. lra.
Qed.

Lemma LSTME_step_output_bounded_witness :
  exists (y' c' : matrix) (others : list matrix),
    LSTME_step None 1 recurrent_weights padded_index step_input step_input
      [output_state; cell_state] = Ok (y' :: c' :: others) /\
    matrix_shape 2 1 y' /\ matrix_shape 2 1 c' /\
    entries within_one y'.
Proof.
  apply (LSTME_step_output_bounded None 1 2 recurrent_weights padded_index step_input
           step_input output_state cell_state []).
  - exact padded_step_shapes.
  - lia.
  - unfold padded_index. repeat constructor; lra.
Defined.

Lemma LSTME_step_plain (n : nat) (W_re : matrix) (i_t : vector)
    (x_t z_t y_p c_p : matrix) :
  exists y' c', LSTME_step None n W_re i_t x_t z_t [y_p; c_p] = Ok [y'; c'].
Proof. unfold LSTME_step. eauto. Qed.

Lemma Forall_zip3 {A B C} (P : A -> Prop) (Q : C -> Prop)
    (l : list A) (k : list B) (m : list C) :
  Forall P l -> Forall Q m ->
  Forall (fun s : A * B * C => P s.1.1 /\ Q s.2) (zip (zip l k) m).
Proof.
  intros Hl. revert k m. induction Hl as [|a l Ha _ IH]; intros k m Hm; [constructor |].
  destruct k as [|b k]; [constructor |].
  destruct Hm as [|c m Hc Hm]; [constructor |].
  simpl. constructor; [now split | now apply IH].
Qed.

Lemma scan_loop_LSTME_padded (n batch b : nat) (W_re c0 : matrix)
    (slices : list (vector * matrix * matrix)) :
  matrix_shape n (4 * n) W_re ->
  (b < batch)%nat ->
  Forall (fun s : vector * matrix * matrix =>
            (length s.1.1 = batch /\ s.1.1 !! b = Some 0%R) /\
            matrix_shape batch (4 * n) s.2) slices ->
  forall y c,
    matrix_shape batch n y -> matrix_shape batch n c -> c !! b = c0 !! b ->
    exists per_step,
      scan_loop (LSTME_step None n W_re) slices [y; c] [] = Ok per_step /\
      Forall (fun outs => exists y' c', outs = [y'; c'] /\
                y' !! b = Some (replicate n 0%R) /\ c' !! b = c0 !! b) per_step.
Proof.
  intros HW Hb Hall. induction Hall as [|[[i_t x_t] z_t] slices [[Hi Hpad] Hz] _ IH];
    intros y c Hy Hc Hrow.
  - exists []. split; [reflexivity | constructor].
  - simpl in Hi, Hpad, Hz. cbn [scan_loop app].
    assert (Hshapes : LSTME_shapes None n batch W_re i_t z_t y c [])
      by (split; [exact Hi | split; [exact Hz | split; [exact Hy | split;
            [exact Hc | split; [exact HW | discriminate]]]]]).
    destruct (LSTME_step_shapes None n batch W_re i_t x_t z_t y c [] Hshapes ltac:(lia))
      as (y' & c' & others & Hstep & Hy' & Hc').
    destruct (LSTME_step_rows None n batch W_re i_t x_t z_t y c [] b 0%R Hshapes Hpad)
      as (y2 & c2 & others2 & yt_b & ct_b & cp_b
          & Hstep2 & Hcp & Hyt_len & Hct_len & Hcp_len & Hyrow & Hcrow).
    rewrite Hstep in Hstep2. injection Hstep2 as <- <- <-.
    destruct (LSTME_step_plain n W_re i_t x_t z_t y c) as (y3 & c3 & Hplain).
    rewrite Hstep in Hplain. injection Hplain as <- <- ->.
    rewrite Hstep. cbn [mbind result_bind length Nat.eqb].
    assert (Hc'row : c' !! b = c0 !! b).
    { rewrite Hcrow, <- Hrow, Hcp. f_equal. now apply masked_cell_row. }
    assert (Hy'row : y' !! b = Some (replicate n 0%R)).
    { rewrite Hyrow. f_equal. now apply masked_output_row. }
    destruct (IH y' c' Hy' Hc' Hc'row) as (more & -> & Hmore).
    cbn [mbind result_bind]. eexists. split; [reflexivity |].
    constructor; [| exact Hmore]. now exists y', c'.
Qed.

Lemma output_sequences_pairs (P Q : matrix -> Prop) (per_step : list (list matrix)) :
  Forall (fun outs => exists y c, outs = [y; c] /\ P y /\ Q c) per_step ->
  exists ys cs, output_sequences 2 per_step = [ys; cs] /\ Forall P ys /\ Forall Q cs.
Proof.
  unfold output_sequences. cbn [seq fmap list_fmap].
  induction 1 as [|outs per (y & c & -> & Hy & Hc) _ (ys & cs & Heq & Hys & Hcs)].
  - exists [], []. repeat split; constructor.
  - inversion Heq as [[Hys_eq Hcs_eq]]. exists (y :: ys), (c :: cs).
    cbn [omap list_omap lookup list_lookup]. rewrite Hys_eq, Hcs_eq.
    repeat split; now constructor.
Qed.

(** A sequence of the batch that is padded in every frame (index 0
    throughout) comes out of the scan of an [LSTME] unit with a zero
    output in every frame and with its initial cell state in every
    frame, in either direction, when the frames have the shapes the unit
    expects. *)
Theorem theano_scan_LSTME_padded_row (n batch b : nat) (W_re y0 c0 : matrix)
    (i : list vector) (xc z : list matrix) (go_backwards : bool) :
  matrix_shape n (4 * n) W_re ->
  matrix_shape batch n y0 -> matrix_shape batch n c0 ->
  (b < batch)%nat ->
  Forall (fun i_t => length i_t = batch /\ i_t !! b = Some 0%R) i ->
  Forall (matrix_shape batch (4 * n)) z ->
  exists ys cs,
    theano_scan (LSTME_step None n W_re) i xc z [] [y0; c0] go_backwards
      = Ok [ys; cs] /\
    Forall (fun y => y !! b = Some (replicate n 0%R)) ys /\
    Forall (fun c => c !! b = c0 !! b) cs.
Proof.
  intros HW Hy0 Hc0 Hb Hi Hz. unfold theano_scan.
  assert (Hordered : Forall (fun s : vector * matrix * matrix =>
                               (length s.1.1 = batch /\ s.1.1 !! b = Some 0%R) /\
                               matrix_shape batch (4 * n) s.2)
                       (if go_backwards
                        then zip (zip (reverse i) (reverse xc)) (reverse z)
                        else zip (zip i xc) z)).
  { destruct go_backwards.
    - apply (Forall_zip3 (fun i_t : vector => length i_t = batch /\ i_t !! b = Some 0%R)
               (matrix_shape batch (4 * n))); now apply Forall_reverse.
    - now apply (Forall_zip3 (fun i_t : vector => length i_t = batch /\ i_t !! b = Some 0%R)
                   (matrix_shape batch (4 * n))). }
  destruct (scan_loop_LSTME_padded n batch b W_re c0 _ HW Hb Hordered y0 c0 Hy0 Hc0 eq_refl)
    as (per & -> & Hper).
  cbn [mbind result_bind length].
  destruct (output_sequences_pairs _ _ per Hper) as (ys & cs & -> & Hys & Hcs).
  now exists ys, cs.
Qed.

Lemma theano_scan_LSTME_padded_row_witness :
  exists ys cs,
    theano_scan (LSTME_step None 1 recurrent_weights) [padded_index; padded_index]
      [step_input; step_input] [step_input; step_input] []
      [output_state; cell_state] false = Ok [ys; cs] /\
    Forall (fun y => y !! 0%nat = Some [0%R]) ys /\
    Forall (fun c => c !! 0%nat = Some [2%R]) cs.
Proof.
  apply (theano_scan_LSTME_padded_row 1 2 0 recurrent_weights output_state cell_state
           [padded_index; padded_index] [step_input; step_input]
           [step_input; step_input] false).
  - unfold recurrent_weights. split; [reflexivity | repeat constructor].
  - unfold output_state. split; [reflexivity | repeat constructor].
  - unfold cell_state. split; [reflexivity | repeat constructor].
  - lia.
  - repeat constructor.
  - repeat constructor.
Defined.

(** ** The layer's scan of an [LSTME] unit *)

Lemma scan_loop_LSTME_shapes (n batch : nat) (W_re : matrix)
    (slices : list (vector * matrix * matrix)) :
  matrix_shape n (4 * n) W_re ->
  (0 < batch)%nat ->
  Forall (fun s : vector * matrix * matrix =>
            length s.1.1 = batch /\ matrix_shape batch (4 * n) s.2) slices ->
  forall y c,
    matrix_shape batch n y -> matrix_shape batch n c ->
    exists per_step,
      scan_loop (LSTME_step None n W_re) slices [y; c] [] = Ok per_step /\
      Forall (fun outs => exists y' c', outs = [y'; c'] /\
                matrix_shape batch n y' /\ matrix_shape batch n c') per_step.
Proof.
  intros HW Hbatch Hall. induction Hall as [|[[i_t x_t] z_t] slices [Hi Hz] _ IH];
    intros y c Hy Hc.
  - exists []. split; [reflexivity | constructor].
  - simpl in Hi, Hz. cbn [scan_loop app].
    assert (Hshapes : LSTME_shapes None n batch W_re i_t z_t y c [])
      by (split; [exact Hi | split; [exact Hz | split; [exact Hy | split;
            [exact Hc | split; [exact HW | discriminate]]]]]).
    destruct (LSTME_step_shapes None n batch W_re i_t x_t z_t y c [] Hshapes Hbatch)
      as (y' & c' & others & Hstep & Hy' & Hc').
    destruct (LSTME_step_plain n W_re i_t x_t z_t y c) as (y3 & c3 & Hplain).
    rewrite Hstep in Hplain. injection Hplain as <- <- ->.
    rewrite Hstep. cbn [mbind result_bind length Nat.eqb].
    destruct (IH y' c' Hy' Hc') as (more & -> & Hmore).
    cbn [mbind result_bind]. eexists. split; [reflexivity |].
    constructor; [| exact Hmore]. now exists y', c'.
Qed.

Lemma length_concat_last (k : nat) (x0 : list matrix) (xs : list (list matrix)) :
  length x0 = k -> Forall (fun s => length s = k) xs ->
  length (concat_last (x0 :: xs)) = k.
Proof.
  simpl. intros Hx0 Hxs. revert x0 Hx0.
  induction Hxs as [|s xs Hs _ IH]; intros x0 Hx0; [exact Hx0 |].
  simpl. apply IH. rewrite length_zip_with. lia.
Qed.

(** Scanned the way [RecurrentUnitLayer] scans a unit (two zero initial
    states, no non-sequences), an [LSTME] unit of at least two cells
    without recurrent transform returns on well-shaped input: when the
    index, the input [z] and every source have the same number of
    frames, every frame has the rows of the batch, and the frames of [z]
    and the recurrent weights have the widths the unit expects, the scan
    yields the sequence of outputs and the sequence of cell states, each
    with one frame of shape (batch, cells) per frame of the input, in
    either direction. *)
Theorem RecurrentUnitLayer_scan_LSTME_returns (n batch : nat) (W_re : matrix)
    (x : list (list matrix)) (z : list matrix) (i : list vector)
    (go_backwards : bool) :
  (2 <= n)%nat -> (0 < batch)%nat ->
  matrix_shape n (4 * n) W_re ->
  length i = length z ->
  Forall (fun i_t => length i_t = batch) i ->
  Forall (matrix_shape batch (4 * n)) z ->
  Forall (fun s => length s = length z /\ Forall (fun m : matrix => length m = batch) s) x ->
  exists ys cs,
    RecurrentUnitLayer_scan (LSTME_step None n W_re) 2 n x z i [] go_backwards
      = Ok [ys; cs] /\
    length ys = length z /\ length cs = length z /\
    Forall (matrix_shape batch n) ys /\ Forall (matrix_shape batch n) cs.
Proof.
  intros Hn Hbatch HW Hlen Hi Hz Hx.
  unfold RecurrentUnitLayer_scan, Unit_scan, theano_scan.
  set (xc := match x with [] => z | _ :: _ => concat_last x end).
  assert (Hxc : length xc = length z).
  { unfold xc. destruct x as [|x0 xs]; [reflexivity |].
    apply Forall_cons in Hx as [[Hx0 _] Hxs].
    apply length_concat_last; [exact Hx0 |].
    eapply Forall_impl; [exact Hxs |]. now intros s [Hs _]. }
  set (y0 := zeros (length (hd [] i)) n).
  change (replicate 2 y0 ++ [])%list with [y0; y0].
  set (ordered := if go_backwards then zip (zip (reverse i) (reverse xc)) (reverse z)
                  else zip (zip i xc) z).
  assert (Hordered : Forall (fun s : vector * matrix * matrix =>
                               length s.1.1 = batch /\ matrix_shape batch (4 * n) s.2)
                       ordered).
  { unfold ordered. destruct go_backwards.
    - apply (Forall_zip3 (fun i_t : vector => length i_t = batch)
               (matrix_shape batch (4 * n))); now apply Forall_reverse.
    - now apply (Forall_zip3 (fun i_t : vector => length i_t = batch)
                   (matrix_shape batch (4 * n))). }
  assert (Hframes : length ordered = length z).
  { unfold ordered. destruct go_backwards;
      rewrite !length_zip, ?length_reverse, Hxc, Hlen; lia. }
  destruct i as [|i0 i].
  - assert (Hz0 : ordered = []).
    { apply length_zero_iff_nil. rewrite Hframes. simpl in Hlen. lia. }
    rewrite Hz0. cbn [scan_loop mbind result_bind length]. simpl in Hlen.
    exists [], []. rewrite <- Hlen. repeat split; constructor.
  - assert (Hy0 : matrix_shape batch n y0).
    { unfold y0, zeros. simpl. apply Forall_cons in Hi as [-> _].
      split; [apply length_replicate |].
      apply Forall_replicate. apply length_replicate. }
    destruct (scan_loop_LSTME_shapes n batch W_re ordered HW Hbatch Hordered y0 y0 Hy0 Hy0)
      as (per & Hper & Hshapes).
    rewrite Hper. cbn [mbind result_bind length].
    destruct (scan_loop_lengths _ _ _ _ _ Hper) as [Hplen Hall].
    destruct (output_sequences_lengths _ _ Hall) as [_ Hseq].
    cbn [length] in Hseq.
    destruct (output_sequences_pairs _ _ per Hshapes) as (ys & cs & Hout & Hys & Hcs).
    rewrite Hout in *. exists ys, cs. split; [reflexivity |].
    inversion Hseq as [|? ? Hlys Hseq']; subst.
    inversion Hseq' as [|? ? Hlcs _]; subst.
    repeat split; try assumption; congruence.
Qed.

Lemma RecurrentUnitLayer_scan_LSTME_returns_witness :
  exists ys cs,
    RecurrentUnitLayer_scan (LSTME_step None 2 (zeros 2 8)) 2 2 []
      [zeros 1 8; zeros 1 8] [[1%R]; [0%R]] [] true = Ok [ys; cs] /\
    length ys = 2%nat /\ length cs = 2%nat /\
    Forall (matrix_shape 1 2) ys /\ Forall (matrix_shape 1 2) cs.
Proof.
  apply (RecurrentUnitLayer_scan_LSTME_returns 2 1 (zeros 2 8) []
           [zeros 1 8; zeros 1 8] [[1%R]; [0%R]] true).
  - lia.
  - lia.
  - split; [reflexivity | repeat constructor].
  - reflexivity.
  - repeat constructor.
  - repeat constructor.
  - constructor.
Defined.

(** ** The [SRU] unit under the layer's scan *)

(** Scanned the way [RecurrentUnitLayer] scans a unit with one output
    (one zero initial state, then the state variables of the transform,
    and no non-sequences), [SRU.step] raises as soon as there is a time
    step: it is short of its argument [h_p], or returns one output for
    two entries of [outputs_info], or is passed too many arguments. *)
Theorem RecurrentUnitLayer_scan_SRU_raises (n n_out0 : nat)
    (xc0 z0 : matrix) (i0 : vector) (xc z : list matrix) (i : list vector)
    (transform_initial : list matrix) (go_backwards : bool) :
  raised (theano_scan (SRU_step n) (i0 :: i) (xc0 :: xc) (z0 :: z) []
            (replicate 1 (zeros (length i0) n_out0) ++ transform_initial)%list
            go_backwards).
Proof.
  unfold theano_scan.
  assert (Hloop : forall slices : list (vector * matrix * matrix),
             slices <> [] ->
             raised (scan_loop (SRU_step n) slices
                       (replicate 1 (zeros (length i0) n_out0) ++ transform_initial)%list
                       [])).
  { intros [|[[i_t x_t] z_t] slices] Hne; [congruence |].
    destruct transform_initial as [|s1 [|s2 rest]]; simpl; exact I. }
  assert (Hne : zip (zip (i0 :: i) (xc0 :: xc)) (z0 :: z) <> []) by discriminate.
  destruct go_backwards.
  - assert (Hrev : zip (zip (reverse (i0 :: i)) (reverse (xc0 :: xc))) (reverse (z0 :: z))
                   <> []).
    { intros Hnil. apply (f_equal length) in Hnil.
      rewrite !length_zip, !length_reverse in Hnil. discriminate. }
    specialize (Hloop _ Hrev).
    destruct (scan_loop _ _ _ _); [contradiction | exact I].
  - specialize (Hloop _ Hne).
    destruct (scan_loop _ _ _ _); [contradiction | exact I].
Qed.

(** ** [LinearRecurrentLayer] *)

Lemma held_row (n : nat) (a hrow xrow : list R) :
  length a = n -> length hrow = n -> length xrow = n ->
  zip_with Rplus
    ((fun x => x * 0)%R <$> zip_with Rplus (zip_with Rmult a hrow) xrow)
    ((fun x => x * (1 - 0))%R <$> hrow)
  = hrow.
Proof.
  revert a hrow xrow. induction n as [|n IH]; intros a hrow xrow Ha Hh Hx.
  - destruct hrow; [| discriminate]. now destruct a, xrow.
  - destruct a as [|a0 a]; [discriminate |].
    destruct hrow as [|h0 hrow]; [discriminate |].
    destruct xrow as [|x0 xrow]; [discriminate |].
    simpl. f_equal; [ring |]. apply IH; simpl in *; lia.
Qed.

Lemma scale_rows_shape (r k : nat) (m : matrix) (v : vector) :
  matrix_shape r k m -> length v = r -> matrix_shape r k (scale_rows m v).
Proof.
  intros [Hr Hk] Hv. unfold scale_rows. split; [rewrite length_zip_with; lia |].
  apply Forall_lookup. intros j row Hrow.
  apply lookup_zip_with_Some in Hrow as (rm & s & -> & Hrm & _).
  rewrite length_fmap. exact (proj1 (Forall_lookup _ m) Hk j rm Hrm).
Qed.

Lemma scale_cols_shape (r k : nat) (a : vector) (m : matrix) :
  matrix_shape r k m -> length a = k -> matrix_shape r k (scale_cols a m).
Proof.
  intros [Hr Hk] Ha. unfold scale_cols. split; [now rewrite length_fmap |].
  apply Forall_fmap. eapply Forall_impl; [exact Hk |].
  intros row Hrow. simpl in *. rewrite length_zip_with. lia.
Qed.

Lemma LinearRecurrentLayer_step_padded (n batch b : nat) (a : vector)
    (x_t h_p : matrix) (i_t : vector) :
  length a = n -> matrix_shape batch n x_t -> matrix_shape batch n h_p ->
  length i_t = batch -> i_t !! b = Some 0%R ->
  matrix_shape batch n (LinearRecurrentLayer_step a x_t i_t h_p) /\
  LinearRecurrentLayer_step a x_t i_t h_p !! b = h_p !! b.
Proof.
  intros Ha Hx Hh Hi Hb. unfold LinearRecurrentLayer_step. split.
  - apply mzip_shape.
    + apply scale_rows_shape; [| exact Hi].
      apply mzip_shape; [now apply scale_cols_shape | exact Hx].
    + apply scale_rows_shape; [exact Hh | now rewrite length_fmap].
  - assert (Hbatch : (b < batch)%nat).
    { rewrite <- Hi. now apply lookup_lt_Some in Hb. }
    destruct (matrix_shape_lookup _ _ _ b Hx Hbatch) as (xrow & Hxrow & Hxlen).
    destruct (matrix_shape_lookup _ _ _ b Hh Hbatch) as (hrow & Hhrow & Hhlen).
    rewrite Hhrow. unfold madd, mzip, scale_rows, scale_cols.
    rewrite !lookup_zip_with, !list_lookup_fmap, Hhrow, Hxrow, Hb. simpl.
    f_equal. now apply (held_row n).
Qed.

Lemma linear_scan_loop_padded (n batch b : nat) (a : vector) (h0 : matrix)
    (slices : list (matrix * vector)) :
  length a = n ->
  Forall (fun s : matrix * vector =>
            matrix_shape batch n s.1 /\ length s.2 = batch /\ s.2 !! b = Some 0%R)
         slices ->
  forall h, matrix_shape batch n h -> h !! b = h0 !! b ->
    length (linear_scan_loop a slices h) = length slices /\
    Forall (fun h' => h' !! b = h0 !! b) (linear_scan_loop a slices h).
Proof.
  intros Ha Hall. induction Hall as [|[x_t i_t] slices (Hx & Hi & Hb) _ IH];
    intros h Hh Hrow.
  - split; [reflexivity | constructor].
  - simpl in Hx, Hi, Hb. cbn [linear_scan_loop].
    destruct (LinearRecurrentLayer_step_padded n batch b a x_t h i_t Ha Hx Hh Hi Hb)
      as [Hshape Hheld].
    destruct (IH _ Hshape ltac:(congruence)) as [Hlen Hrest].
    split; [simpl; lia |]. constructor; [congruence | exact Hrest].
Qed.

Lemma Forall_zip2 {A B} (P : A -> Prop) (Q : B -> Prop) (l : list A) (k : list B) :
  Forall P l -> Forall Q k -> Forall (fun s : A * B => P s.1 /\ Q s.2) (zip l k).
Proof.
  intros Hl. revert k. induction Hl as [|a l Ha _ IH]; intros k Hk; [constructor |].
  destruct Hk as [|b k Hb Hk]; [constructor |].
  simpl. constructor; [now split | now apply IH].
Qed.

(** A direction other than 1 and -1 makes [LinearRecurrentLayer] raise
    [KeyError].  For the two directions, a sequence of the batch that is
    padded in every frame keeps the zero initial state in every frame of
    the hidden states, which has one frame per frame of the shorter of
    the input and the index. *)
Theorem LinearRecurrentLayer_padded_row (n batch b : nat) (a_param : vector)
    (x : list matrix) (i : list vector) (direction : Z) :
  length a_param = n ->
  (b < batch)%nat ->
  Forall (matrix_shape batch n) x ->
  Forall (fun i_t => length i_t = batch /\ i_t !! b = Some 0%R) i ->
  (direction <> 1%Z -> direction <> (-1)%Z ->
   LinearRecurrentLayer_h a_param x i n direction
   = Raise (KeyError (format_Z direction))) /\
  (direction = 1%Z \/ direction = (-1)%Z ->
   exists h,
     LinearRecurrentLayer_h a_param x i n direction = Ok h /\
     length h = Nat.min (length x) (length i) /\
     Forall (fun h_t => h_t !! b = Some (replicate n 0%R)) h).
Proof.
  intros Ha Hb Hx Hi. unfold LinearRecurrentLayer_h, scan_direction. split.
  - intros H1 H2.
    rewrite (proj2 (Z.eqb_neq direction 1) H1), (proj2 (Z.eqb_neq direction (-1)) H2).
    reflexivity.
  - intros Hdir.
    assert (Hzero : zeros batch n !! b = Some (replicate n 0%R)).
    { unfold zeros. now apply lookup_replicate_2. }
    assert (Hshape0 : matrix_shape batch n (zeros batch n)).
    { unfold zeros. split; [apply length_replicate |].
      apply Forall_replicate. apply length_replicate. }
    destruct x as [|x0 x].
    { exists []. destruct Hdir as [-> | ->]; simpl; repeat split; constructor. }
    assert (Hbatch : length (hd [] (x0 :: x)) = batch).
    { simpl. pose proof Hx as Hx'. apply Forall_cons in Hx' as [[Hl _] _]. exact Hl. }
    rewrite Hbatch.
    assert (Hsig : length (sigmoid <$> a_param) = n) by now rewrite length_fmap.
    destruct Hdir as [-> | ->]; cbn [Z.eqb Pos.eqb].
    + assert (Hslices : Forall (fun s : matrix * vector =>
                                  matrix_shape batch n s.1 /\ length s.2 = batch /\
                                  s.2 !! b = Some 0%R) (zip (x0 :: x) i))
        by (apply (Forall_zip2 (matrix_shape batch n)
                     (fun i_t : vector => length i_t = batch /\ i_t !! b = Some 0%R));
            assumption).
      destruct (linear_scan_loop_padded n batch b (sigmoid <$> a_param)
                  (zeros batch n) (zip (x0 :: x) i) Hsig Hslices
                  (zeros batch n) Hshape0 eq_refl) as [Hlen Hall].
      eexists. split; [reflexivity |]. split.
      * rewrite Hlen. apply length_zip.
      * eapply Forall_impl; [exact Hall |]. intros h Hh. simpl in Hh. congruence.
    + assert (Hslices : Forall (fun s : matrix * vector =>
                                  matrix_shape batch n s.1 /\ length s.2 = batch /\
                                  s.2 !! b = Some 0%R)
                          (zip (reverse (x0 :: x)) (reverse i)))
        by (apply (Forall_zip2 (matrix_shape batch n)
                     (fun i_t : vector => length i_t = batch /\ i_t !! b = Some 0%R));
            now apply Forall_reverse).
      destruct (linear_scan_loop_padded n batch b (sigmoid <$> a_param)
                  (zeros batch n) (zip (reverse (x0 :: x)) (reverse i)) Hsig Hslices
                  (zeros batch n) Hshape0 eq_refl) as [Hlen Hall].
      eexists. split; [reflexivity |]. split.
      * rewrite length_reverse, Hlen, length_zip, !length_reverse. reflexivity.
      * apply Forall_reverse. eapply Forall_impl; [exact Hall |].
        intros h Hh. simpl in Hh. congruence.
Qed.

Lemma LinearRecurrentLayer_padded_row_witness :
  exists h,
    LinearRecurrentLayer_h [0; 0]%R [[[1; 2]; [3; 4]]; [[5; 6]; [7; 8]]]%R
      [padded_index; padded_index] 2 (-1) = Ok h /\
    length h = 2%nat /\
    Forall (fun h_t => h_t !! 0%nat = Some [0; 0]%R) h.
Proof.
  destruct (LinearRecurrentLayer_padded_row 2 2 0 [0; 0]%R
              [[[1; 2]; [3; 4]]; [[5; 6]; [7; 8]]]%R
              [padded_index; padded_index] (-1)) as [_ Hok].
  - reflexivity.
  - lia.
  - repeat constructor.
  - repeat constructor.
  - apply Hok. now right.
Defined.

(** ** The set-up of [RecurrentUnitLayer] *)

(** For the units with four gates the initial bias is zero except on the
    second quarter, the forget gate, which holds the shift.  For a
    vanilla, GRU or SRU unit with at least one cell a shift that is not
    zero fails the assertion. *)
Theorem bias_init_value_forget_shift (n : nat) (shift : R) :
  bias_init_value (LSTME_dims n) shift
  = Ok (replicate n 0%R ++ replicate n shift ++ replicate (2 * n) 0%R)%list /\
  (shift <> 0%R -> (0 < n)%nat ->
   bias_init_value (VANILLA_dims n) shift = Raise (AssertionError EmptyString) /\
   bias_init_value (GRU_dims n) shift = Raise (AssertionError EmptyString) /\
   bias_init_value (SRU_dims n) shift = Raise (AssertionError EmptyString)).
Proof.
  unfold bias_init_value. split.
  - cbn [LSTME_dims n_in n_units]. rewrite Nat.eqb_refl.
    assert (Hsplit : replicate (n * 4) 0%R
                     = (replicate n 0%R ++ replicate n 0%R ++ replicate (2 * n) 0%R)%list).
    { rewrite <- !replicate_add. f_equal. lia. }
    destruct (Req_dec_T shift 0) as [-> | Hne]; [now rewrite Hsplit |].
    rewrite take_replicate, drop_replicate, take_replicate, drop_replicate.
    rewrite fmap_replicate. rewrite Rplus_0_l.
    replace (n `min` (n * 4))%nat with n by lia.
    replace ((2 * n - n) `min` (n * 4 - n))%nat with n by lia.
    now replace (n * 4 - 2 * n)%nat with (2 * n)%nat by lia.
  - intros Hne Hn. destruct (Req_dec_T shift 0) as [H0 | _]; [contradiction |].
    cbn [VANILLA_dims GRU_dims SRU_dims n_in n_units].
    rewrite !(proj2 (Nat.eqb_neq _ _)) by lia. auto.
Qed.

Lemma bias_init_value_forget_shift_witness :
  bias_init_value (LSTME_dims 1) 1 = Ok [0; 1; 0; 0]%R /\
  bias_init_value (GRU_dims 1) 1 = Raise (AssertionError EmptyString).
Proof.
  destruct (bias_init_value_forget_shift 1 1) as [Hlstm Hother].
  split; [exact Hlstm |].
  destruct Hother as (_ & Hgru & _); [lra | lia | exact Hgru].
Defined.

(** On a CPU device none of the fused units is chosen: 'lstm', 'lstmp'
    and 'lstmc' all become 'lstme'.  A unit outside the LSTM family is
    kept on every device. *)
Theorem select_unit_cpu (device unit recurrent_transform : string) (lm : bool)
    (droplm : R) :
  (String.prefix "cpu" device = true ->
   unit ∈ ["lstm"; "lstmp"; "lstmc"] ->
   select_unit device unit recurrent_transform lm droplm = "lstme") /\
  (unit ∉ ["lstm"; "lstmp"; "lstmc"] ->
   select_unit device unit recurrent_transform lm droplm = unit).
Proof.
  unfold select_unit. split.
  - intros Hcpu Hunit. rewrite Hcpu.
    repeat (apply elem_of_cons in Hunit as [-> | Hunit]; [reflexivity |]).
    now apply elem_of_nil in Hunit.
  - intros Hunit.
    assert (H1 : unit <> "lstm") by (intros ->; apply Hunit; repeat constructor).
    assert (H2 : unit <> "lstmp") by (intros ->; apply Hunit; repeat constructor).
    assert (H3 : unit <> "lstmc") by (intros ->; apply Hunit; repeat constructor).
    apply String.eqb_neq in H1, H2, H3. now rewrite H1, H2, H3.
Qed.

Lemma select_unit_cpu_witness :
  select_unit "cpu0" "lstmp" "none" false 1 = "lstme" /\
  select_unit "gpu0" "gru" "none" false 1 = "gru".
Proof.
  split.
  - apply (select_unit_cpu "cpu0" "lstmp" "none" false 1); [reflexivity |].
    repeat constructor.
  - apply (select_unit_cpu "gpu0" "gru" "none" false 1). not_in_list.
Defined.
